(** * Bulk download of DEA products from the public AWS bucket (app.py)

    A shallow embedding of [src/app.py] and the properties its
    specification states about it.

    Conventions of the embedding.
    - A Python [str] is a [string]; a character is its code point, so the
      embedding covers the code points below 256.  Comparison of strings
      is Python's: lexicographic on code points, which is [String.leb].
    - [subprocess.run] is the only access to the outside world.  It is a
      function from the argument vector to the completed process (return
      code and captured standard output): the remote store is a snapshot,
      and the [aws] executable can always be spawned.
    - Console output and spawned processes are recorded, in order, in a
      trace of events; a function with effects returns its trace together
      with its value or the exception it raised.
    - [os.path.join] is [posixpath.join], and [strftime] is that of the
      C library of the same platform. *)

From Stdlib Require Import String Ascii List ZArith Lia Bool Arith.
From Stdlib Require Import Permutation Sorted DecimalString.
Import ListNotations.
Open Scope list_scope.
Open Scope string_scope.

(** ** Python strings *)

Definition ord (c : ascii) : nat := nat_of_ascii c.

(** [str.isspace] on one character (code points below 256). *)
Definition isspace (c : ascii) : bool :=
  let n := ord c in
  (((9 <=? n) && (n <=? 13)) || ((28 <=? n) && (n <=? 32))
   || (n =? 133) || (n =? 160))%nat.

(** The line boundaries of [str.splitlines] (code points below 256). *)
Definition is_linebreak (c : ascii) : bool :=
  let n := ord c in
  (((10 <=? n) && (n <=? 13)) || ((28 <=? n) && (n <=? 30)) || (n =? 133))%nat.

Definition is_digit (c : ascii) : bool :=
  let n := ord c in ((48 <=? n) && (n <=? 57))%nat.

Definition digit_val (c : ascii) : Z := Z.of_nat (ord c) - 48.

(** [c in s] for a one-character [c]. *)
Fixpoint char_in (c : ascii) (s : string) : bool :=
  match s with
  | EmptyString => false
  | String x r => Ascii.eqb x c || char_in c r
  end.

Definition is_empty (s : string) : bool :=
  match s with EmptyString => true | _ => false end.

(** [s[:n]] *)
Fixpoint take (n : nat) (s : string) : string :=
  match n, s with
  | S n', String c r => String c (take n' r)
  | _, _ => EmptyString
  end.

Fixpoint zeros (n : nat) : string :=
  match n with O => EmptyString | S n' => String "0" (zeros n') end.

(** [s.zfill(width)]: zeros on the left, after a leading sign. *)
Definition zfill (width : nat) (s : string) : string :=
  if (width <=? String.length s)%nat then s
  else
    let fill := zeros (width - String.length s) in
    match s with
    | String c r =>
        if Ascii.eqb c "+" || Ascii.eqb c "-" then String c (fill ++ r)
        else fill ++ s
    | EmptyString => fill
    end.

Fixpoint lstrip_by (p : ascii -> bool) (s : string) : string :=
  match s with
  | EmptyString => EmptyString
  | String c r => if p c then lstrip_by p r else s
  end.

Fixpoint rstrip_by (p : ascii -> bool) (s : string) : string :=
  match s with
  | EmptyString => EmptyString
  | String c r =>
      let r' := rstrip_by p r in
      if p c && is_empty r' then EmptyString else String c r'
  end.

(** [s.strip()] *)
Definition strip (s : string) : string :=
  rstrip_by isspace (lstrip_by isspace s).

(** [s.strip(chars)] *)
Definition strip_chars (chars : string) (s : string) : string :=
  rstrip_by (fun c => char_in c chars) (lstrip_by (fun c => char_in c chars) s).

(** [s.split()]: the maximal runs of non-whitespace characters. *)
Fixpoint split_ws_from (cur : string) (s : string) : list string :=
  match s with
  | EmptyString => if is_empty cur then [] else [cur]
  | String c r =>
      if isspace c then
        if is_empty cur then split_ws_from EmptyString r
        else cur :: split_ws_from EmptyString r
      else split_ws_from (cur ++ String c EmptyString) r
  end.

Definition split_ws (s : string) : list string := split_ws_from EmptyString s.

(** [s.split(sep)] for a one-character separator. *)
Fixpoint split_from (sep : ascii) (cur : string) (s : string) : list string :=
  match s with
  | EmptyString => [cur]
  | String c r =>
      if Ascii.eqb c sep then cur :: split_from sep EmptyString r
      else split_from sep (cur ++ String c EmptyString) r
  end.

Definition split (sep : ascii) (s : string) : list string :=
  split_from sep EmptyString s.

(** [s.splitlines()]: a carriage return followed by a line feed is one
    boundary, and a final boundary opens no empty last line. *)
Fixpoint splitlines_from (after_cr : bool) (cur : string) (s : string)
  : list string :=
  match s with
  | EmptyString => if is_empty cur then [] else [cur]
  | String c r =>
      if is_linebreak c then
        if after_cr && (ord c =? 10)%nat then splitlines_from false EmptyString r
        else cur :: splitlines_from (ord c =? 13)%nat EmptyString r
      else splitlines_from false (cur ++ String c EmptyString) r
  end.

Definition splitlines (s : string) : list string :=
  splitlines_from false EmptyString s.

(** [sorted(l)] on strings: the order is total and equal strings are
    identical, so every sort returns this list. *)
Fixpoint insert_sorted (x : string) (l : list string) : list string :=
  match l with
  | [] => [x]
  | y :: r => if String.leb x y then x :: l else y :: insert_sorted x r
  end.

Fixpoint sorted (l : list string) : list string :=
  match l with
  | [] => []
  | x :: r => insert_sorted x (sorted r)
  end.

(** [posixpath.join(a, *p)] *)
Definition starts_with_sep (s : string) : bool :=
  match s with String c _ => Ascii.eqb c "/" | EmptyString => false end.

Fixpoint ends_with_sep (s : string) : bool :=
  match s with
  | EmptyString => false
  | String c EmptyString => Ascii.eqb c "/"
  | String _ r => ends_with_sep r
  end.

Fixpoint path_join (path : string) (p : list string) : string :=
  match p with
  | [] => path
  | b :: rest =>
      if starts_with_sep b then path_join b rest
      else if is_empty path || ends_with_sep path then path_join (path ++ b) rest
      else path_join (path ++ "/" ++ b) rest
  end.

(** ** Exceptions and traces *)

Inductive exn := IndexError | ValueError.

Inductive result (A : Type) : Type :=
| Ok (a : A)
| Raise (e : exn).
Arguments Ok {A} a.
Arguments Raise {A} e.

(** [xs[-1]] *)
Fixpoint last_item {A : Type} (l : list A) : result A :=
  match l with
  | [] => Raise IndexError
  | [x] => Ok x
  | _ :: r => last_item r
  end.

(** What the program prints: one constructor per message, carrying the
    values the message is formatted from. *)
Inductive notice :=
| Scanning (path row : string)
| NoData (path row : string)
| FoundDates (count : nat) (path row : string) (short_dates : list string)
| StartingDownloads (total : nat)
| Progress (i total : nat)
| Downloading (s3_path : string)
| Done (s3_path : string)
| Failed (s3_path : string) (cmd : list string) (returncode : Z).

(** [Run argv]: the process [argv] was spawned and waited for. *)
Inductive event :=
| Print (n : notice)
| Run (argv : list string).

Definition trace := list event.

(** A computation: the events it produced, and its value or exception. *)
Definition io (A : Type) : Type := (trace * result A)%type.

Definition ret {A : Type} (a : A) : io A := ([], Ok a).

Definition raise {A : Type} (e : exn) : io A := ([], Raise e).

Definition bind {A B : Type} (c : io A) (k : A -> io B) : io B :=
  match c with
  | (t, Ok a) => let (t', r) := k a in ((t ++ t')%list, r)
  | (t, Raise e) => (t, Raise e)
  end.

Definition emit (e : event) : io unit := ([e], Ok tt).

Definition lift {A : Type} (r : result A) : io A := ([], r).

Declare Scope io_scope.
Delimit Scope io_scope with io.
Notation "x <- c ;; k" := (bind c (fun x => k))
  (at level 61, c at next level, right associativity) : io_scope.
Notation "c ;;; k" := (bind c (fun _ => k))
  (at level 61, right associativity) : io_scope.
Open Scope io_scope.

Definition events {A : Type} (c : io A) : trace := fst c.
Definition outcome {A : Type} (c : io A) : result A := snd c.

(** ** [datetime.strptime(d, "%Y-%m-%d")] and [strftime("%#d %b")]

    [_strptime] turns the format into the regular expression
    [(?P<Y>\d\d\d\d)-(?P<m>1[0-2]|0[1-9]|[1-9])-]
    [(?P<d>3[0-1]|[1-2]\d|0[1-9]|[1-9]| [1-9])],
    matches it at the start of the string, refuses unconverted data after
    the match and then builds the date, which refuses a year, month or
    day out of range. *)

Inductive cls :=
| Lit (c : ascii)
| Rng (lo hi : ascii).

Definition cls_match (k : cls) (c : ascii) : bool :=
  match k with
  | Lit x => Ascii.eqb c x
  | Rng lo hi => ((ord lo <=? ord c) && (ord c <=? ord hi))%nat
  end.

(** A sequence of character classes against the start of the text: the
    matched text and what follows it. *)
Fixpoint match_seq (p : list cls) (l : list ascii)
  : option (list ascii * list ascii) :=
  match p, l with
  | [], _ => Some ([], l)
  | k :: p', c :: l' =>
      if cls_match k c then
        match match_seq p' l' with
        | Some (m, r) => Some (c :: m, r)
        | None => None
        end
      else None
  | _ :: _, [] => None
  end.

(** Alternation with backtracking: the first alternative after which
    the rest of the expression, [k], matches too. *)
Fixpoint match_alts {A : Type} (alts : list (list cls)) (l : list ascii)
  (k : list ascii -> list ascii -> option A) : option A :=
  match alts with
  | [] => None
  | p :: rest =>
      match match_seq p l with
      | Some (m, r) =>
          match k m r with
          | Some a => Some a
          | None => match_alts rest l k
          end
      | None => match_alts rest l k
      end
  end.

Definition re_Y : list (list cls) :=
  [[Rng "0" "9"; Rng "0" "9"; Rng "0" "9"; Rng "0" "9"]].
Definition re_m : list (list cls) :=
  [[Lit "1"; Rng "0" "2"]; [Lit "0"; Rng "1" "9"]; [Rng "1" "9"]].
Definition re_d : list (list cls) :=
  [[Lit "3"; Rng "0" "1"]; [Rng "1" "2"; Rng "0" "9"]; [Lit "0"; Rng "1" "9"];
   [Rng "1" "9"]; [Lit " "; Rng "1" "9"]].

(** [int(text)] on a matched group: decimal digits after optional blanks. *)
Definition int_of (text : list ascii) : Z :=
  fold_left (fun acc c => if is_digit c then (10 * acc + digit_val c)%Z else acc)
            text 0%Z.

Definition is_leap (y : Z) : bool :=
  ((y mod 4 =? 0) && (negb (y mod 100 =? 0) || (y mod 400 =? 0)))%Z.

Definition days_in_month (y m : Z) : Z :=
  (if m =? 2 then (if is_leap y then 29 else 28)
   else if (m =? 4) || (m =? 6) || (m =? 9) || (m =? 11) then 30
   else 31)%Z.

Record date := { year : Z; month : Z; day : Z }.

Definition re_match_Ymd (l : list ascii) : option (date * list ascii) :=
  match_alts re_Y l (fun Y r1 =>
    match match_seq [Lit "-"] r1 with
    | Some (_, r2) =>
        match_alts re_m r2 (fun m r3 =>
          match match_seq [Lit "-"] r3 with
          | Some (_, r4) =>
              match_alts re_d r4 (fun d r5 =>
                Some ({| year := int_of Y; month := int_of m;
                         day := int_of d |}, r5))
          | None => None
          end)
    | None => None
    end).

Definition valid_date (d : date) : bool :=
  ((1 <=? year d) && (year d <=? 9999) && (1 <=? month d) && (month d <=? 12)
   && (1 <=? day d) && (day d <=? days_in_month (year d) (month d)))%Z.

Definition strptime (date_string : string) : result date :=
  match re_match_Ymd (list_ascii_of_string date_string) with
  | Some (d, []) => if valid_date d then Ok d else Raise ValueError
  | Some (_, _ :: _) => Raise ValueError
  | None => Raise ValueError
  end.

Definition month_abbr (m : Z) : string :=
  match m with
  | 1 => "Jan" | 2 => "Feb" | 3 => "Mar" | 4 => "Apr" | 5 => "May"
  | 6 => "Jun" | 7 => "Jul" | 8 => "Aug" | 9 => "Sep" | 10 => "Oct"
  | 11 => "Nov" | _ => "Dec"
  end%Z.

(** [strftime("%#d %b")] with the C library of a POSIX platform, the
    platform on which [os.path.join] is [posixpath.join]: there the
    flag [#] leaves [%d] as it is, the day of the month in two digits;
    then a blank and the abbreviated month name of the C locale.  Only
    the found-dates notice shows the result. *)
Definition strftime (d : date) : string :=
  zfill 2 (NilZero.string_of_uint (Nat.to_uint (Z.to_nat (day d)))) ++ " "
  ++ month_abbr (month d).

(** ** The program *)

(** What [subprocess.run] returns. *)
Record CompletedProcess := { returncode : Z; stdout : string }.

(** A download task: the command and the remote prefix it copies. *)
Definition task : Type := (list string * string)%type.

Definition ls_cmd (prefix : string) : list string :=
  ["aws"; "s3"; "ls"; prefix; "--no-sign-request"].

Section Model.

Variable subprocess_run : list string -> CompletedProcess.

(** [list_s3], the closure of [list_available_dates].  The process is
    spawned and waited for: an exception of [subprocess.run] itself,
    raised when the process cannot be spawned (no [aws] executable, a
    NUL in an argument), is outside the embedding; nothing in the
    program would catch it. *)
Definition list_s3 (prefix : string) : io (list string) :=
  let cmd := ls_cmd prefix in
  emit (Run cmd) ;;;
  let result := subprocess_run cmd in
  ret (if (returncode result =? 0)%Z then splitlines (stdout result) else []).

(** [[line.strip().split()[-1].strip('/') for line in lines if '/' in line]] *)
Fixpoint entry_keys (lines : list string) : io (list string) :=
  match lines with
  | [] => ret []
  | line :: rest =>
      if char_in "/" line then
        tok <- lift (last_item (split_ws (strip line))) ;;
        keys <- entry_keys rest ;;
        ret (strip_chars "/" tok :: keys)
      else entry_keys rest
  end.

(** The loop over [days]; [dates] is the list being appended to. *)
Fixpoint for_days (year month start_date end_date : string)
  (days dates : list string) : list string :=
  match days with
  | [] => dates
  | day :: rest =>
      let date_str := year ++ "-" ++ month ++ "-" ++ day in
      for_days year month start_date end_date rest
        (if (start_date <=? date_str) && (date_str <=? end_date)
         then (dates ++ [date_str])%list else dates)
  end.

(** The loop over [months] *)
Fixpoint for_months (year_prefix year start_date end_date : string)
  (months dates : list string) : io (list string) :=
  match months with
  | [] => ret dates
  | month :: rest =>
      if negb ((take 7 start_date <=? year ++ "-" ++ month)
               && (year ++ "-" ++ month <=? take 7 end_date))
      then for_months year_prefix year start_date end_date rest dates
      else
        let month_prefix := year_prefix ++ month ++ "/" in
        lines <- list_s3 month_prefix ;;
        days <- entry_keys lines ;;
        for_months year_prefix year start_date end_date rest
          (for_days year month start_date end_date days dates)
  end.

(** The loop over [years] *)
Fixpoint for_years (prefix start_date end_date : string)
  (years dates : list string) : io (list string) :=
  match years with
  | [] => ret dates
  | year :: rest =>
      if negb ((take 4 start_date <=? year) && (year <=? take 4 end_date))
      then for_years prefix start_date end_date rest dates
      else
        let year_prefix := prefix ++ year ++ "/" in
        lines <- list_s3 year_prefix ;;
        months <- entry_keys lines ;;
        dates' <- for_months year_prefix year start_date end_date months dates ;;
        for_years prefix start_date end_date rest dates'
  end.

Definition tile_prefix (path row base_url : string) : string :=
  base_url ++ "/" ++ zfill 3 path ++ "/" ++ zfill 3 row ++ "/".

Definition list_available_dates (path row base_url start_date end_date : string)
  : io (list string) :=
  let prefix := tile_prefix path row base_url in
  lines <- list_s3 prefix ;;
  years <- entry_keys lines ;;
  dates <- for_years prefix start_date end_date years [] ;;
  ret (sorted dates).

Definition build_s3_cmd (path row date base_url output_dir : string) : io task :=
  match split "-" date with
  | [y; m; d] =>
      let s3_path := base_url ++ "/" ++ zfill 3 path ++ "/" ++ zfill 3 row
                     ++ "/" ++ y ++ "/" ++ m ++ "/" ++ d ++ "/" in
      let local_path := path_join output_dir [path; row; y; m; d] in
      ret (["aws"; "s3"; "cp"; s3_path; local_path; "--recursive";
            "--no-sign-request"], s3_path)
  | _ => raise ValueError
  end.

(** [subprocess.run(cmd, check=True)] raises [CalledProcessError] on a
    return code other than 0, and [run_download] catches it.  As in
    [list_s3], the process is spawned and waited for; any other
    exception of [subprocess.run] is outside the embedding, and
    [run_download] would not catch it. *)
Definition run_download (cmd : list string) (s3_path : string) : io unit :=
  emit (Print (Downloading s3_path)) ;;;
  emit (Run cmd) ;;;
  let rc := returncode (subprocess_run cmd) in
  if (rc =? 0)%Z then emit (Print (Done s3_path))
  else emit (Print (Failed s3_path cmd rc)).

(** [[datetime.strptime(d, "%Y-%m-%d").strftime("%#d %b") for d in dates]] *)
Fixpoint short_dates_of (dates : list string) : io (list string) :=
  match dates with
  | [] => ret []
  | d :: rest =>
      parsed <- lift (strptime d) ;;
      shorts <- short_dates_of rest ;;
      ret (strftime parsed :: shorts)
  end.

(** The loop over [dates] of one tile; [tasks] is being appended to. *)
Fixpoint for_dates (path row base_url output_dir : string)
  (dates : list string) (tasks : list task) : io (list task) :=
  match dates with
  | [] => ret tasks
  | date :: rest =>
      t <- build_s3_cmd path row date base_url output_dir ;;
      for_dates path row base_url output_dir rest (tasks ++ [t])%list
  end.

(** The body of the loop over [rows]: one tile *)
Definition tile_body (path row start_date end_date base_url output_dir : string)
  (tasks : list task) : io (list task) :=
  emit (Print (Scanning path row)) ;;;
  dates <- list_available_dates path row base_url start_date end_date ;;
  match dates with
  | [] => emit (Print (NoData path row)) ;;; ret tasks
  | _ :: _ =>
      short_dates <- short_dates_of dates ;;
      emit (Print (FoundDates (List.length dates) path row short_dates)) ;;;
      for_dates path row base_url output_dir dates tasks
  end.

Fixpoint for_rows (path : string) (rows : list string)
  (start_date end_date base_url output_dir : string) (tasks : list task)
  : io (list task) :=
  match rows with
  | [] => ret tasks
  | row :: rest =>
      tasks' <- tile_body path row start_date end_date base_url output_dir tasks ;;
      for_rows path rest start_date end_date base_url output_dir tasks'
  end.

Fixpoint for_paths (paths rows : list string)
  (start_date end_date base_url output_dir : string) (tasks : list task)
  : io (list task) :=
  match paths with
  | [] => ret tasks
  | path :: rest =>
      tasks' <- for_rows path rows start_date end_date base_url output_dir tasks ;;
      for_paths rest rows start_date end_date base_url output_dir tasks'
  end.

(** Lines 71 to 85 of [download_dea_data]: the task list *)
Definition build_tasks (paths rows : list string)
  (start_date end_date base_url output_dir : string) : io (list task) :=
  tasks <- for_paths paths rows start_date end_date base_url output_dir [] ;;
  emit (Print (StartingDownloads (List.length tasks))) ;;;
  ret tasks.

(** Lines 93 to 95: [for i, (cmd, s3_path) in enumerate(tasks, 1)] *)
Fixpoint for_tasks (i total : nat) (tasks : list task) : io unit :=
  match tasks with
  | [] => ret tt
  | (cmd, s3_path) :: rest =>
      emit (Print (Progress i total)) ;;;
      run_download cmd s3_path ;;;
      for_tasks (S i) total rest
  end.

(** Lines 88 to 91: the thread pool.  The work queue holds the
    submitted tasks in order; at most [max_workers] threads take work
    from its head, and each runs [run_download] on its task: it prints,
    runs the copy, and reports.  The steps of different workers
    interleave freely; the main thread prints nothing while it waits. *)
Inductive worker :=
| Picked (t : task)
| Announced (t : task)
| Copied (t : task) (rc : Z).

Record pool := { queue : list task; workers : list worker; log : trace }.

Definition report (t : task) (rc : Z) : notice :=
  if (rc =? 0)%Z then Done (snd t) else Failed (snd t) (fst t) rc.

Inductive pool_step (max_workers : nat) : pool -> pool -> Prop :=
| step_pick t q ws lg :
    List.length ws < max_workers ->
    pool_step max_workers
      {| queue := t :: q; workers := ws; log := lg |}
      {| queue := q; workers := (ws ++ [Picked t])%list; log := lg |}
| step_announce t q ws1 ws2 lg :
    pool_step max_workers
      {| queue := q; workers := (ws1 ++ Picked t :: ws2)%list; log := lg |}
      {| queue := q; workers := (ws1 ++ Announced t :: ws2)%list;
         log := (lg ++ [Print (Downloading (snd t))])%list |}
| step_copy t q ws1 ws2 lg :
    pool_step max_workers
      {| queue := q; workers := (ws1 ++ Announced t :: ws2)%list; log := lg |}
      {| queue := q;
         workers :=
           (ws1 ++ Copied t (returncode (subprocess_run (fst t))) :: ws2)%list;
         log := (lg ++ [Run (fst t)])%list |}
| step_report t rc q ws1 ws2 lg :
    pool_step max_workers
      {| queue := q; workers := (ws1 ++ Copied t rc :: ws2)%list; log := lg |}
      {| queue := q; workers := (ws1 ++ ws2)%list;
         log := (lg ++ [Print (report t rc)])%list |}.

Inductive pool_steps (max_workers : nat) : pool -> pool -> Prop :=
| steps_refl s : pool_steps max_workers s s
| steps_cons s1 s2 s3 :
    pool_step max_workers s1 s2 -> pool_steps max_workers s2 s3 ->
    pool_steps max_workers s1 s3.

Definition pool_init (tasks : list task) : pool :=
  {| queue := tasks; workers := []; log := [] |}.

Definition pool_done (s : pool) : Prop := queue s = [] /\ workers s = [].

(** [download_dea_data]: the complete runs, as the trace of the run and
    how it ended.  [ThreadPoolExecutor] refuses a [max_workers] that is
    not positive with a [ValueError]. *)
Inductive download_dea_data (paths rows : list string)
  (start_date end_date base_url output_dir : string)
  (multithread : bool) (max_workers : Z) : trace -> result unit -> Prop :=
| run_build_raises t e :
    build_tasks paths rows start_date end_date base_url output_dir = (t, Raise e) ->
    download_dea_data paths rows start_date end_date base_url output_dir
      multithread max_workers t (Raise e)
| run_sequential t tasks :
    multithread = false ->
    build_tasks paths rows start_date end_date base_url output_dir
    = (t, Ok tasks) ->
    download_dea_data paths rows start_date end_date base_url output_dir
      multithread max_workers
      (t ++ events (for_tasks 1 (List.length tasks) tasks))%list
      (outcome (for_tasks 1 (List.length tasks) tasks))
| run_pool_refused t tasks :
    multithread = true -> (max_workers <= 0)%Z ->
    build_tasks paths rows start_date end_date base_url output_dir
    = (t, Ok tasks) ->
    download_dea_data paths rows start_date end_date base_url output_dir
      multithread max_workers t (Raise ValueError)
| run_pool t tasks s :
    multithread = true -> (0 < max_workers)%Z ->
    build_tasks paths rows start_date end_date base_url output_dir
    = (t, Ok tasks) ->
    pool_steps (Z.to_nat max_workers) (pool_init tasks) s -> pool_done s ->
    download_dea_data paths rows start_date end_date base_url output_dir
      multithread max_workers (t ++ log s)%list (Ok tt).

End Model.

(** ** Views of the program used in the statements *)

(** The key the comprehension of [list_available_dates] takes from a line *)
Definition key_of (line : string) : string :=
  strip_chars "/"
    (match last_item (split_ws (strip line)) with
     | Ok tok => tok
     | Raise _ => EmptyString
     end).

Definition keys_of (lines : list string) : list string :=
  map key_of (filter (char_in "/") lines).

(** What [list_s3] returns for a prefix, and the keys read from it *)
Definition listing (run : list string -> CompletedProcess) (prefix : string)
  : list string :=
  let result := run (ls_cmd prefix) in
  if (returncode result =? 0)%Z then splitlines (stdout result) else [].

Definition children (run : list string -> CompletedProcess) (prefix : string)
  : list string := keys_of (listing run prefix).

Definition date_str (year month day : string) : string :=
  year ++ "-" ++ month ++ "-" ++ day.

Definition in_range (start_date end_date d : string) : bool :=
  (start_date <=? d) && (d <=? end_date).

Definition year_kept (start_date end_date year : string) : bool :=
  (take 4 start_date <=? year) && (year <=? take 4 end_date).

Definition month_kept (start_date end_date year month : string) : bool :=
  (take 7 start_date <=? year ++ "-" ++ month)
  && (year ++ "-" ++ month <=? take 7 end_date).

(** The dates the three loops append, in the order they append them *)
Definition days_found run (year_prefix year start_date end_date month : string)
  : list string :=
  filter (in_range start_date end_date)
         (map (date_str year month) (children run (year_prefix ++ month ++ "/"))).

Definition months_found run (prefix start_date end_date year : string)
  : list string :=
  flat_map (fun month =>
              if month_kept start_date end_date year month
              then days_found run (prefix ++ year ++ "/") year
                     start_date end_date month
              else [])
           (children run (prefix ++ year ++ "/")).

Definition years_found run (prefix start_date end_date : string) : list string :=
  flat_map (fun year =>
              if year_kept start_date end_date year
              then months_found run prefix start_date end_date year
              else [])
           (children run prefix).

(** A day-level prefix [root/year/month/day/] is listed under [root]. *)
Definition present run (root d : string) : Prop :=
  exists year month day,
    In year (children run root) /\
    In month (children run (root ++ year ++ "/")) /\
    In day (children run (root ++ year ++ "/" ++ month ++ "/")) /\
    d = date_str year month day.

Definition ascending (l : list string) : Prop :=
  StronglySorted (fun a b => (a <=? b) = true) l.

(** Discovery returns exactly the dates present and in range, ascending,
    each once. *)
Definition discovery_exact run (path row base_url start_date end_date : string)
  : Prop :=
  exists dates,
    outcome (list_available_dates run path row base_url start_date end_date)
      = Ok dates /\
    (forall d, In d dates <->
               present run (tile_prefix path row base_url) d
               /\ in_range start_date end_date d = true) /\
    ascending dates /\ NoDup dates.

(** The listings under [root] read as a tree of dates: the keys of one
    listing differ from each other, a year key has four characters and a
    month key two. *)
Definition dated_tree run (root : string) : Prop :=
  NoDup (children run root) /\
  forall year, In year (children run root) ->
    String.length year = 4 /\
    NoDup (children run (root ++ year ++ "/")) /\
    forall month, In month (children run (root ++ year ++ "/")) ->
      String.length month = 2 /\
      NoDup (children run (root ++ year ++ "/" ++ month ++ "/")).

(** The local destination in a task's command *)
Definition local_destination (t : task) : string := nth 4 (fst t) EmptyString.

(** The destination with [path] and [row] padded to three digits *)
Definition padded_destination (output_dir path row y m d : string) : string :=
  output_dir ++ "/" ++ zfill 3 path ++ "/" ++ zfill 3 row ++ "/" ++ y ++ "/"
  ++ m ++ "/" ++ d.

Definition no_slash (s : string) : Prop := char_in "/" s = false.
Definition no_dash (s : string) : Prop := char_in "-" s = false.

(** A path component: not empty and without a slash *)
Definition component (s : string) : Prop :=
  is_empty s = false /\ no_slash s.

(** A trace of listing commands only *)
Definition only_listings (t : trace) : Prop :=
  Forall (fun e => exists prefix, e = Run (ls_cmd prefix)) t.

Fixpoint all_digits (s : string) : bool :=
  match s with
  | EmptyString => true
  | String c r => is_digit c && all_digits r
  end.

(** Events by kind *)
Definition is_listing (e : event) : bool :=
  match e with
  | Run argv => (nth 2 argv EmptyString =? "ls")%string
  | Print _ => false
  end.

Definition is_copy (e : event) : bool :=
  match e with
  | Run argv => (nth 2 argv EmptyString =? "cp")%string
  | Print _ => false
  end.

Fixpoint runs (t : trace) : list (list string) :=
  match t with
  | [] => []
  | Run argv :: r => argv :: runs r
  | Print _ :: r => runs r
  end.

(** The success and failure reports of a trace *)
Fixpoint reports (t : trace) : list notice :=
  match t with
  | [] => []
  | Print (Done p) :: r => Done p :: reports r
  | Print (Failed p c rc) :: r => Failed p c rc :: reports r
  | _ :: r => reports r
  end.

Fixpoint scans (t : trace) : list (string * string) :=
  match t with
  | [] => []
  | Print (Scanning p r) :: rest => (p, r) :: scans rest
  | _ :: rest => scans rest
  end.

(** What [run_download] does for one task *)
Definition task_report run (t : task) : notice :=
  report t (returncode (run (fst t))).

Definition task_events run (t : task) : trace :=
  [Print (Downloading (snd t)); Run (fst t); Print (task_report run t)].

(** What a worker of the pool has left to do *)
Definition worker_rest run (w : worker) : trace :=
  match w with
  | Picked t => task_events run t
  | Announced t => [Run (fst t); Print (task_report run t)]
  | Copied t rc => [Print (report t rc)]
  end.

Definition worker_weight (w : worker) : nat :=
  match w with Picked _ => 3 | Announced _ => 2 | Copied _ _ => 1 end.

Definition pool_weight (s : pool) : nat :=
  4 * List.length (queue s) + list_sum (map worker_weight (workers s)).

(** The tiles in the order the two outer loops visit them *)
Definition tiles (paths rows : list string) : list (string * string) :=
  flat_map (fun path => map (fun row => (path, row)) rows) paths.

(** The tasks one visit of a tile appends *)
Definition tile_tasks run (start_date end_date base_url output_dir : string)
  (tile : string * string) : list task :=
  match outcome (tile_body run (fst tile) (snd tile) start_date end_date
                   base_url output_dir []) with
  | Ok ts => ts
  | Raise _ => []
  end.

(** The two outer loops seen as one loop over the tiles *)
Fixpoint for_tiles run (tl : list (string * string))
  (start_date end_date base_url output_dir : string) (tasks : list task)
  : io (list task) :=
  match tl with
  | [] => ret tasks
  | tile :: rest =>
      tasks' <- tile_body run (fst tile) (snd tile) start_date end_date
                  base_url output_dir tasks ;;
      for_tiles run rest start_date end_date base_url output_dir tasks'
  end.

(** What one visit of a tile prints and runs *)
Definition tile_trace run (start_date end_date base_url output_dir : string)
  (tile : string * string) : trace :=
  events (tile_body run (fst tile) (snd tile) start_date end_date
            base_url output_dir []).

(** A computation that appends its tasks to those already built *)
Definition extend (tasks : list task) (c : io (list task)) : io (list task) :=
  (events c,
   match outcome c with
   | Ok new => Ok (tasks ++ new)%list
   | Raise e => Raise e
   end).

(** The only exception a computation raises is [ValueError]. *)
Definition value_errors_only {A : Type} (c : io A) : Prop :=
  forall e, outcome c = Raise e -> e = ValueError.

Definition copy_task (t : task) : Prop :=
  is_copy (Run (fst t)) = true /\ is_listing (Run (fst t)) = false.

(** Everything a pool has done and has left to do *)
Definition pool_total run (s : pool) : trace :=
  (log s ++ flat_map (worker_rest run) (workers s)
   ++ flat_map (task_events run) (queue s))%list.

Definition tile_eq_dec (a b : string * string) : {a = b} + {a <> b}.
Proof. decide equality; apply string_dec. Defined.

Definition task_eq_dec (a b : task) : {a = b} + {a <> b}.
Proof.
  decide equality; [apply string_dec | apply (list_eq_dec string_dec)].
Defined.

(** The same store, except that one command returns [cp] *)
Definition override (run : list string -> CompletedProcess)
  (argv : list string) (cp : CompletedProcess) : list string -> CompletedProcess :=
  fun a => if list_eq_dec string_dec a argv then cp else run a.

(** ** Stores for the examples

    A store gives, for a prefix, the names of its sub-prefixes, printed
    the way [aws s3 ls] prints them; a prefix it does not know fails to
    list.  A copy fails exactly for the prefixes in [failing]. *)

Definition LF : string := String (ascii_of_nat 10) EmptyString.

Definition pre_line (name : string) : string :=
  "                           PRE " ++ name ++ "/" ++ LF.

Definition ls_output (names : list string) : CompletedProcess :=
  {| returncode := 0; stdout := String.concat "" (map pre_line names) |}.

Fixpoint lookup (k : string) (dirs : list (string * list string))
  : option (list string) :=
  match dirs with
  | [] => None
  | (k', v) :: r => if (k' =? k)%string then Some v else lookup k r
  end.

Definition store_run (dirs : list (string * list string)) (failing : list string)
  (argv : list string) : CompletedProcess :=
  if (nth 2 argv EmptyString =? "ls")%string then
    match lookup (nth 3 argv EmptyString) dirs with
    | Some names => ls_output names
    | None => {| returncode := 1; stdout := EmptyString |}
    end
  else if existsb (String.eqb (nth 3 argv EmptyString)) failing
       then {| returncode := 1; stdout := EmptyString |}
       else {| returncode := 0; stdout := EmptyString |}.

Definition bucket : string := "s3://bucket".

(** Tile 7/80 with data on 1 and 3 January 2025 *)
Definition january_dirs : list (string * list string) :=
  [("s3://bucket/007/080/", ["2025"]);
   ("s3://bucket/007/080/2025/", ["01"]);
   ("s3://bucket/007/080/2025/01/", ["01"; "03"])].

Definition january_run := store_run january_dirs [].

(** The same, the copy of 1 January failing *)
Definition january_failing_run :=
  store_run january_dirs ["s3://bucket/007/080/2025/01/01/"].

(** Under 2025 the prefixes [01/] and [x 01/]; data on 2 January *)
Definition twin_dirs : list (string * list string) :=
  [("s3://bucket/007/080/", ["2025"]);
   ("s3://bucket/007/080/2025/", ["01"; "x 01"]);
   ("s3://bucket/007/080/2025/01/", ["02"])].

Definition twin_run := store_run twin_dirs [].

(** A day prefix [1/], not padded *)
Definition loose_day_dirs : list (string * list string) :=
  [("s3://bucket/007/080/", ["2025"]);
   ("s3://bucket/007/080/2025/", ["01"]);
   ("s3://bucket/007/080/2025/01/", ["1"])].

Definition loose_day_run := store_run loose_day_dirs [].

(** A month prefix [13/] *)
Definition month13_dirs : list (string * list string) :=
  [("s3://bucket/007/080/", ["2025"]);
   ("s3://bucket/007/080/2025/", ["13"]);
   ("s3://bucket/007/080/2025/13/", ["01"])].

Definition month13_run := store_run month13_dirs [].

(** The construction of the January tasks, one copy of which fails *)
Definition january_build : io (list task) :=
  build_tasks january_failing_run ["7"] ["80"] "2025-01-01" "2025-01-03"
    bucket "./dea_data".

(** The construction for a request that names path 7 twice *)
Definition twice_build : io (list task) :=
  build_tasks january_run ["7"; "7"] ["80"] "2025-01-01" "2025-01-03"
    bucket "./dea_data".

(** The task list a construction returned, empty if it raised *)
Definition built (c : io (list task)) : list task :=
  match outcome c with
  | Ok tasks => tasks
  | Raise _ => []
  end.

(** A date of ten characters, [YYYY-MM-DD] with every field padded,
    that names a day of the calendar *)
Definition padded_calendar_date (d : string) : bool :=
  match list_ascii_of_string d with
  | [y1; y2; y3; y4; s1; m1; m2; s2; d1; d2] =>
      forallb is_digit [y1; y2; y3; y4; m1; m2; d1; d2]
      && Ascii.eqb s1 "-" && Ascii.eqb s2 "-"
      && valid_date {| year := int_of [y1; y2; y3; y4];
                       month := int_of [m1; m2];
                       day := int_of [d1; d2] |}
  | _ => false
  end.

(** The number of occurrences of a character in a string *)
Fixpoint count_char (c : ascii) (s : string) : nat :=
  match s with
  | EmptyString => 0
  | String x r => (if Ascii.eqb x c then 1 else 0) + count_char c r
  end.

(** The dates discovery returns for a tile *)
Definition discovered run (start_date end_date base_url : string)
  (tile : string * string) : list string :=
  match outcome (list_available_dates run (fst tile) (snd tile) base_url
                   start_date end_date) with
  | Ok dates => dates
  | Raise _ => []
  end.

(** A character class that does not match the dash *)
Definition no_dash_cls (k : cls) : Prop := cls_match k "-" = false.

(** The progress notices of a trace, as pairs [(i, total)] *)
Fixpoint progress_of (t : trace) : list (nat * nat) :=
  match t with
  | [] => []
  | Print (Progress i total) :: r => (i, total) :: progress_of r
  | _ :: r => progress_of r
  end.

Definition is_progress (ev : event) : bool :=
  match ev with
  | Print (Progress _ _) => true
  | _ => false
  end.

(** Every character of the string passes the test. *)
Fixpoint all_chars (q : ascii -> bool) (s : string) : bool :=
  match s with
  | EmptyString => true
  | String x r => q x && all_chars q r
  end.

(** A prefix name without whitespace and without a slash *)
Definition plain_name (name : string) : Prop :=
  all_chars (fun x => negb (isspace x) && negb (Ascii.eqb x "/")) name = true.

(** The January store with the days listed the other way round *)
Definition january_reversed_run :=
  store_run [("s3://bucket/007/080/", ["2025"]);
             ("s3://bucket/007/080/2025/", ["01"]);
             ("s3://bucket/007/080/2025/01/", ["03"; "01"])] [].

(** ** A calendar date in the form [%Y-%m-%d], in the words of the
    specification

    Three fields separated by dashes: a year of four digits, a month of
    one or two digits and a day of one or two digits (or of a blank and
    a digit, a form [strptime] reads as well), which name a day of the
    calendar.  These definitions are written from that description, not
    from the code of [strptime]; the properties compare the two. *)

(** The number a numeral denotes *)
Fixpoint numeral_value (s : string) : Z :=
  match s with
  | EmptyString => 0
  | String c r =>
      (digit_val c * 10 ^ Z.of_nat (String.length r) + numeral_value r)%Z
  end.

(** A numeral of [lo] to [hi] digits *)
Definition numeral (lo hi : nat) (s : string) : bool :=
  all_digits s && (lo <=? String.length s)%nat && (String.length s <=? hi)%nat.

Definition day_field (s : string) : bool :=
  numeral 1 2 s
  || match s with
     | String b (String c EmptyString) => Ascii.eqb b " " && is_digit c
     | _ => false
     end.

(** The digits of a day field *)
Definition day_digits (s : string) : string :=
  match s with
  | String b r => if Ascii.eqb b " " then r else s
  | EmptyString => s
  end.

Definition leap_year (y : Z) : bool :=
  ((y mod 400 =? 0) || ((y mod 4 =? 0) && negb (y mod 100 =? 0)))%Z.

Definition month_length (y m : Z) : Z :=
  nth (Z.to_nat (m - 1))
      [31; if leap_year y then 29 else 28; 31; 30; 31; 30; 31; 31; 30; 31;
       30; 31]%Z
      0%Z.

(** The date a string denotes, if it denotes one *)
Definition calendar_date_of (d : string) : option date :=
  match split "-" d with
  | [y; m; dd] =>
      let Y := numeral_value y in
      let M := numeral_value m in
      let D := numeral_value (day_digits dd) in
      if (numeral 4 4 y && numeral 1 2 m && day_field dd
          && (1 <=? Y) && (1 <=? M) && (M <=? 12)
          && (1 <=? D) && (D <=? month_length Y M))%Z
      then Some {| year := Y; month := M; day := D |}
      else None
  | _ => None
  end.

Definition calendar_date (d : string) : bool :=
  match calendar_date_of d with Some _ => true | None => false end.

(** The texts of one or two characters over an alphabet; the month
    fields and the day fields among them *)
Definition digit_chars : list ascii :=
  ["0"; "1"; "2"; "3"; "4"; "5"; "6"; "7"; "8"; "9"]%char.

Definition blank_digits : list ascii := " "%char :: digit_chars.

Definition texts_over (cs : list ascii) : list string :=
  (map (fun a => String a EmptyString) cs
   ++ flat_map (fun a => map (fun b => String a (String b EmptyString)) cs)
               cs)%list.

Definition month_field (m : string) : bool :=
  (numeral 1 2 m && (1 <=? numeral_value m) && (numeral_value m <=? 12))%Z.

Definition day_of_month_field (dd : string) : bool :=
  (day_field dd && (1 <=? numeral_value (day_digits dd))
   && (numeral_value (day_digits dd) <=? 31))%Z.

Definition month_texts : list string :=
  filter month_field (texts_over digit_chars).

Definition day_texts : list string :=
  filter day_of_month_field (texts_over blank_digits).

(** A character class of digits and blanks only *)
Definition cls_plain (k : cls) : bool :=
  match k with
  | Lit x => existsb (Ascii.eqb x) blank_digits
  | Rng lo hi => is_digit lo && is_digit hi
  end.

(** The alternative matches the text, all of it. *)
Definition fits (p : list cls) (text : list ascii) : bool :=
  match match_seq p text with
  | Some (_, []) => true
  | _ => false
  end.

(** Every text an alternative of [alts] fits is one of [texts]. *)
Definition alts_within (alts : list (list cls)) (texts : list string) : bool :=
  forallb (fun p =>
             forallb (fun m => implb (fits p (list_ascii_of_string m))
                                     (existsb (String.eqb m) texts))
                     (texts_over blank_digits))
          alts.

(** A path component that does not lead out of the directory it is
    joined to: it holds no slash and is not [..] *)
Definition descending (c : string) : Prop := no_slash c /\ c <> "..".

(** * Properties *)

(** ** The embedding on small inputs *)

Example zfill_examples :
  zfill 3 "7" = "007" /\ zfill 3 "080" = "080" /\ zfill 3 "-7" = "-07"
  /\ zfill 3 "1234" = "1234".
Proof. repeat split. Qed.

Example splitlines_examples :
  splitlines ("a" ++ String (ascii_of_nat 13) LF ++ "b" ++ LF) = ["a"; "b"]
  /\ splitlines (LF ++ LF) = [EmptyString; EmptyString]
  /\ splitlines EmptyString = [].
Proof. repeat split. Qed.

Example key_of_examples :
  key_of "                           PRE 2025/" = "2025"
  /\ key_of "                           PRE x 01/" = "01"
  /\ keys_of ["                           PRE 01/";
              "2025-01-01 00:00:00       1234 readme.txt"] = ["01"].
Proof. repeat split. Qed.

Example split_examples :
  split "-" "2025-01-03" = ["2025"; "01"; "03"]
  /\ split "-" "20250103" = ["20250103"]
  /\ split "-" EmptyString = [EmptyString].
Proof. repeat split. Qed.

Example path_join_examples :
  path_join "./dea_data" ["7"; "80"; "2025"; "01"; "03"]
  = "./dea_data/7/80/2025/01/03"
  /\ path_join "out/" ["a"; "/abs"; "b"] = "/abs/b"
  /\ path_join EmptyString ["a"; EmptyString; "b"] = "a/b".
Proof. repeat split. Qed.

Example strptime_examples :
  strptime "2025-01-03" = Ok {| year := 2025; month := 1; day := 3 |}
  /\ strptime "2025-1-3" = Ok {| year := 2025; month := 1; day := 3 |}
  /\ strptime "2024-02-29" = Ok {| year := 2024; month := 2; day := 29 |}
  /\ strptime "2025-02-29" = Raise ValueError
  /\ strptime "2025-13-01" = Raise ValueError
  /\ strptime "2025-01-035" = Raise ValueError
  /\ strptime "25-01-03" = Raise ValueError.
Proof. repeat split. Qed.

Example strftime_examples :
  strftime {| year := 2025; month := 1; day := 3 |} = "03 Jan"
  /\ strftime {| year := 2025; month := 12; day := 31 |} = "31 Dec".
Proof. repeat split. Qed.

(** The example of the specification: tile 7/80 with data on 1 and 3
    January, asked for 1 to 3 January. *)
Example january_discovery :
  list_available_dates january_run "7" "80" bucket "2025-01-01" "2025-01-03"
  = ([Run (ls_cmd "s3://bucket/007/080/");
      Run (ls_cmd "s3://bucket/007/080/2025/");
      Run (ls_cmd "s3://bucket/007/080/2025/01/")],
     Ok ["2025-01-01"; "2025-01-03"]).
Proof. reflexivity. Qed.

Example january_sequential_run :
  for_tasks january_failing_run 1 2 (built january_build)
  = ([Print (Progress 1 2);
      Print (Downloading "s3://bucket/007/080/2025/01/01/");
      Run ["aws"; "s3"; "cp"; "s3://bucket/007/080/2025/01/01/";
           "./dea_data/7/80/2025/01/01"; "--recursive"; "--no-sign-request"];
      Print (Failed "s3://bucket/007/080/2025/01/01/"
               ["aws"; "s3"; "cp"; "s3://bucket/007/080/2025/01/01/";
                "./dea_data/7/80/2025/01/01"; "--recursive";
                "--no-sign-request"] 1);
      Print (Progress 2 2);
      Print (Downloading "s3://bucket/007/080/2025/01/03/");
      Run ["aws"; "s3"; "cp"; "s3://bucket/007/080/2025/01/03/";
           "./dea_data/7/80/2025/01/03"; "--recursive"; "--no-sign-request"];
      Print (Done "s3://bucket/007/080/2025/01/03/")],
     Ok tt).
Proof. reflexivity. Qed.

(** ** Strings *)

Lemma append_assoc (a b c : string) : (a ++ b) ++ c = a ++ (b ++ c).
Proof. induction a as [|x a IH]; simpl; [reflexivity | now rewrite IH]. Qed.

Lemma append_empty_r (a : string) : a ++ EmptyString = a.
Proof. induction a as [|x a IH]; simpl; [reflexivity | now rewrite IH]. Qed.

Lemma length_append (a b : string) :
  String.length (a ++ b) = String.length a + String.length b.
Proof. induction a as [|x a IH]; simpl; [reflexivity | now rewrite IH]. Qed.

Lemma append_inj_same_length (a a' b b' : string) :
  String.length a = String.length a' -> a ++ b = a' ++ b' -> a = a' /\ b = b'.
Proof.
  revert a'. induction a as [|x a IH]; intros [|x' a'] Hlen Heq;
    simpl in *; try discriminate.
  - now split.
  - injection Heq as -> Heq. injection Hlen as Hlen.
    destruct (IH a' Hlen Heq) as [-> ->]. now split.
Qed.

Lemma take_append (n : nat) (a b : string) :
  String.length a = n -> take n (a ++ b) = a.
Proof.
  revert n. induction a as [|x a IH]; intros [|n] Hlen; simpl in *;
    try discriminate.
  - now destruct b.
  - injection Hlen as Hlen. now rewrite IH.
Qed.

Lemma leb_cons (a b : ascii) (s t : string) :
  (String a s <=? String b t) =
  match Ascii.compare a b with
  | Eq => (s <=? t)
  | Lt => true
  | Gt => false
  end.
Proof. unfold String.leb. simpl. now destruct (Ascii.compare a b). Qed.

Lemma leb_refl (s : string) : (s <=? s) = true.
Proof.
  induction s as [|a s IH]; [reflexivity|].
  rewrite leb_cons. unfold Ascii.compare. now rewrite N.compare_refl.
Qed.

Lemma leb_trans (s t u : string) :
  (s <=? t) = true -> (t <=? u) = true -> (s <=? u) = true.
Proof.
  revert t u. induction s as [|a s IH]; intros [|b t] [|c u]; try easy.
  rewrite !leb_cons. unfold Ascii.compare.
  destruct (N.compare_spec (N_of_ascii a) (N_of_ascii b)) as [Hab|Hab|Hab];
    destruct (N.compare_spec (N_of_ascii b) (N_of_ascii c)) as [Hbc|Hbc|Hbc];
    destruct (N.compare_spec (N_of_ascii a) (N_of_ascii c)) as [Hac|Hac|Hac];
    try easy; try lia.
  apply IH.
Qed.

Lemma leb_false_flip (s t : string) : (s <=? t) = false -> (t <=? s) = true.
Proof.
  intros H. destruct (String.leb_total s t) as [H'|H']; [congruence | exact H'].
Qed.

(** Cutting both strings at the same length keeps their order. *)
Lemma take_leb (n : nat) (s t : string) :
  (s <=? t) = true -> (take n s <=? take n t) = true.
Proof.
  revert s t. induction n as [|n IH]; intros [|a s] [|b t] H; try easy.
  simpl. rewrite leb_cons in *.
  destruct (Ascii.compare a b); try easy. now apply IH.
Qed.

(** ** Sorting *)

Lemma insert_sorted_perm (x : string) (l : list string) :
  Permutation (x :: l) (insert_sorted x l).
Proof.
  induction l as [|y l IH]; simpl; [reflexivity|].
  destruct (x <=? y); [reflexivity|].
  rewrite perm_swap. now apply perm_skip.
Qed.

Lemma sorted_perm (l : list string) : Permutation l (sorted l).
Proof.
  induction l as [|x l IH]; simpl; [constructor|].
  rewrite <- insert_sorted_perm. now apply perm_skip.
Qed.

Lemma insert_sorted_ascending (x : string) (l : list string) :
  ascending l -> ascending (insert_sorted x l).
Proof.
  unfold ascending. induction l as [|y l IH]; intros Hs; simpl.
  - repeat constructor.
  - apply StronglySorted_inv in Hs as [Hs Hall].
    destruct (x <=? y) eqn:Hxy.
    + constructor; [now constructor|].
      constructor; [exact Hxy|].
      rewrite Forall_forall in *. intros z Hz.
      eapply leb_trans; [exact Hxy | now apply Hall].
    + constructor; [now apply IH|].
      rewrite Forall_forall in *. intros z Hz.
      apply (Permutation_in _ (Permutation_sym (insert_sorted_perm x l))) in Hz.
      destruct Hz as [<-|Hz]; [now apply leb_false_flip | now apply Hall].
Qed.

Lemma sorted_ascending (l : list string) : ascending (sorted l).
Proof.
  induction l as [|x l IH]; simpl; [constructor|].
  now apply insert_sorted_ascending.
Qed.

Lemma sorted_in (l : list string) (d : string) : In d (sorted l) <-> In d l.
Proof.
  split; apply Permutation_in;
    [apply Permutation_sym|]; apply sorted_perm.
Qed.

(** ** Computations *)

Lemma outcome_bind {A B : Type} (c : io A) (k : A -> io B) :
  outcome (bind c k) =
  match outcome c with
  | Ok a => outcome (k a)
  | Raise e => Raise e
  end.
Proof.
  destruct c as [t [a|e]]; simpl; [|reflexivity].
  now destruct (k a).
Qed.

Lemma events_bind {A B : Type} (c : io A) (k : A -> io B) :
  events (bind c k) =
  (events c ++ match outcome c with
               | Ok a => events (k a)
               | Raise _ => []
               end)%list.
Proof.
  destruct c as [t [a|e]]; simpl; [|now rewrite app_nil_r].
  now destruct (k a).
Qed.

Lemma io_eta {A : Type} (c : io A) : c = (events c, outcome c).
Proof. now destruct c. Qed.

Lemma bind_ret {A B : Type} (a : A) (k : A -> io B) : bind (ret a) k = k a.
Proof. unfold bind, ret. now destruct (k a). Qed.

Lemma bind_ok {A B : Type} (t : trace) (a : A) (k : A -> io B) :
  bind (t, Ok a) k = ((t ++ events (k a))%list, outcome (k a)).
Proof. unfold bind. now destruct (k a). Qed.

Lemma events_forall_bind {A B : Type} (P : event -> Prop) (c : io A)
  (k : A -> io B) :
  Forall P (events c) -> (forall a, Forall P (events (k a))) ->
  Forall P (events (bind c k)).
Proof.
  intros Hc Hk. rewrite events_bind. apply Forall_app. split; [exact Hc|].
  destruct (outcome c); [apply Hk | constructor].
Qed.

(** ** Reading a listing *)

Lemma isspace_slash : isspace "/" = false.
Proof. reflexivity. Qed.

Lemma eqb_isspace_conflict (x c : ascii) :
  isspace x = true -> isspace c = false -> Ascii.eqb x c = false.
Proof.
  intros Hx Hc. destruct (Ascii.eqb_spec x c) as [->|]; congruence.
Qed.

Lemma lstrip_keeps (p : ascii -> bool) (c : ascii) (s : string) :
  p c = false -> char_in c (lstrip_by p s) = char_in c s.
Proof.
  intros Hc. induction s as [|x s IH]; simpl; [reflexivity|].
  destruct (p x) eqn:Hx; [|reflexivity].
  rewrite IH. destruct (Ascii.eqb_spec x c) as [->|]; [congruence | reflexivity].
Qed.

Lemma rstrip_keeps (p : ascii -> bool) (c : ascii) (s : string) :
  p c = false -> char_in c (rstrip_by p s) = char_in c s.
Proof.
  intros Hc. induction s as [|x s IH]; simpl; [reflexivity|].
  destruct (p x && is_empty (rstrip_by p s)) eqn:Hx; simpl.
  - apply andb_true_iff in Hx as [Hx He].
    destruct (rstrip_by p s); [|discriminate]. simpl in IH. rewrite <- IH.
    destruct (Ascii.eqb_spec x c) as [->|]; [congruence | reflexivity].
  - now rewrite IH.
Qed.

Lemma strip_keeps_slash (line : string) :
  char_in "/" (strip line) = char_in "/" line.
Proof.
  unfold strip. rewrite rstrip_keeps, lstrip_keeps; auto using isspace_slash.
Qed.

Lemma split_ws_from_open (cur s : string) :
  is_empty cur = false -> split_ws_from cur s <> [].
Proof.
  revert cur. induction s as [|x s IH]; intros cur Hcur; simpl.
  - now rewrite Hcur.
  - destruct (isspace x); [now rewrite Hcur|].
    apply IH. now destruct cur.
Qed.

Lemma split_ws_from_word (c : ascii) (cur s : string) :
  isspace c = false -> char_in c s = true -> split_ws_from cur s <> [].
Proof.
  intros Hc. revert cur. induction s as [|x s IH]; intros cur Hin; simpl in *;
    [discriminate|].
  destruct (isspace x) eqn:Hx.
  - rewrite (eqb_isspace_conflict x c Hx Hc) in Hin. simpl in Hin.
    destruct (is_empty cur); [now apply IH | discriminate].
  - apply split_ws_from_open. now destruct cur.
Qed.

Lemma last_item_ok {A : Type} (l : list A) :
  l <> [] -> exists x, last_item l = Ok x.
Proof.
  induction l as [|x l IH]; [congruence|]. intros _.
  destruct l as [|y l]; [now exists x|].
  simpl. apply IH. discriminate.
Qed.

(** On a line with a slash, [split()] has a last word: the
    comprehension raises no [IndexError]. *)
Lemma entry_token_ok (line : string) :
  char_in "/" line = true ->
  exists tok, last_item (split_ws (strip line)) = Ok tok.
Proof.
  intros H. apply last_item_ok. unfold split_ws.
  apply (split_ws_from_word "/"); [reflexivity|].
  now rewrite strip_keeps_slash.
Qed.

Lemma entry_keys_spec (lines : list string) :
  entry_keys lines = ret (keys_of lines).
Proof.
  induction lines as [|line lines IH]; [reflexivity|].
  unfold keys_of in *. simpl.
  destruct (char_in "/" line) eqn:Hs; [|exact IH].
  simpl. unfold key_of.
  destruct (entry_token_ok line Hs) as [tok ->].
  unfold lift. rewrite IH. reflexivity.
Qed.

Lemma list_s3_spec (run : list string -> CompletedProcess) (prefix : string) :
  list_s3 run prefix = ([Run (ls_cmd prefix)], Ok (listing run prefix)).
Proof. reflexivity. Qed.

(** ** The three loops of discovery *)

Lemma for_days_spec (y m s e : string) (days dates : list string) :
  for_days y m s e days dates
  = (dates ++ filter (in_range s e) (map (date_str y m) days))%list.
Proof.
  revert dates. induction days as [|d days IH]; intros dates;
    cbn [for_days map filter].
  - now rewrite app_nil_r.
  - rewrite IH.
    change (y ++ "-" ++ m ++ "-" ++ d) with (date_str y m d).
    change ((s <=? date_str y m d) && (date_str y m d <=? e))
      with (in_range s e (date_str y m d)).
    destruct (in_range s e (date_str y m d));
      [now rewrite <- app_assoc | reflexivity].
Qed.

Section Discovery.

Variable run : list string -> CompletedProcess.

Lemma for_months_spec (yp y s e : string) (months dates : list string) :
  exists t,
    for_months run yp y s e months dates
    = (t, Ok (dates ++
              flat_map (fun m => if month_kept s e y m
                                 then days_found run yp y s e m else [])
                       months)%list)
    /\ only_listings t.
Proof.
  revert dates. induction months as [|m months IH]; intros dates;
    cbn [for_months flat_map].
  - exists []. rewrite app_nil_r. split; [reflexivity | constructor].
  - fold (month_kept s e y m). destruct (month_kept s e y m); cbn [negb app].
    + rewrite list_s3_spec, bind_ok, entry_keys_spec, bind_ret.
      destruct (IH (for_days y m s e (keys_of (listing run (yp ++ m ++ "/")))
                      dates)) as (t & -> & Ht).
      simpl. eexists. split.
      * rewrite for_days_spec, <- app_assoc. reflexivity.
      * constructor; [now eexists | exact Ht].
    + apply IH.
Qed.

Lemma for_years_spec (prefix s e : string) (years dates : list string) :
  exists t,
    for_years run prefix s e years dates
    = (t, Ok (dates ++
              flat_map (fun y => if year_kept s e y
                                 then months_found run prefix s e y else [])
                       years)%list)
    /\ only_listings t.
Proof.
  revert dates. induction years as [|y years IH]; intros dates;
    cbn [for_years flat_map].
  - exists []. rewrite app_nil_r. split; [reflexivity | constructor].
  - fold (year_kept s e y). destruct (year_kept s e y); cbn [negb app].
    + rewrite list_s3_spec, bind_ok, entry_keys_spec, bind_ret.
      destruct (for_months_spec (prefix ++ y ++ "/") y s e
                  (keys_of (listing run (prefix ++ y ++ "/"))) dates)
        as (tm & -> & Htm).
      rewrite bind_ok.
      destruct (IH (dates ++ months_found run prefix s e y)%list)
        as (t & Heq & Ht).
      unfold months_found, children in Heq |- *. rewrite Heq. simpl.
      eexists. split.
      * rewrite <- app_assoc. reflexivity.
      * constructor; [now eexists|]. apply Forall_app. now split.
    + apply IH.
Qed.

(** Discovery raises nothing of its own: it returns the dates the loops
    found, sorted. *)
Lemma list_available_dates_spec (path row base s e : string) :
  exists t,
    list_available_dates run path row base s e
    = (t, Ok (sorted (years_found run (tile_prefix path row base) s e)))
    /\ only_listings t.
Proof.
  unfold list_available_dates.
  rewrite list_s3_spec, bind_ok, entry_keys_spec, bind_ret.
  destruct (for_years_spec (tile_prefix path row base) s e
              (keys_of (listing run (tile_prefix path row base))) [])
    as (t & -> & Ht).
  rewrite bind_ok. simpl. eexists. split; [reflexivity|].
  constructor; [now eexists|]. now rewrite app_nil_r.
Qed.

Lemma in_days_found (yp y s e m d : string) :
  In d (days_found run yp y s e m) <->
  exists day, In day (children run (yp ++ m ++ "/"))
              /\ d = date_str y m day /\ in_range s e d = true.
Proof.
  unfold days_found. rewrite filter_In, in_map_iff. split.
  - intros [(day & <- & Hday) Hr]. now exists day.
  - intros (day & Hday & -> & Hr). split; [now exists day | exact Hr].
Qed.

Lemma in_months_found (prefix s e y d : string) :
  In d (months_found run prefix s e y) <->
  exists m day,
    In m (children run (prefix ++ y ++ "/")) /\ month_kept s e y m = true /\
    In day (children run ((prefix ++ y ++ "/") ++ m ++ "/")) /\
    d = date_str y m day /\ in_range s e d = true.
Proof.
  unfold months_found. rewrite in_flat_map. split.
  - intros (m & Hm & Hd). destruct (month_kept s e y m) eqn:Hk; [|easy].
    apply in_days_found in Hd as (day & Hday & -> & Hr).
    now exists m, day.
  - intros (m & day & Hm & Hk & Hday & -> & Hr). exists m. split; [exact Hm|].
    rewrite Hk. apply in_days_found. now exists day.
Qed.

Lemma in_years_found (prefix s e d : string) :
  In d (years_found run prefix s e) <->
  exists y m day,
    In y (children run prefix) /\ year_kept s e y = true /\
    In m (children run (prefix ++ y ++ "/")) /\ month_kept s e y m = true /\
    In day (children run ((prefix ++ y ++ "/") ++ m ++ "/")) /\
    d = date_str y m day /\ in_range s e d = true.
Proof.
  unfold years_found. rewrite in_flat_map. split.
  - intros (y & Hy & Hd). destruct (year_kept s e y) eqn:Hk; [|easy].
    apply in_months_found in Hd as (m & day & Hd).
    now exists y, m, day.
  - intros (y & m & day & Hy & Hk & Hd). exists y. split; [exact Hy|].
    rewrite Hk. apply in_months_found. now exists m, day.
Qed.

End Discovery.

(** ** Discovery on a tree of dates *)

Lemma NoDup_map_on {A B : Type} (f : A -> B) (l : list A) :
  (forall x y, In x l -> In y l -> f x = f y -> x = y) ->
  NoDup l -> NoDup (map f l).
Proof.
  intros Hinj Hl. induction Hl as [|x l Hx Hl IH]; simpl; constructor.
  - rewrite in_map_iff. intros (y & Heq & Hy).
    apply Hx. rewrite (Hinj x y); auto using in_eq, in_cons.
  - apply IH. intros a b Ha Hb. apply Hinj; now right.
Qed.

Lemma NoDup_flat_map {A B : Type} (f : A -> list B) (l : list A) :
  NoDup l ->
  (forall x, In x l -> NoDup (f x)) ->
  (forall x x' z, In x l -> In x' l -> In z (f x) -> In z (f x') -> x = x') ->
  NoDup (flat_map f l).
Proof.
  intros Hl. induction Hl as [|x l Hx Hl IH]; intros Hf Hsep; simpl;
    [constructor|].
  apply NoDup_app.
  - apply Hf, in_eq.
  - apply IH.
    + intros y Hy. apply Hf. now right.
    + intros y y' z Hy Hy'. apply Hsep; now right.
  - intros z Hz Hz'. apply in_flat_map in Hz' as (y & Hy & Hzy).
    apply Hx. rewrite (Hsep x y z); auto using in_eq, in_cons.
Qed.

Lemma month_prefix_assoc (root y m : string) :
  (root ++ y ++ "/") ++ m ++ "/" = root ++ y ++ "/" ++ m ++ "/".
Proof. now rewrite !append_assoc. Qed.

Lemma date_str_day_inj (y m d d' : string) :
  date_str y m d = date_str y m d' -> d = d'.
Proof.
  unfold date_str. intros H.
  apply append_inj_same_length in H as [_ H]; [|reflexivity].
  injection H as H.
  apply append_inj_same_length in H as [_ H]; [|reflexivity].
  now injection H.
Qed.

Lemma date_str_month_inj (y m m' d d' : string) :
  String.length m = String.length m' ->
  date_str y m d = date_str y m' d' -> m = m'.
Proof.
  unfold date_str. intros Hlen H.
  apply append_inj_same_length in H as [_ H]; [|reflexivity].
  injection H as H.
  now apply append_inj_same_length in H as [H _].
Qed.

Lemma date_str_year_inj (y y' m m' d d' : string) :
  String.length y = String.length y' ->
  date_str y m d = date_str y' m' d' -> y = y'.
Proof.
  unfold date_str. intros Hlen H.
  now apply append_inj_same_length in H as [H _].
Qed.

Lemma take_year (y m d : string) :
  String.length y = 4 -> take 4 (date_str y m d) = y.
Proof. intros H. unfold date_str. now apply take_append. Qed.

Lemma take_month (y m d : string) :
  String.length y = 4 -> String.length m = 2 ->
  take 7 (date_str y m d) = y ++ "-" ++ m.
Proof.
  intros Hy Hm. unfold date_str.
  replace (y ++ "-" ++ m ++ "-" ++ d) with ((y ++ "-" ++ m) ++ "-" ++ d)
    by now rewrite !append_assoc.
  apply take_append. rewrite !length_append, Hy, Hm. reflexivity.
Qed.

Lemma in_range_year_kept (s e y m d : string) :
  String.length y = 4 ->
  in_range s e (date_str y m d) = true -> year_kept s e y = true.
Proof.
  unfold in_range, year_kept. intros Hy [Hs He]%andb_true_iff.
  apply (take_leb 4) in Hs, He. rewrite take_year in Hs, He by exact Hy.
  now rewrite Hs, He.
Qed.

Lemma in_range_month_kept (s e y m d : string) :
  String.length y = 4 -> String.length m = 2 ->
  in_range s e (date_str y m d) = true -> month_kept s e y m = true.
Proof.
  unfold in_range, month_kept. intros Hy Hm [Hs He]%andb_true_iff.
  apply (take_leb 7) in Hs, He. rewrite take_month in Hs, He by assumption.
  now rewrite Hs, He.
Qed.

Section DatedTree.

Variable run : list string -> CompletedProcess.
Variable root : string.

(** What the loops find is always present and in range. *)
Lemma years_found_sound (s e d : string) :
  In d (years_found run root s e) ->
  present run root d /\ in_range s e d = true.
Proof.
  intros (y & m & day & Hy & _ & Hm & _ & Hday & -> & Hr)%in_years_found.
  rewrite month_prefix_assoc in Hday.
  split; [now exists y, m, day | exact Hr].
Qed.

Hypothesis tree : dated_tree run root.

Lemma years_found_complete (s e d : string) :
  present run root d -> in_range s e d = true ->
  In d (years_found run root s e).
Proof.
  intros (y & m & day & Hy & Hm & Hday & ->) Hr.
  destruct tree as [_ Htree].
  destruct (Htree y Hy) as (Hly & _ & Hmonths).
  destruct (Hmonths m Hm) as (Hlm & _).
  apply in_years_found. exists y, m, day.
  rewrite month_prefix_assoc.
  repeat split; eauto using in_range_year_kept, in_range_month_kept.
Qed.

Lemma days_found_nodup (s e y m : string) :
  In y (children run root) -> In m (children run (root ++ y ++ "/")) ->
  NoDup (days_found run (root ++ y ++ "/") y s e m).
Proof.
  intros Hy Hm. destruct tree as [_ Htree].
  destruct (Htree y Hy) as (_ & _ & Hmonths).
  destruct (Hmonths m Hm) as (_ & Hnd).
  unfold days_found. apply NoDup_filter, NoDup_map_on.
  - intros a b _ _. apply date_str_day_inj.
  - now rewrite month_prefix_assoc.
Qed.

Lemma months_found_nodup (s e y : string) :
  In y (children run root) -> NoDup (months_found run root s e y).
Proof.
  intros Hy. destruct tree as [_ Htree].
  destruct (Htree y Hy) as (_ & Hnd & Hmonths).
  unfold months_found. apply NoDup_flat_map; [exact Hnd | |].
  - intros m Hm. destruct (month_kept s e y m); [|constructor].
    now apply days_found_nodup.
  - intros m m' z Hm Hm' Hz Hz'.
    destruct (month_kept s e y m); [|easy].
    destruct (month_kept s e y m'); [|easy].
    apply in_days_found in Hz as (d & _ & -> & _).
    apply in_days_found in Hz' as (d' & _ & Heq & _).
    apply date_str_month_inj in Heq; [exact Heq|].
    destruct (Hmonths m Hm) as [-> _]. now destruct (Hmonths m' Hm') as [-> _].
Qed.

Lemma years_found_nodup (s e : string) : NoDup (years_found run root s e).
Proof.
  destruct tree as [Hnd Htree].
  unfold years_found. apply NoDup_flat_map; [exact Hnd | |].
  - intros y Hy. destruct (year_kept s e y); [|constructor].
    now apply months_found_nodup.
  - intros y y' z Hy Hy' Hz Hz'.
    destruct (year_kept s e y); [|easy].
    destruct (year_kept s e y'); [|easy].
    apply in_months_found in Hz as (m & d & _ & _ & _ & -> & _).
    apply in_months_found in Hz' as (m' & d' & _ & _ & _ & Heq & _).
    apply date_str_year_inj in Heq; [exact Heq|].
    destruct (Htree y Hy) as [-> _]. now destruct (Htree y' Hy') as [-> _].
Qed.

End DatedTree.

(** ** Date discovery returns the dates of the tree *)

(** C1, as amended.  When the listings under the tile's root read as a
    tree of dates (the keys of one listing differ from each other, year
    keys have four characters and month keys two), discovery returns,
    for every range, exactly the dates present under the root and in
    range, ascending and each once; and when no date present is in
    range it returns the empty list, not an error. *)
Theorem C1_discovery_exact_on_dated_tree
  (run : list string -> CompletedProcess) (path row base s e : string) :
  dated_tree run (tile_prefix path row base) ->
  discovery_exact run path row base s e /\
  ((forall d, present run (tile_prefix path row base) d ->
              in_range s e d = false) ->
   outcome (list_available_dates run path row base s e) = Ok []).
Proof.
  intros tree.
  destruct (list_available_dates_spec run path row base s e) as (t & Heq & _).
  unfold discovery_exact. rewrite Heq. unfold outcome, snd. split.
  - eexists. split; [reflexivity|]. split; [|split].
    + intros d. rewrite sorted_in. split.
      * apply years_found_sound.
      * intros [Hp Hr]. now apply years_found_complete.
    + apply sorted_ascending.
    + eapply Permutation_NoDup; [apply sorted_perm|].
      now apply years_found_nodup.
  - intros Hnone.
    destruct (years_found run (tile_prefix path row base) s e) as [|d l] eqn:Hl;
      [reflexivity|].
    assert (Hd : In d (years_found run (tile_prefix path row base) s e))
      by (rewrite Hl; apply in_eq).
    apply years_found_sound in Hd as [Hp Hr].
    rewrite (Hnone d Hp) in Hr. discriminate.
Qed.

Lemma january_dated_tree : dated_tree january_run (tile_prefix "7" "80" bucket).
Proof.
  split.
  - vm_compute. repeat constructor. intros [].
  - intros y Hy. vm_compute in Hy. destruct Hy as [<-|[]].
    split; [reflexivity|]. split.
    + vm_compute. repeat constructor. intros [].
    + intros m Hm. vm_compute in Hm. destruct Hm as [<-|[]].
      split; [reflexivity|]. vm_compute. repeat constructor.
      * intros [H|[]]. discriminate H.
      * intros [].
Defined.

Lemma C1_discovery_exact_witness :
  dated_tree january_run (tile_prefix "7" "80" bucket) /\
  discovery_exact january_run "7" "80" bucket "2025-01-01" "2025-01-03" /\
  ((forall d, present january_run (tile_prefix "7" "80" bucket) d ->
              in_range "2025-01-01" "2025-01-03" d = false) ->
   outcome (list_available_dates january_run "7" "80" bucket
              "2025-01-01" "2025-01-03") = Ok []).
Proof.
  split; [exact january_dated_tree|].
  apply (C1_discovery_exact_on_dated_tree january_run "7" "80" bucket
           "2025-01-01" "2025-01-03" january_dated_tree).
Defined.

(** C1 as stated fails: under 2025 the store holds the prefixes [01/]
    and [x 01/]; both lines give the key [01], the month is listed
    twice and 2 January is returned twice. *)
Lemma C1_counterexample_duplicate_date :
  outcome (list_available_dates twin_run "7" "80" bucket
             "2025-01-01" "2025-01-31")
  = Ok ["2025-01-02"; "2025-01-02"]
  /\ ~ discovery_exact twin_run "7" "80" bucket "2025-01-01" "2025-01-31".
Proof.
  split; [reflexivity|].
  intros (dates & Hout & _ & _ & Hnd).
  vm_compute in Hout. injection Hout as <-.
  apply NoDup_cons_iff in Hnd as [Hnd _]. apply Hnd. now left.
Qed.

(** ** Building the command *)

Lemma split_from_plain (sep : ascii) (cur a : string) :
  char_in sep a = false -> split_from sep cur a = [cur ++ a].
Proof.
  revert cur. induction a as [|x a IH]; intros cur H; simpl in *.
  - now rewrite append_empty_r.
  - apply orb_false_iff in H as [Hx Ha]. rewrite Hx, IH by exact Ha.
    now rewrite append_assoc.
Qed.

Lemma split_from_sep (sep : ascii) (cur a b : string) :
  char_in sep a = false ->
  split_from sep cur (a ++ String sep b)
  = (cur ++ a) :: split_from sep EmptyString b.
Proof.
  revert cur. induction a as [|x a IH]; intros cur H; simpl in *.
  - now rewrite Ascii.eqb_refl, append_empty_r.
  - apply orb_false_iff in H as [Hx Ha]. rewrite Hx, IH by exact Ha.
    now rewrite append_assoc.
Qed.

Lemma split_date_str (y m d : string) :
  no_dash y -> no_dash m -> no_dash d ->
  split "-" (date_str y m d) = [y; m; d].
Proof.
  unfold no_dash, split, date_str. intros Hy Hm Hd.
  change (y ++ "-" ++ m ++ "-" ++ d) with (y ++ String "-" (m ++ String "-" d)).
  rewrite split_from_sep by exact Hy.
  rewrite split_from_sep by exact Hm.
  now rewrite split_from_plain by exact Hd.
Qed.

Lemma build_s3_cmd_spec (path row y m d base out : string) :
  no_dash y -> no_dash m -> no_dash d ->
  build_s3_cmd path row (date_str y m d) base out
  = ret (["aws"; "s3"; "cp";
          base ++ "/" ++ zfill 3 path ++ "/" ++ zfill 3 row ++ "/" ++ y ++ "/"
          ++ m ++ "/" ++ d ++ "/";
          path_join out [path; row; y; m; d];
          "--recursive"; "--no-sign-request"],
         base ++ "/" ++ zfill 3 path ++ "/" ++ zfill 3 row ++ "/" ++ y ++ "/"
         ++ m ++ "/" ++ d ++ "/").
Proof.
  intros Hy Hm Hd. unfold build_s3_cmd. now rewrite split_date_str.
Qed.

Lemma component_no_leading_sep (b : string) :
  component b -> starts_with_sep b = false.
Proof.
  intros [_ H]. destruct b as [|x b]; [reflexivity|].
  unfold no_slash in H. simpl in *. now apply orb_false_iff in H as [H _].
Qed.

Lemma ends_with_sep_append (a b : string) :
  is_empty b = false -> ends_with_sep (a ++ b) = ends_with_sep b.
Proof.
  intros Hb. induction a as [|x a IH]; [reflexivity|].
  simpl. rewrite IH. destruct (a ++ b) eqn:Hab; [|reflexivity].
  destruct a, b; discriminate.
Qed.

Lemma no_slash_no_trailing_sep (b : string) :
  no_slash b -> ends_with_sep b = false.
Proof.
  unfold no_slash. induction b as [|x b IH]; intros H; [reflexivity|].
  simpl in *. apply orb_false_iff in H as [Hx Hb].
  destruct b; [exact Hx | now apply IH].
Qed.

Lemma path_join_component (path b : string) (rest : list string) :
  is_empty path = false -> ends_with_sep path = false -> component b ->
  path_join path (b :: rest) = path_join (path ++ "/" ++ b) rest
  /\ is_empty (path ++ "/" ++ b) = false
  /\ ends_with_sep (path ++ "/" ++ b) = false.
Proof.
  intros He Hs Hb. simpl.
  rewrite (component_no_leading_sep b Hb), He, Hs. simpl.
  split; [reflexivity|]. split.
  - now destruct path.
  - destruct Hb as [Hne Hns].
    change (String "/" b) with ("/" ++ b). rewrite <- append_assoc.
    rewrite ends_with_sep_append by exact Hne.
    now apply no_slash_no_trailing_sep.
Qed.

Lemma path_join_components (out p r y m d : string) :
  is_empty out = false -> ends_with_sep out = false ->
  component p -> component r -> component y -> component m -> component d ->
  path_join out [p; r; y; m; d]
  = out ++ "/" ++ p ++ "/" ++ r ++ "/" ++ y ++ "/" ++ m ++ "/" ++ d.
Proof.
  intros He Hs Hp Hr Hy Hm Hd.
  destruct (path_join_component out p [r; y; m; d] He Hs Hp) as (-> & He1 & Hs1).
  destruct (path_join_component _ r [y; m; d] He1 Hs1 Hr) as (-> & He2 & Hs2).
  destruct (path_join_component _ y [m; d] He2 Hs2 Hy) as (-> & He3 & Hs3).
  destruct (path_join_component _ m [d] He3 Hs3 Hm) as (-> & He4 & Hs4).
  destruct (path_join_component _ d [] He4 Hs4 Hd) as (-> & _).
  simpl. now rewrite !append_assoc.
Qed.

Lemma component_split (a a' b b' : string) :
  no_slash a -> no_slash a' ->
  a ++ "/" ++ b = a' ++ "/" ++ b' -> a = a' /\ b = b'.
Proof.
  unfold no_slash. revert a'.
  induction a as [|x a IH]; intros [|x' a'] Ha Ha' H; simpl in *.
  - injection H as ->. now split.
  - injection H as <- _. now rewrite Ascii.eqb_refl in Ha'.
  - injection H as -> _. now rewrite Ascii.eqb_refl in Ha.
  - injection H as -> H.
    apply orb_false_iff in Ha as [_ Ha]. apply orb_false_iff in Ha' as [_ Ha'].
    destruct (IH a' Ha Ha' H) as [-> ->]. now split.
Qed.

Lemma zfill_long (s : string) : 3 <= String.length s -> zfill 3 s = s.
Proof.
  intros H. unfold zfill. now apply Nat.leb_le in H as ->.
Qed.

Lemma all_digits_no_sign (c : ascii) :
  is_digit c = true -> Ascii.eqb c "+" || Ascii.eqb c "-" = false.
Proof.
  intros H. destruct (Ascii.eqb_spec c "+") as [->|]; [discriminate|].
  destruct (Ascii.eqb_spec c "-") as [->|]; [discriminate | reflexivity].
Qed.

Lemma all_digits_append (a b : string) :
  all_digits (a ++ b) = all_digits a && all_digits b.
Proof.
  induction a as [|x a IH]; simpl; [reflexivity|].
  now rewrite IH, andb_assoc.
Qed.

Lemma all_digits_zeros (n : nat) : all_digits (zeros n) = true.
Proof. induction n as [|n IH]; [reflexivity | exact IH]. Qed.

Lemma length_zeros (n : nat) : String.length (zeros n) = n.
Proof. induction n as [|n IH]; simpl; [reflexivity | now rewrite IH]. Qed.

(** Up to three digits are padded with zeros to exactly three. *)
Lemma zfill_digits (s : string) :
  all_digits s = true -> String.length s <= 3 ->
  zfill 3 s = zeros (3 - String.length s) ++ s
  /\ String.length (zfill 3 s) = 3
  /\ all_digits (zfill 3 s) = true.
Proof.
  intros Hd Hl.
  assert (Hz : zfill 3 s = zeros (3 - String.length s) ++ s).
  { unfold zfill. destruct (3 <=? String.length s)%nat eqn:Hle.
    - apply Nat.leb_le in Hle. now replace (3 - String.length s) with 0 by lia.
    - destruct s as [|c s]; [now rewrite append_empty_r|].
      simpl in Hd. apply andb_true_iff in Hd as [Hc _].
      now rewrite (all_digits_no_sign c Hc). }
  rewrite Hz. split; [reflexivity|]. split.
  - rewrite length_append, length_zeros. lia.
  - now rewrite all_digits_append, all_digits_zeros.
Qed.

(** ** The destination and the source of a task *)

Lemma destination_spec (out base path row y m d : string) :
  is_empty out = false -> ends_with_sep out = false ->
  component path -> component row -> component y -> component m -> component d ->
  no_dash y -> no_dash m -> no_dash d ->
  forall t,
    build_s3_cmd path row (date_str y m d) base out = ret t ->
    local_destination t
    = out ++ "/" ++ path ++ "/" ++ row ++ "/" ++ y ++ "/" ++ m ++ "/" ++ d.
Proof.
  intros He Hs Hp Hr Hy Hm Hd Dy Dm Dd t Ht.
  rewrite build_s3_cmd_spec in Ht by assumption.
  injection Ht as <-. unfold local_destination. cbn [fst nth].
  now apply path_join_components.
Qed.

(** C2, as amended.  For a tile and a date whose path, row, year, month
    and day are not empty and hold no slash (and the date fields no
    dash), under an output root that is not empty and does not end with
    a slash, the destination is [output_root/path/row/year/month/day]
    with [path] and [row] as the caller gave them; it is the padded
    destination when [path] and [row] have three characters or more;
    and two such tasks with the same destination have the same path,
    row and date. *)
Theorem C2_destination_from_given_path_row
  (out base path row y m d : string) :
  is_empty out = false -> ends_with_sep out = false ->
  component path -> component row -> component y -> component m -> component d ->
  no_dash y -> no_dash m -> no_dash d ->
  exists t,
    build_s3_cmd path row (date_str y m d) base out = ret t /\
    local_destination t
    = out ++ "/" ++ path ++ "/" ++ row ++ "/" ++ y ++ "/" ++ m ++ "/" ++ d /\
    (3 <= String.length path -> 3 <= String.length row ->
     local_destination t = padded_destination out path row y m d) /\
    forall path' row' y' m' d' t',
      component path' -> component row' ->
      component y' -> component m' -> component d' ->
      no_dash y' -> no_dash m' -> no_dash d' ->
      build_s3_cmd path' row' (date_str y' m' d') base out = ret t' ->
      local_destination t' = local_destination t ->
      path' = path /\ row' = row /\ y' = y /\ m' = m /\ d' = d.
Proof.
  intros He Hs Hp Hr Hy Hm Hd Dy Dm Dd.
  eexists. split; [now apply build_s3_cmd_spec|].
  assert (Hdest := destination_spec out base path row y m d He Hs Hp Hr Hy Hm Hd
                     Dy Dm Dd _
                     (build_s3_cmd_spec path row y m d base out Dy Dm Dd)).
  split; [exact Hdest|]. split.
  - intros Lp Lr. rewrite Hdest. unfold padded_destination.
    now rewrite !zfill_long by assumption.
  - intros path' row' y' m' d' t' Hp' Hr' Hy' Hm' Hd' Dy' Dm' Dd' Ht' Heq.
    rewrite Hdest in Heq.
    rewrite (destination_spec out base path' row' y' m' d' He Hs Hp' Hr' Hy' Hm'
               Hd' Dy' Dm' Dd' t' Ht') in Heq.
    apply append_inj_same_length in Heq as [_ Heq]; [|reflexivity].
    injection Heq as Heq.
    apply component_split in Heq as [-> Heq]; [|apply Hp'|apply Hp].
    apply component_split in Heq as [-> Heq]; [|apply Hr'|apply Hr].
    apply component_split in Heq as [-> Heq]; [|apply Hy'|apply Hy].
    apply component_split in Heq as [-> ->]; [|apply Hm'|apply Hm].
    repeat split.
Qed.

Lemma C2_destination_witness :
  exists t,
    build_s3_cmd "7" "80" (date_str "2025" "01" "01") bucket "./dea_data" = ret t /\
    local_destination t = "./dea_data/7/80/2025/01/01" /\
    (3 <= String.length "7" -> 3 <= String.length "80" ->
     local_destination t
     = padded_destination "./dea_data" "7" "80" "2025" "01" "01") /\
    forall path' row' y' m' d' t',
      component path' -> component row' ->
      component y' -> component m' -> component d' ->
      no_dash y' -> no_dash m' -> no_dash d' ->
      build_s3_cmd path' row' (date_str y' m' d') bucket "./dea_data" = ret t' ->
      local_destination t' = local_destination t ->
      path' = "7" /\ row' = "80" /\ y' = "2025" /\ m' = "01" /\ d' = "01".
Proof.
  apply (C2_destination_from_given_path_row "./dea_data" bucket "7" "80"
           "2025" "01" "01"); try reflexivity; split; reflexivity.
Defined.

(** C2 as stated fails on the tile and the dates of the specification's
    own example: the destinations are built from [path] and [row] as
    given, [7] and [80], not from their padded forms. *)
Lemma C2_counterexample_unpadded_destination :
  exists t tasks,
    build_tasks january_run ["7"] ["80"] "2025-01-01" "2025-01-03" bucket
      "./dea_data" = (t, Ok tasks) /\
    map local_destination tasks
    = ["./dea_data/7/80/2025/01/01"; "./dea_data/7/80/2025/01/03"] /\
    map local_destination tasks
    <> [padded_destination "./dea_data" "7" "80" "2025" "01" "01";
        padded_destination "./dea_data" "7" "80" "2025" "01" "03"].
Proof.
  eexists. eexists. split; [vm_compute; reflexivity|].
  split; [reflexivity | discriminate].
Qed.

(** C8.  For a tile and a date of three fields, the task's source
    prefix is [base_url/path/row/year/month/day/] with [path] and [row]
    passed through [zfill(3)], it is the source argument of a recursive
    [aws s3 cp], and [zfill(3)] pads a [path] or [row] of up to three
    digits with zeros to exactly three digits. *)
Theorem C8_remote_prefix_padded_recursive
  (path row y m d base out : string) :
  no_dash y -> no_dash m -> no_dash d ->
  exists cmd s3_path,
    build_s3_cmd path row (date_str y m d) base out = ret (cmd, s3_path) /\
    s3_path = base ++ "/" ++ zfill 3 path ++ "/" ++ zfill 3 row ++ "/" ++ y
              ++ "/" ++ m ++ "/" ++ d ++ "/" /\
    firstn 4 cmd = ["aws"; "s3"; "cp"; s3_path] /\
    skipn 5 cmd = ["--recursive"; "--no-sign-request"] /\
    (forall p, p = path \/ p = row ->
               all_digits p = true -> String.length p <= 3 ->
               zfill 3 p = zeros (3 - String.length p) ++ p
               /\ String.length (zfill 3 p) = 3
               /\ all_digits (zfill 3 p) = true).
Proof.
  intros Dy Dm Dd. eexists. eexists.
  split; [now apply build_s3_cmd_spec|].
  split; [reflexivity|]. split; [reflexivity|]. split; [reflexivity|].
  intros p _. apply zfill_digits.
Qed.

Lemma C8_remote_prefix_witness :
  exists cmd s3_path,
    build_s3_cmd "7" "80" (date_str "2025" "01" "01") bucket "./dea_data"
    = ret (cmd, s3_path) /\
    s3_path = bucket ++ "/" ++ zfill 3 "7" ++ "/" ++ zfill 3 "80" ++ "/" ++ "2025"
              ++ "/" ++ "01" ++ "/" ++ "01" ++ "/" /\
    firstn 4 cmd = ["aws"; "s3"; "cp"; s3_path] /\
    skipn 5 cmd = ["--recursive"; "--no-sign-request"] /\
    (forall p, p = "7" \/ p = "80" ->
               all_digits p = true -> String.length p <= 3 ->
               zfill 3 p = zeros (3 - String.length p) ++ p
               /\ String.length (zfill 3 p) = 3
               /\ all_digits (zfill 3 p) = true).
Proof.
  apply (C8_remote_prefix_padded_recursive "7" "80" "2025" "01" "01" bucket
           "./dea_data"); reflexivity.
Defined.

(** ** A listing that fails *)

Section SameListings.

Variables run run' : list string -> CompletedProcess.
Hypothesis same : forall prefix, listing run prefix = listing run' prefix.

Lemma for_months_same (yp y s e : string) (months dates : list string) :
  for_months run yp y s e months dates = for_months run' yp y s e months dates.
Proof.
  revert dates. induction months as [|m months IH]; intros dates;
    cbn [for_months]; [reflexivity|].
  destruct (negb _); [apply IH|].
  rewrite !list_s3_spec, same, !bind_ok, !entry_keys_spec, !bind_ret.
  now rewrite IH.
Qed.

Lemma for_years_same (prefix s e : string) (years dates : list string) :
  for_years run prefix s e years dates = for_years run' prefix s e years dates.
Proof.
  revert dates. induction years as [|y years IH]; intros dates;
    cbn [for_years]; [reflexivity|].
  destruct (negb _); [apply IH|].
  rewrite !list_s3_spec, same, !bind_ok, !entry_keys_spec, !bind_ret.
  rewrite for_months_same.
  destruct (for_months run' _ y s e _ dates) as [t [ds|ex]]; [|reflexivity].
  rewrite !bind_ok. now rewrite IH.
Qed.

Lemma list_available_dates_same (path row base s e : string) :
  list_available_dates run path row base s e
  = list_available_dates run' path row base s e.
Proof.
  unfold list_available_dates.
  rewrite !list_s3_spec, same, !bind_ok, !entry_keys_spec, !bind_ret.
  now rewrite for_years_same.
Qed.

End SameListings.

Lemma ls_cmd_inj (p q : string) : ls_cmd p = ls_cmd q -> p = q.
Proof. unfold ls_cmd. now intros [= ->]. Qed.

Lemma listing_failed (run : list string -> CompletedProcess) (prefix : string) :
  returncode (run (ls_cmd prefix)) <> 0%Z -> listing run prefix = [].
Proof.
  intros H. unfold listing. now apply Z.eqb_neq in H as ->.
Qed.

Lemma listing_override_failed (run : list string -> CompletedProcess)
  (prefix p : string) :
  returncode (run (ls_cmd prefix)) <> 0%Z ->
  listing run p
  = listing (override run (ls_cmd prefix)
               {| returncode := 0; stdout := EmptyString |}) p.
Proof.
  intros H. unfold listing at 2, override.
  destruct (list_eq_dec string_dec (ls_cmd p) (ls_cmd prefix)) as [Heq|Hne].
  - apply ls_cmd_inj in Heq as ->. simpl. now apply listing_failed.
  - reflexivity.
Qed.

(** C5.  A listing call that returns a code other than 0 yields no line
    and so no key; discovery still returns a list and raises nothing;
    and the whole discovery, trace and dates, is what it is on the store
    where that prefix lists successfully and is empty, so the branches
    beside the failing one contribute what they contribute there. *)
Theorem C5_failed_listing_is_empty
  (run : list string -> CompletedProcess) (prefix : string) :
  returncode (run (ls_cmd prefix)) <> 0%Z ->
  list_s3 run prefix = ([Run (ls_cmd prefix)], Ok []) /\
  children run prefix = [] /\
  forall path row base s e,
    (exists dates,
        outcome (list_available_dates run path row base s e) = Ok dates) /\
    list_available_dates run path row base s e
    = list_available_dates
        (override run (ls_cmd prefix) {| returncode := 0; stdout := EmptyString |})
        path row base s e.
Proof.
  intros H. split; [|split].
  - rewrite list_s3_spec. now rewrite listing_failed.
  - unfold children. now rewrite listing_failed.
  - intros path row base s e. split.
    + destruct (list_available_dates_spec run path row base s e) as (t & -> & _).
      now eexists.
    + apply list_available_dates_same. intros p.
      now apply listing_override_failed.
Qed.

Lemma C5_failed_listing_witness :
  returncode (january_run (ls_cmd "s3://bucket/007/080/2024/")) <> 0%Z /\
  list_s3 january_run "s3://bucket/007/080/2024/"
  = ([Run (ls_cmd "s3://bucket/007/080/2024/")], Ok []) /\
  children january_run "s3://bucket/007/080/2024/" = [] /\
  forall path row base s e,
    (exists dates,
        outcome (list_available_dates january_run path row base s e) = Ok dates) /\
    list_available_dates january_run path row base s e
    = list_available_dates
        (override january_run (ls_cmd "s3://bucket/007/080/2024/")
           {| returncode := 0; stdout := EmptyString |})
        path row base s e.
Proof.
  assert (H : returncode (january_run (ls_cmd "s3://bucket/007/080/2024/")) <> 0%Z)
    by (vm_compute; discriminate).
  split; [exact H|].
  apply (C5_failed_listing_is_empty january_run "s3://bucket/007/080/2024/" H).
Defined.

(** ** A tile without data *)



(** ** Building the task list *)

Lemma bind_assoc {A B C : Type} (c : io A) (k : A -> io B) (h : B -> io C) :
  bind (bind c k) h = bind c (fun a => bind (k a) h).
Proof.
  destruct c as [t [a|e]]; [|reflexivity].
  unfold bind at 2 3. destruct (k a) as [t' [b|e]]; simpl.
  - destruct (h b) as [t'' r]. now rewrite app_assoc.
  - reflexivity.
Qed.

Lemma build_s3_cmd_events (path row date base out : string) :
  events (build_s3_cmd path row date base out) = [].
Proof.
  unfold build_s3_cmd.
  destruct (split "-" date) as [|y [|m [|d [|x l]]]]; reflexivity.
Qed.

Lemma build_s3_cmd_raises (path row date base out : string) :
  value_errors_only (build_s3_cmd path row date base out).
Proof.
  unfold build_s3_cmd, value_errors_only.
  destruct (split "-" date) as [|y [|m [|d [|x l]]]]; simpl; congruence.
Qed.

Lemma build_s3_cmd_copy (path row date base out : string) (t : task) :
  outcome (build_s3_cmd path row date base out) = Ok t -> copy_task t.
Proof.
  unfold build_s3_cmd.
  destruct (split "-" date) as [|y [|m [|d [|x l]]]]; simpl; try discriminate.
  intros [= <-]. split; reflexivity.
Qed.

Lemma for_dates_extend (path row base out : string) (dates : list string)
  (tasks : list task) :
  for_dates path row base out dates tasks
  = extend tasks (for_dates path row base out dates []).
Proof.
  revert tasks. induction dates as [|date dates IH]; intros tasks;
    cbn [for_dates].
  - unfold extend, ret. simpl. now rewrite app_nil_r.
  - assert (Hev := build_s3_cmd_events path row date base out).
    destruct (build_s3_cmd path row date base out) as [t [tk|ex]];
      simpl in Hev; subst t; [|reflexivity].
    rewrite !bind_ok. simpl.
    rewrite (IH (tasks ++ [tk])%list), (IH [tk]). unfold extend. simpl.
    destruct (outcome (for_dates path row base out dates [])); [|reflexivity].
    now rewrite <- app_assoc.
Qed.

Lemma for_dates_events (path row base out : string) (dates : list string)
  (tasks : list task) :
  events (for_dates path row base out dates tasks) = [].
Proof.
  revert tasks. induction dates as [|date dates IH]; intros tasks;
    cbn [for_dates]; [reflexivity|].
  rewrite events_bind, build_s3_cmd_events.
  destruct (outcome _); [apply IH | reflexivity].
Qed.

Lemma for_dates_raises (path row base out : string) (dates : list string)
  (tasks : list task) :
  value_errors_only (for_dates path row base out dates tasks).
Proof.
  revert tasks. induction dates as [|date dates IH]; intros tasks ex;
    cbn [for_dates]; [discriminate|].
  rewrite outcome_bind.
  destruct (outcome (build_s3_cmd path row date base out)) eqn:Hb.
  - apply IH.
  - intros [= <-]. now apply (build_s3_cmd_raises path row date base out).
Qed.

Lemma for_dates_copy (path row base out : string) (dates : list string)
  (tasks out_tasks : list task) :
  Forall copy_task tasks ->
  outcome (for_dates path row base out dates tasks) = Ok out_tasks ->
  Forall copy_task out_tasks.
Proof.
  revert tasks. induction dates as [|date dates IH]; intros tasks Hall;
    cbn [for_dates].
  - now intros [= <-].
  - rewrite outcome_bind.
    destruct (outcome (build_s3_cmd path row date base out)) eqn:Hb;
      [|discriminate].
    apply IH. apply Forall_app. split; [exact Hall|].
    constructor; [|constructor]. eapply build_s3_cmd_copy, Hb.
Qed.

Lemma strptime_raises (d : string) (ex : exn) :
  strptime d = Raise ex -> ex = ValueError.
Proof.
  unfold strptime.
  destruct (re_match_Ymd _) as [[dt [|c l]]|]; try congruence.
  destruct (valid_date dt); congruence.
Qed.

Lemma short_dates_of_events (dates : list string) :
  events (short_dates_of dates) = [].
Proof.
  induction dates as [|d dates IH]; cbn [short_dates_of]; [reflexivity|].
  rewrite events_bind.
  destruct (strptime d); unfold lift; cbn [events outcome fst snd app];
    [|reflexivity].
  rewrite events_bind, IH. now destruct (outcome _).
Qed.

Lemma short_dates_of_raises (dates : list string) :
  value_errors_only (short_dates_of dates).
Proof.
  induction dates as [|d dates IH]; intros ex; cbn [short_dates_of];
    [discriminate|].
  rewrite outcome_bind. unfold lift at 1. cbn [outcome snd].
  destruct (strptime d) eqn:Hd.
  - rewrite outcome_bind. destruct (outcome (short_dates_of dates)) eqn:Hs.
    + discriminate.
    + intros [= <-]. now apply IH.
  - intros [= <-]. now apply (strptime_raises d).
Qed.

(** One date that [strptime] refuses makes the comprehension raise. *)
Lemma short_dates_of_refused (dates : list string) (d : string) :
  In d dates -> strptime d = Raise ValueError ->
  outcome (short_dates_of dates) = Raise ValueError.
Proof.
  intros Hin Hd.
  destruct (outcome (short_dates_of dates)) as [shorts|ex] eqn:Hout.
  - exfalso. revert shorts Hout.
    induction dates as [|d0 dates IH]; [easy|]; intros shorts.
    cbn [short_dates_of]. rewrite outcome_bind. unfold lift at 1.
    cbn [outcome snd]. destruct Hin as [->|Hin].
    + now rewrite Hd.
    + destruct (strptime d0); [|discriminate]. rewrite outcome_bind.
      destruct (outcome (short_dates_of dates)) eqn:Hs; [|discriminate].
      intros _. now apply (IH Hin a0).
  - f_equal. now apply (short_dates_of_raises dates).
Qed.

(** The turn of one tile, case by case *)
Lemma tile_body_form (run : list string -> CompletedProcess)
  (p r s e base out : string) (tasks : list task) :
  exists t dates,
    list_available_dates run p r base s e = (t, Ok dates) /\
    only_listings t /\
    tile_body run p r s e base out tasks
    = match dates with
      | [] => ((Print (Scanning p r) :: t ++ [Print (NoData p r)])%list, Ok tasks)
      | _ :: _ =>
          match outcome (short_dates_of dates) with
          | Ok sh =>
              ((Print (Scanning p r)
                :: t ++ [Print (FoundDates (List.length dates) p r sh)])%list,
               outcome (for_dates p r base out dates tasks))
          | Raise ex => ((Print (Scanning p r) :: t)%list, Raise ex)
          end
      end.
Proof.
  destruct (list_available_dates_spec run p r base s e) as (t & Heq & Ht).
  exists t, (sorted (years_found run (tile_prefix p r base) s e)).
  split; [exact Heq|]. split; [exact Ht|].
  unfold tile_body. rewrite Heq. unfold emit. rewrite !bind_ok.
  destruct (sorted _) as [|d ds]; [reflexivity|].
  set (dates := d :: ds).
  rewrite (io_eta (short_dates_of dates)), short_dates_of_events.
  destruct (outcome (short_dates_of dates)) as [sh|ex]; cbn [outcome snd].
  - rewrite !bind_ok. cbn [events outcome fst snd app].
    now rewrite for_dates_events.
  - cbn [bind events outcome fst snd app]. now rewrite app_nil_r.
Qed.

Lemma only_listings_no_copy (t : trace) :
  only_listings t -> Forall (fun ev => is_copy ev = false) t.
Proof.
  apply Forall_impl. now intros ev [prefix ->].
Qed.

Lemma only_listings_scans (t : trace) : only_listings t -> scans t = [].
Proof.
  induction 1 as [|ev t [prefix ->] _ IH]; [reflexivity | exact IH].
Qed.

Lemma scans_app (t t' : trace) :
  scans (t ++ t')%list = (scans t ++ scans t')%list.
Proof.
  induction t as [|[[]|] t IH]; simpl; try exact IH; [reflexivity|].
  now rewrite IH.
Qed.

Section TileBody.

Variable run : list string -> CompletedProcess.
Variables p r s e base out : string.

Lemma tile_body_extend (tasks : list task) :
  tile_body run p r s e base out tasks
  = extend tasks (tile_body run p r s e base out []).
Proof.
  destruct (tile_body_form run p r s e base out tasks)
    as (t & dates & Heq & _ & ->).
  destruct (tile_body_form run p r s e base out [])
    as (t' & dates' & Heq' & _ & ->).
  rewrite Heq in Heq'. injection Heq' as <- <-.
  destruct dates as [|d ds].
  - unfold extend. simpl. now rewrite app_nil_r.
  - destruct (outcome (short_dates_of (d :: ds))); [|reflexivity].
    rewrite for_dates_extend. reflexivity.
Qed.

Lemma tile_body_no_copy (tasks : list task) :
  Forall (fun ev => is_copy ev = false)
         (events (tile_body run p r s e base out tasks)).
Proof.
  destruct (tile_body_form run p r s e base out tasks)
    as (t & dates & _ & Ht%only_listings_no_copy & ->).
  destruct dates as [|d ds]; [|destruct (outcome _)]; cbn [events fst];
    constructor; try reflexivity; try exact Ht;
    apply Forall_app; (split; [exact Ht|]); now repeat constructor.
Qed.

Lemma tile_body_scans (tasks : list task) :
  scans (events (tile_body run p r s e base out tasks)) = [(p, r)].
Proof.
  destruct (tile_body_form run p r s e base out tasks)
    as (t & dates & _ & Ht%only_listings_scans & ->).
  destruct dates as [|d ds]; [|destruct (outcome _)]; cbn [events fst scans];
    rewrite ?scans_app, Ht; reflexivity.
Qed.

Lemma tile_body_raises (tasks : list task) :
  value_errors_only (tile_body run p r s e base out tasks).
Proof.
  destruct (tile_body_form run p r s e base out tasks)
    as (t & dates & _ & _ & ->).
  intros ex. destruct dates as [|d ds]; [discriminate|].
  destruct (outcome (short_dates_of (d :: ds))) eqn:Hs; cbn [outcome snd].
  - apply for_dates_raises.
  - intros [= <-]. now apply (short_dates_of_raises (d :: ds)).
Qed.

Lemma tile_body_copy (tasks out_tasks : list task) :
  Forall copy_task tasks ->
  outcome (tile_body run p r s e base out tasks) = Ok out_tasks ->
  Forall copy_task out_tasks.
Proof.
  destruct (tile_body_form run p r s e base out tasks)
    as (t & dates & _ & _ & ->).
  intros Hall. destruct dates as [|d ds]; [now intros [= <-]|].
  destruct (outcome (short_dates_of (d :: ds))); cbn [outcome snd];
    [|discriminate].
  now apply for_dates_copy.
Qed.

(** A discovered date that [strptime] refuses stops the tile's turn
    with a [ValueError], before any task of the tile is built. *)
Lemma tile_body_refused (tasks : list task) (dates : list string) (d : string) :
  outcome (list_available_dates run p r base s e) = Ok dates ->
  In d dates -> strptime d = Raise ValueError ->
  outcome (tile_body run p r s e base out tasks) = Raise ValueError.
Proof.
  destruct (tile_body_form run p r s e base out tasks)
    as (t & dates' & Heq & _ & ->).
  rewrite Heq. cbn [outcome snd]. intros [= ->] Hin Hd.
  destruct dates as [|d0 ds]; [easy|].
  now rewrite (short_dates_of_refused (d0 :: ds) d Hin Hd).
Qed.

End TileBody.

(** ** The loop over the tiles *)

Lemma bind_ext {A B : Type} (c : io A) (k k' : A -> io B) :
  (forall a, k a = k' a) -> bind c k = bind c k'.
Proof.
  intros H. destruct c as [t [a|ex]]; [|reflexivity].
  unfold bind. now rewrite H.
Qed.

Section Tiles.

Variable run : list string -> CompletedProcess.
Variables s e base out : string.

Lemma for_rows_tiles (p : string) (rows : list string) (tasks : list task) :
  for_rows run p rows s e base out tasks
  = for_tiles run (map (fun r => (p, r)) rows) s e base out tasks.
Proof.
  revert tasks. induction rows as [|r rows IH]; intros tasks;
    cbn [for_rows for_tiles map fst snd]; [reflexivity|].
  apply bind_ext, IH.
Qed.

Lemma for_tiles_app (l l' : list (string * string)) (tasks : list task) :
  for_tiles run (l ++ l') s e base out tasks
  = bind (for_tiles run l s e base out tasks)
         (for_tiles run l' s e base out).
Proof.
  revert tasks. induction l as [|tile l IH]; intros tasks;
    cbn [for_tiles app].
  - now rewrite bind_ret.
  - rewrite bind_assoc. apply bind_ext, IH.
Qed.

Lemma for_paths_tiles (paths rows : list string) (tasks : list task) :
  for_paths run paths rows s e base out tasks
  = for_tiles run (tiles paths rows) s e base out tasks.
Proof.
  revert tasks. induction paths as [|p paths IH]; intros tasks;
    cbn [for_paths tiles flat_map]; [reflexivity|].
  rewrite for_tiles_app, for_rows_tiles. apply bind_ext, IH.
Qed.

(** When the loop ends without an exception, it has appended the
    tasks of every tile visit, in order, and its trace is the visits'
    traces, in order. *)
Lemma for_tiles_ok (l : list (string * string)) (tasks out_tasks : list task) :
  outcome (for_tiles run l s e base out tasks) = Ok out_tasks ->
  out_tasks = (tasks ++ flat_map (tile_tasks run s e base out) l)%list /\
  events (for_tiles run l s e base out tasks)
  = flat_map (tile_trace run s e base out) l.
Proof.
  revert tasks. induction l as [|tile l IH]; intros tasks;
    cbn [for_tiles flat_map].
  - intros [= <-]. now rewrite app_nil_r.
  - rewrite tile_body_extend. unfold tile_tasks at 1, tile_trace at 1.
    destruct (tile_body run (fst tile) (snd tile) s e base out [])
      as [t [new|ex]]; unfold extend; cbn [events outcome fst snd];
      [|discriminate].
    rewrite bind_ok. cbn [events outcome fst snd]. intros H.
    destruct (IH _ H) as [-> ->]. now rewrite <- app_assoc.
Qed.

Lemma for_tiles_no_copy (l : list (string * string)) (tasks : list task) :
  Forall (fun ev => is_copy ev = false)
         (events (for_tiles run l s e base out tasks)).
Proof.
  revert tasks. induction l as [|tile l IH]; intros tasks; cbn [for_tiles].
  - constructor.
  - apply events_forall_bind; [apply tile_body_no_copy | intros; apply IH].
Qed.

Lemma for_tiles_raises (l : list (string * string)) (tasks : list task) :
  value_errors_only (for_tiles run l s e base out tasks).
Proof.
  revert tasks. induction l as [|tile l IH]; intros tasks ex; cbn [for_tiles].
  - discriminate.
  - rewrite outcome_bind.
    destruct (outcome (tile_body run _ _ s e base out tasks)) eqn:Hb.
    + apply IH.
    + intros [= <-]. exact (tile_body_raises run _ _ s e base out tasks _ Hb).
Qed.

Lemma for_tiles_copy (l : list (string * string)) (tasks out_tasks : list task) :
  Forall copy_task tasks ->
  outcome (for_tiles run l s e base out tasks) = Ok out_tasks ->
  Forall copy_task out_tasks.
Proof.
  revert tasks. induction l as [|tile l IH]; intros tasks Hall;
    cbn [for_tiles].
  - now intros [= <-].
  - rewrite outcome_bind.
    destruct (outcome (tile_body run _ _ s e base out tasks)) eqn:Hb;
      [|discriminate].
    apply IH. eapply tile_body_copy; [exact Hall | exact Hb].
Qed.

Lemma for_tiles_refused (l : list (string * string)) (tasks : list task)
  (p r : string) (dates : list string) (d : string) :
  In (p, r) l ->
  outcome (list_available_dates run p r base s e) = Ok dates ->
  In d dates -> strptime d = Raise ValueError ->
  outcome (for_tiles run l s e base out tasks) = Raise ValueError.
Proof.
  intros Hin Hdates Hd Hbad. revert tasks.
  induction l as [|tile l IH]; intros tasks; [easy|].
  cbn [for_tiles]. rewrite outcome_bind.
  destruct (outcome (tile_body run (fst tile) (snd tile) s e base out tasks))
    as [tasks'|ex] eqn:Hb.
  - destruct Hin as [->|Hin]; [|now apply IH].
    cbn [fst snd] in Hb.
    rewrite (tile_body_refused run p r s e base out tasks dates d) in Hb;
      [discriminate | assumption..].
  - f_equal. exact (tile_body_raises run _ _ s e base out tasks _ Hb).
Qed.

Lemma scans_tile_traces (l : list (string * string)) :
  scans (flat_map (tile_trace run s e base out) l) = l.
Proof.
  induction l as [|[p r] l IH]; [reflexivity|].
  cbn [flat_map]. rewrite scans_app, IH. unfold tile_trace.
  cbn [fst snd]. now rewrite tile_body_scans.
Qed.

(** [build_tasks], from the loop over the tiles *)
Lemma build_tasks_form (paths rows : list string) :
  build_tasks run paths rows s e base out
  = match outcome (for_tiles run (tiles paths rows) s e base out []) with
    | Ok tasks =>
        ((events (for_tiles run (tiles paths rows) s e base out [])
          ++ [Print (StartingDownloads (List.length tasks))])%list, Ok tasks)
    | Raise ex =>
        (events (for_tiles run (tiles paths rows) s e base out []), Raise ex)
    end.
Proof.
  unfold build_tasks. rewrite for_paths_tiles.
  destruct (for_tiles run (tiles paths rows) s e base out []) as [t [tasks|ex]];
    reflexivity.
Qed.

End Tiles.

(** ** Running the tasks one after the other *)

Lemma runs_app (t t' : trace) : runs (t ++ t')%list = (runs t ++ runs t')%list.
Proof.
  induction t as [|[n|argv] t IH]; simpl; [reflexivity | exact IH |].
  now rewrite IH.
Qed.

Lemma reports_app (t t' : trace) :
  reports (t ++ t')%list = (reports t ++ reports t')%list.
Proof.
  induction t as [|[[]|argv] t IH]; simpl; try exact IH; try reflexivity;
    now rewrite IH.
Qed.

Section Execution.

Variable run : list string -> CompletedProcess.

Lemma run_download_form (cmd : list string) (s3_path : string) :
  run_download run cmd s3_path = (task_events run (cmd, s3_path), Ok tt).
Proof.
  unfold run_download, task_events, task_report, report, emit.
  cbn [fst snd]. rewrite !bind_ok.
  now destruct (returncode (run cmd) =? 0)%Z.
Qed.

Lemma runs_task_events (tasks : list task) :
  runs (flat_map (task_events run) tasks) = map fst tasks.
Proof.
  induction tasks as [|t tasks IH]; [reflexivity|].
  cbn [flat_map map]. rewrite runs_app, IH. reflexivity.
Qed.

Lemma reports_one_task (t : task) :
  reports (task_events run t) = [task_report run t].
Proof.
  unfold task_events, task_report, report.
  now destruct (returncode (run (fst t)) =? 0)%Z.
Qed.

Lemma reports_task_events (tasks : list task) :
  reports (flat_map (task_events run) tasks) = map (task_report run) tasks.
Proof.
  induction tasks as [|t tasks IH]; [reflexivity|].
  cbn [flat_map map]. now rewrite reports_app, IH, reports_one_task.
Qed.

Lemma task_events_no_listing (tasks : list task) :
  Forall copy_task tasks ->
  Forall (fun ev => is_listing ev = false) (flat_map (task_events run) tasks).
Proof.
  induction 1 as [|t tasks [_ Ht] _ IH]; [constructor|].
  cbn [flat_map]. apply Forall_app. split; [|exact IH].
  repeat constructor. exact Ht.
Qed.

(** The sequential loop raises nothing and runs every task in turn. *)
Lemma for_tasks_form (i total : nat) (tasks : list task) :
  outcome (for_tasks run i total tasks) = Ok tt /\
  runs (events (for_tasks run i total tasks)) = map fst tasks /\
  reports (events (for_tasks run i total tasks)) = map (task_report run) tasks /\
  (Forall copy_task tasks ->
   Forall (fun ev => is_listing ev = false)
          (events (for_tasks run i total tasks))).
Proof.
  revert i. induction tasks as [|[cmd s3] tasks IH]; intros i;
    cbn [for_tasks].
  - repeat split. constructor.
  - destruct (IH (S i)) as (Ho & Hr & Hp & Hl).
    unfold emit. rewrite bind_ok, run_download_form, bind_ok.
    cbn [events outcome fst snd app map]. split; [exact Ho|].
    change (Print (Progress i total) :: ?x)
      with ([Print (Progress i total)] ++ x)%list.
    rewrite !runs_app, !reports_app, Hr, Hp.
    split; [reflexivity|]. split.
    + now rewrite reports_one_task.
    + intros Hall. apply Forall_cons_iff in Hall as [[_ Hc] Hall].
      repeat constructor; [exact Hc|]. now apply Hl.
Qed.

End Execution.

(** ** Running the tasks in the pool *)

Lemma runs_perm (t t' : trace) :
  Permutation t t' -> Permutation (runs t) (runs t').
Proof.
  induction 1 as [|ev t t' _ IH|ev ev' t|t t' t'' _ IH _ IH'].
  - constructor.
  - destruct ev; simpl; [exact IH | now constructor].
  - destruct ev, ev'; simpl; try reflexivity. apply perm_swap.
  - now transitivity (runs t').
Qed.

Lemma reports_perm (t t' : trace) :
  Permutation t t' -> Permutation (reports t) (reports t').
Proof.
  induction 1 as [|ev t t' _ IH|ev ev' t|t t' t'' _ IH _ IH'].
  - constructor.
  - destruct ev as [[]|]; simpl; try exact IH; now constructor.
  - destruct ev as [[]|], ev' as [[]|]; simpl; try reflexivity; apply perm_swap.
  - now transitivity (reports t').
Qed.

Lemma forall_perm {A : Type} (P : A -> Prop) (l l' : list A) :
  Permutation l l' -> Forall P l -> Forall P l'.
Proof.
  intros Hp Hl. rewrite Forall_forall in *. intros x Hx.
  apply Hl. eapply Permutation_in; [apply Permutation_sym, Hp | exact Hx].
Qed.

(** An event moves from what is left to do to the end of the log. *)
Lemma move_event (lg a b q rest : trace) (ev : event) :
  Permutation (lg ++ (a ++ (ev :: rest) ++ b) ++ q)%list
              ((lg ++ [ev]) ++ (a ++ rest ++ b) ++ q)%list.
Proof.
  rewrite <- !app_assoc. apply Permutation_app_head. cbn [app].
  symmetry. apply Permutation_middle.
Qed.

Section Pool.

Variable run : list string -> CompletedProcess.
Variable max_workers : nat.

Lemma pool_step_total (s s' : pool) :
  pool_step run max_workers s s' ->
  Permutation (pool_total run s) (pool_total run s').
Proof.
  intros H. destruct H; unfold pool_total; cbn [queue workers log];
    rewrite ?flat_map_app; cbn [flat_map worker_rest].
  - rewrite app_nil_r, <- !app_assoc. reflexivity.
  - apply (move_event lg _ _ _ _ (Print (Downloading (snd t)))).
  - apply (move_event lg _ _ _ [Print (task_report run t)] (Run (fst t))).
  - apply (move_event lg _ _ _ [] (Print (report t rc))).
Qed.

Lemma pool_steps_total (s s' : pool) :
  pool_steps run max_workers s s' ->
  Permutation (pool_total run s) (pool_total run s').
Proof.
  induction 1 as [s|s1 s2 s3 Hstep _ IH]; [reflexivity|].
  transitivity (pool_total run s2); [now apply pool_step_total | exact IH].
Qed.

(** When the pool is done, its log holds the events of every task,
    each once, in some order. *)
Lemma pool_done_log (tasks : list task) (s : pool) :
  pool_steps run max_workers (pool_init tasks) s -> pool_done s ->
  Permutation (log s) (flat_map (task_events run) tasks).
Proof.
  intros Hsteps [Hq Hw]. apply pool_steps_total in Hsteps.
  unfold pool_total in Hsteps. rewrite Hq, Hw in Hsteps.
  cbn [pool_init queue workers log flat_map app] in Hsteps.
  rewrite app_nil_r in Hsteps. now symmetry.
Qed.

Lemma worker_weight_sum (ws1 ws2 : list worker) (w : worker) :
  list_sum (map worker_weight (ws1 ++ w :: ws2))
  = list_sum (map worker_weight (ws1 ++ ws2)) + worker_weight w.
Proof.
  rewrite !map_app, !list_sum_app. cbn [map].
  change (list_sum (worker_weight w :: map worker_weight ws2))
    with (worker_weight w + list_sum (map worker_weight ws2)).
  lia.
Qed.

(** Every step uses up some of the work: no run goes on for ever. *)
Lemma pool_step_weight (s s' : pool) :
  pool_step run max_workers s s' -> pool_weight s' < pool_weight s.
Proof.
  intros H. destruct H; unfold pool_weight; cbn [queue workers log];
    rewrite ?worker_weight_sum, ?app_nil_r; cbn [worker_weight List.length];
    lia.
Qed.

Hypothesis some_worker : 0 < max_workers.

(** A pool that is not done can take a step. *)
Lemma pool_progress (s : pool) :
  ~ pool_done s -> exists s', pool_step run max_workers s s'.
Proof.
  destruct s as [q ws lg]. unfold pool_done. cbn [queue workers].
  intros Hnot. destruct ws as [|w ws].
  - destruct q as [|t q]; [now destruct Hnot|].
    eexists. apply (step_pick run max_workers t q [] lg). exact some_worker.
  - destruct w as [t|t|t rc]; eexists.
    + apply (step_announce run max_workers t q [] ws lg).
    + apply (step_copy run max_workers t q [] ws lg).
    + apply (step_report run max_workers t rc q [] ws lg).
Qed.

Lemma pool_done_dec (s : pool) : pool_done s \/ ~ pool_done s.
Proof.
  destruct s as [[|t q] [|w ws] lg]; unfold pool_done; cbn [queue workers];
    [now left | right | right | right]; intros [? ?]; discriminate.
Qed.

(** From every state the pool can run until it is done. *)
Lemma pool_terminates (s : pool) :
  exists s', pool_steps run max_workers s s' /\ pool_done s'.
Proof.
  remember (pool_weight s) as n eqn:Hn. revert s Hn.
  induction n as [n IH] using lt_wf_ind. intros s ->.
  destruct (pool_done_dec s) as [Hd|Hd].
  - exists s. split; [constructor | exact Hd].
  - destruct (pool_progress s Hd) as [s1 Hstep].
    destruct (IH _ (pool_step_weight s s1 Hstep) s1 eq_refl) as (s' & Hs & Hd').
    exists s'. split; [|exact Hd']. now apply steps_cons with s1.
Qed.

End Pool.

(** ** Complete runs *)

Section Runs.

Variable run : list string -> CompletedProcess.
Variables paths rows : list string.
Variables s e base out : string.

Lemma build_tasks_ok (t : trace) (tasks : list task) :
  build_tasks run paths rows s e base out = (t, Ok tasks) ->
  tasks = flat_map (tile_tasks run s e base out) (tiles paths rows) /\
  t = (flat_map (tile_trace run s e base out) (tiles paths rows)
       ++ [Print (StartingDownloads (List.length tasks))])%list /\
  Forall copy_task tasks.
Proof.
  rewrite build_tasks_form.
  destruct (outcome (for_tiles run (tiles paths rows) s e base out []))
    as [tasks'|ex] eqn:Ho; [|discriminate].
  intros [= <- <-].
  destruct (for_tiles_ok run s e base out _ _ _ Ho) as [Htasks Hev].
  split; [exact Htasks|]. split; [now rewrite Hev|].
  eapply for_tiles_copy; [constructor | exact Ho].
Qed.

Lemma build_tasks_no_copy :
  Forall (fun ev => is_copy ev = false)
         (events (build_tasks run paths rows s e base out)).
Proof.
  rewrite build_tasks_form.
  assert (H := for_tiles_no_copy run s e base out (tiles paths rows) []).
  destruct (outcome _); cbn [events fst]; [|exact H].
  apply Forall_app. split; [exact H | now repeat constructor].
Qed.

Lemma build_tasks_raises :
  value_errors_only (build_tasks run paths rows s e base out).
Proof.
  intros ex. rewrite build_tasks_form.
  destruct (outcome (for_tiles run (tiles paths rows) s e base out []))
    eqn:Ho; cbn [outcome snd]; [discriminate|].
  intros [= <-]. exact (for_tiles_raises run s e base out _ _ _ Ho).
Qed.

Variable multithread : bool.
Variable max_workers : Z.

(** What a complete run does after the task list is built *)
Lemma download_exec (t : trace) (tasks : list task) (tr : trace)
  (r : result unit) :
  build_tasks run paths rows s e base out = (t, Ok tasks) ->
  (multithread = true -> (0 < max_workers)%Z) ->
  download_dea_data run paths rows s e base out multithread max_workers tr r ->
  exists exec,
    tr = (t ++ exec)%list /\ r = Ok tt /\
    Permutation (runs exec) (map fst tasks) /\
    Permutation (reports exec) (map (task_report run) tasks) /\
    Forall (fun ev => is_listing ev = false) exec.
Proof.
  intros Hbuild Hpool Hrun.
  destruct (build_tasks_ok t tasks Hbuild) as (_ & _ & Hcopy).
  destruct Hrun as [t' ex Hb|t' tasks' Hm Hb|t' tasks' Hm Hle Hb
                    |t' tasks' st Hm Hlt Hb Hsteps Hdone];
    rewrite Hbuild in Hb.
  - discriminate.
  - injection Hb as <- <-.
    destruct (for_tasks_form run 1 (List.length tasks) tasks)
      as (Ho & Hr & Hp & Hl).
    eexists. split; [reflexivity|]. split; [exact Ho|].
    rewrite Hr, Hp. repeat split; auto.
  - specialize (Hpool Hm). lia.
  - injection Hb as <- <-.
    assert (Hlog := pool_done_log run _ tasks st Hsteps Hdone).
    exists (log st). split; [reflexivity|]. split; [reflexivity|].
    split; [|split].
    + rewrite <- (runs_task_events run). now apply runs_perm.
    + rewrite <- (reports_task_events run). now apply reports_perm.
    + eapply forall_perm; [apply Permutation_sym, Hlog|].
      now apply task_events_no_listing.
Qed.

(** A complete run exists. *)
Lemma download_exists (t : trace) (tasks : list task) :
  build_tasks run paths rows s e base out = (t, Ok tasks) ->
  (multithread = true -> (0 < max_workers)%Z) ->
  exists tr,
    download_dea_data run paths rows s e base out multithread max_workers
      tr (Ok tt).
Proof.
  intros Hbuild Hpool. destruct multithread eqn:Hm.
  - specialize (Hpool eq_refl).
    destruct (pool_terminates run (Z.to_nat max_workers) ltac:(lia)
                (pool_init tasks)) as (st & Hsteps & Hdone).
    eexists. now apply (run_pool run paths rows s e base out true max_workers
                          t tasks st).
  - destruct (for_tasks_form run 1 (List.length tasks) tasks) as (Ho & _).
    eexists. rewrite <- Ho.
    now apply (run_sequential run paths rows s e base out false max_workers
                 t tasks).
Qed.

End Runs.

(** ** Every task is attempted once *)

(** C3.  When the task list is built (and the pool, if used, has a
    worker), a complete run exists, and every complete run, sequential
    or pooled, ends without an exception after spawning exactly the
    tasks' commands, each once and nothing else (no retry, no cleanup),
    and after reporting every task's outcome, each once; a task whose
    copy returns a code other than 0 is reported as failed with its
    prefix, its command and that code. *)
Theorem C3_every_task_attempted_once
  (run : list string -> CompletedProcess) (paths rows : list string)
  (s e base out : string) (multithread : bool) (max_workers : Z)
  (t : trace) (tasks : list task) :
  build_tasks run paths rows s e base out = (t, Ok tasks) ->
  (multithread = true -> (0 < max_workers)%Z) ->
  (exists tr,
      download_dea_data run paths rows s e base out multithread max_workers
        tr (Ok tt)) /\
  forall tr r,
    download_dea_data run paths rows s e base out multithread max_workers tr r ->
    exists exec,
      tr = (t ++ exec)%list /\ r = Ok tt /\
      Permutation (runs exec) (map fst tasks) /\
      Permutation (reports exec) (map (task_report run) tasks) /\
      forall task,
        In task tasks -> returncode (run (fst task)) <> 0%Z ->
        In (Failed (snd task) (fst task) (returncode (run (fst task))))
           (reports exec).
Proof.
  intros Hbuild Hpool. split; [now apply download_exists with t tasks|].
  intros tr r Hrun.
  destruct (download_exec run paths rows s e base out multithread max_workers
              t tasks tr r Hbuild Hpool Hrun) as (exec & -> & -> & Hr & Hp & _).
  exists exec. repeat split; try assumption.
  intros task Hin Hrc.
  apply (Permutation_in _ (Permutation_sym Hp)).
  replace (Failed _ _ _) with (task_report run task).
  - now apply in_map.
  - unfold task_report, report. now apply Z.eqb_neq in Hrc as ->.
Qed.

Lemma C3_every_task_witness :
  january_build = (events january_build, Ok (built january_build)) /\
  (true = true -> (0 < 4)%Z) /\
  (exists tr,
      download_dea_data january_failing_run ["7"] ["80"] "2025-01-01"
        "2025-01-03" bucket "./dea_data" true 4 tr (Ok tt)) /\
  forall tr r,
    download_dea_data january_failing_run ["7"] ["80"] "2025-01-01"
      "2025-01-03" bucket "./dea_data" true 4 tr r ->
    exists exec,
      tr = (events january_build ++ exec)%list /\ r = Ok tt /\
      Permutation (runs exec) (map fst (built january_build)) /\
      Permutation (reports exec)
                  (map (task_report january_failing_run) (built january_build)) /\
      forall task,
        In task (built january_build) ->
        returncode (january_failing_run (fst task)) <> 0%Z ->
        In (Failed (snd task) (fst task)
              (returncode (january_failing_run (fst task))))
           (reports exec).
Proof.
  assert (Hb : january_build = (events january_build, Ok (built january_build)))
    by reflexivity.
  assert (Hw : true = true -> (0 < 4)%Z) by (intros _; reflexivity).
  split; [exact Hb|]. split; [exact Hw|].
  exact (C3_every_task_attempted_once january_failing_run ["7"] ["80"]
           "2025-01-01" "2025-01-03" bucket "./dea_data" true 4
           (events january_build) (built january_build) Hb Hw).
Defined.

(** ** The pool against the sequential loop *)

Lemma sequential_exec (run : list string -> CompletedProcess)
  (paths rows : list string) (s e base out : string) (max_workers : Z)
  (t : trace) (tasks : list task) (tr : trace) (r : result unit) :
  build_tasks run paths rows s e base out = (t, Ok tasks) ->
  download_dea_data run paths rows s e base out false max_workers tr r ->
  tr = (t ++ events (for_tasks run 1 (List.length tasks) tasks))%list /\
  r = outcome (for_tasks run 1 (List.length tasks) tasks).
Proof.
  intros Hbuild Hrun.
  destruct Hrun as [t' ex Hb|t' tasks' Hm Hb|t' tasks' Hm Hle Hb
                    |t' tasks' st Hm Hlt Hb Hsteps Hdone];
    rewrite Hbuild in Hb; try discriminate.
  injection Hb as <- <-. now split.
Qed.

(** C4.  With the task list built and a pool of at least one worker, a
    pooled run exists and a sequential run exists.  Every pooled run
    ends without an exception after spawning exactly the commands of the
    [N] tasks, each once, in some order, and after reporting exactly the
    outcomes of the [N] tasks, each once, in some order; every
    sequential run spawns the commands and reports the outcomes in the
    order of the list.  So the outcomes a pooled run reports are, up to
    order, those a sequential run reports. *)
Theorem C4_pool_matches_sequential
  (run : list string -> CompletedProcess) (paths rows : list string)
  (s e base out : string) (max_workers : Z) (t : trace) (tasks : list task) :
  build_tasks run paths rows s e base out = (t, Ok tasks) ->
  (0 < max_workers)%Z ->
  (exists tr,
      download_dea_data run paths rows s e base out true max_workers tr (Ok tt)) /\
  (exists tr,
      download_dea_data run paths rows s e base out false max_workers tr
        (Ok tt)) /\
  (forall tr_pool r_pool,
      download_dea_data run paths rows s e base out true max_workers
        tr_pool r_pool ->
      exists exec_pool,
        tr_pool = (t ++ exec_pool)%list /\ r_pool = Ok tt /\
        Permutation (runs exec_pool) (map fst tasks) /\
        List.length (runs exec_pool) = List.length tasks /\
        Permutation (reports exec_pool) (map (task_report run) tasks)) /\
  (forall tr_seq r_seq,
      download_dea_data run paths rows s e base out false max_workers
        tr_seq r_seq ->
      exists exec_seq,
        tr_seq = (t ++ exec_seq)%list /\ r_seq = Ok tt /\
        runs exec_seq = map fst tasks /\
        reports exec_seq = map (task_report run) tasks) /\
  forall tr_pool r_pool tr_seq r_seq,
    download_dea_data run paths rows s e base out true max_workers
      tr_pool r_pool ->
    download_dea_data run paths rows s e base out false max_workers
      tr_seq r_seq ->
    exists exec_pool exec_seq,
      tr_pool = (t ++ exec_pool)%list /\ tr_seq = (t ++ exec_seq)%list /\
      r_pool = Ok tt /\ r_seq = Ok tt /\
      Permutation (runs exec_pool) (map fst tasks) /\
      List.length (runs exec_pool) = List.length tasks /\
      runs exec_seq = map fst tasks /\
      Permutation (reports exec_pool) (reports exec_seq).
Proof.
  intros Hbuild Hpos.
  assert (Hpool : forall tr_pool r_pool,
             download_dea_data run paths rows s e base out true max_workers
               tr_pool r_pool ->
             exists exec_pool,
               tr_pool = (t ++ exec_pool)%list /\ r_pool = Ok tt /\
               Permutation (runs exec_pool) (map fst tasks) /\
               List.length (runs exec_pool) = List.length tasks /\
               Permutation (reports exec_pool) (map (task_report run) tasks)).
  { intros tr_pool r_pool Hrun.
    destruct (download_exec run paths rows s e base out true max_workers
                t tasks tr_pool r_pool Hbuild (fun _ => Hpos) Hrun)
      as (exec & -> & -> & Hr & Hp & _).
    exists exec. repeat split; try assumption.
    rewrite (Permutation_length Hr). apply length_map. }
  assert (Hseq : forall tr_seq r_seq,
             download_dea_data run paths rows s e base out false max_workers
               tr_seq r_seq ->
             exists exec_seq,
               tr_seq = (t ++ exec_seq)%list /\ r_seq = Ok tt /\
               runs exec_seq = map fst tasks /\
               reports exec_seq = map (task_report run) tasks).
  { intros tr_seq r_seq Hrun.
    destruct (sequential_exec run paths rows s e base out max_workers
                t tasks tr_seq r_seq Hbuild Hrun) as [-> ->].
    destruct (for_tasks_form run 1 (List.length tasks) tasks)
      as (Ho & Hrs & Hps & _).
    exists (events (for_tasks run 1 (List.length tasks) tasks)).
    repeat split; assumption. }
  split; [|split; [|split; [exact Hpool|split; [exact Hseq|]]]].
  - apply download_exists with t tasks; [exact Hbuild | now intros _].
  - apply download_exists with t tasks; [exact Hbuild | discriminate].
  - intros tr_pool r_pool tr_seq r_seq Hp Hs.
    destruct (Hpool _ _ Hp) as (exec_pool & -> & -> & Hr & Hlen & Hrep).
    destruct (Hseq _ _ Hs) as (exec_seq & -> & -> & Hrs & Hreps).
    exists exec_pool, exec_seq. repeat split; try assumption.
    now rewrite Hreps.
Qed.

Lemma C4_pool_witness :
  january_build = (events january_build, Ok (built january_build)) /\ (0 < 4)%Z /\
  (exists tr,
      download_dea_data january_failing_run ["7"] ["80"] "2025-01-01"
        "2025-01-03" bucket "./dea_data" true 4 tr (Ok tt)) /\
  (exists tr,
      download_dea_data january_failing_run ["7"] ["80"] "2025-01-01"
        "2025-01-03" bucket "./dea_data" false 4 tr (Ok tt)) /\
  (forall tr_pool r_pool,
      download_dea_data january_failing_run ["7"] ["80"] "2025-01-01"
        "2025-01-03" bucket "./dea_data" true 4 tr_pool r_pool ->
      exists exec_pool,
        tr_pool = (events january_build ++ exec_pool)%list /\ r_pool = Ok tt /\
        Permutation (runs exec_pool) (map fst (built january_build)) /\
        List.length (runs exec_pool) = List.length (built january_build) /\
        Permutation (reports exec_pool)
                    (map (task_report january_failing_run)
                         (built january_build))) /\
  (forall tr_seq r_seq,
      download_dea_data january_failing_run ["7"] ["80"] "2025-01-01"
        "2025-01-03" bucket "./dea_data" false 4 tr_seq r_seq ->
      exists exec_seq,
        tr_seq = (events january_build ++ exec_seq)%list /\ r_seq = Ok tt /\
        runs exec_seq = map fst (built january_build) /\
        reports exec_seq
        = map (task_report january_failing_run) (built january_build)) /\
  forall tr_pool r_pool tr_seq r_seq,
    download_dea_data january_failing_run ["7"] ["80"] "2025-01-01"
      "2025-01-03" bucket "./dea_data" true 4 tr_pool r_pool ->
    download_dea_data january_failing_run ["7"] ["80"] "2025-01-01"
      "2025-01-03" bucket "./dea_data" false 4 tr_seq r_seq ->
    exists exec_pool exec_seq,
      tr_pool = (events january_build ++ exec_pool)%list /\
      tr_seq = (events january_build ++ exec_seq)%list /\
      r_pool = Ok tt /\ r_seq = Ok tt /\
      Permutation (runs exec_pool) (map fst (built january_build)) /\
      List.length (runs exec_pool) = List.length (built january_build) /\
      runs exec_seq = map fst (built january_build) /\
      Permutation (reports exec_pool) (reports exec_seq).
Proof.
  assert (Hb : january_build = (events january_build, Ok (built january_build)))
    by reflexivity.
  assert (Hw : (0 < 4)%Z) by reflexivity.
  split; [exact Hb|]. split; [exact Hw|].
  exact (C4_pool_matches_sequential january_failing_run ["7"] ["80"]
           "2025-01-01" "2025-01-03" bucket "./dea_data" 4
           (events january_build) (built january_build) Hb Hw).
Defined.

(** ** Discovery comes first *)

(** C6.  Every complete run, sequential or pooled, is the trace of the
    construction followed by the trace of the execution; the first holds
    no copy and the second no listing; and if anything is executed at
    all, the construction has visited every tile of [paths] by [rows],
    each occurrence once, one after the other in the order of the two
    loops, before the notice that downloads start. *)
Theorem C6_discovery_before_downloads
  (run : list string -> CompletedProcess) (paths rows : list string)
  (s e base out : string) (multithread : bool) (max_workers : Z)
  (tr : trace) (r : result unit) :
  download_dea_data run paths rows s e base out multithread max_workers tr r ->
  exists exec,
    tr = (events (build_tasks run paths rows s e base out) ++ exec)%list /\
    Forall (fun ev => is_copy ev = false)
           (events (build_tasks run paths rows s e base out)) /\
    Forall (fun ev => is_listing ev = false) exec /\
    (exec <> [] ->
     scans (events (build_tasks run paths rows s e base out)) = tiles paths rows /\
     exists n,
       events (build_tasks run paths rows s e base out)
       = (flat_map (tile_trace run s e base out) (tiles paths rows)
          ++ [Print (StartingDownloads n)])%list).
Proof.
  intros Hrun.
  assert (Hnc := build_tasks_no_copy run paths rows s e base out).
  assert (Hok : forall t tasks,
             build_tasks run paths rows s e base out = (t, Ok tasks) ->
             scans t = tiles paths rows /\
             exists n,
               t = (flat_map (tile_trace run s e base out) (tiles paths rows)
                    ++ [Print (StartingDownloads n)])%list).
  { intros t tasks Hb.
    destruct (build_tasks_ok run paths rows s e base out t tasks Hb)
      as (_ & -> & _).
    split; [|now eexists].
    rewrite scans_app, scans_tile_traces. apply app_nil_r. }
  destruct Hrun as [t ex Hb|t tasks Hm Hb|t tasks Hm Hle Hb
                    |t tasks st Hm Hlt Hb Hsteps Hdone];
    rewrite Hb in Hnc |- *; cbn [events fst] in *.
  - exists []. rewrite app_nil_r. split; [reflexivity|].
    split; [exact Hnc|]. split; [constructor|]. intros H. now contradiction H.
  - eexists. split; [reflexivity|]. split; [exact Hnc|]. split.
    + apply for_tasks_form.
      now destruct (build_tasks_ok run paths rows s e base out t tasks Hb)
        as (_ & _ & Hc).
    + intros _. now apply (Hok t tasks).
  - exists []. rewrite app_nil_r. split; [reflexivity|].
    split; [exact Hnc|]. split; [constructor|]. intros H. now contradiction H.
  - exists (log st). split; [reflexivity|]. split; [exact Hnc|]. split.
    + destruct (build_tasks_ok run paths rows s e base out t tasks Hb)
        as (_ & _ & Hc).
      eapply forall_perm;
        [apply Permutation_sym, (pool_done_log run _ tasks st Hsteps Hdone)|].
      now apply task_events_no_listing.
    + intros _. now apply (Hok t tasks).
Qed.

Lemma C6_discovery_witness :
  download_dea_data january_failing_run ["7"] ["80"] "2025-01-01" "2025-01-03"
    bucket "./dea_data" false 4
    (events january_build
     ++ events (for_tasks january_failing_run 1 2 (built january_build)))%list
    (Ok tt)
  /\ exists exec,
    (events january_build
     ++ events (for_tasks january_failing_run 1 2 (built january_build)))%list
    = (events january_build ++ exec)%list /\
    Forall (fun ev => is_copy ev = false) (events january_build) /\
    Forall (fun ev => is_listing ev = false) exec /\
    (exec <> [] ->
     scans (events january_build) = tiles ["7"] ["80"] /\
     exists n,
       events january_build
       = (flat_map (tile_trace january_failing_run "2025-01-01" "2025-01-03"
                      bucket "./dea_data") (tiles ["7"] ["80"])
          ++ [Print (StartingDownloads n)])%list).
Proof.
  assert (H : download_dea_data january_failing_run ["7"] ["80"] "2025-01-01"
                "2025-01-03" bucket "./dea_data" false 4
                (events january_build
                 ++ events (for_tasks january_failing_run 1 2
                              (built january_build)))%list
                (Ok tt)).
  { exact (run_sequential january_failing_run ["7"] ["80"] "2025-01-01"
             "2025-01-03" bucket "./dea_data" false 4
             (events january_build) (built january_build) eq_refl eq_refl). }
  split; [exact H|].
  exact (C6_discovery_before_downloads january_failing_run ["7"] ["80"]
           "2025-01-01" "2025-01-03" bucket "./dea_data" false 4 _ _ H).
Defined.

(** ** Splitting a date at its dashes *)

Lemma char_in_app (c : ascii) (a b : string) :
  char_in c (a ++ b) = char_in c a || char_in c b.
Proof.
  induction a as [|x a IH]; simpl; [reflexivity|].
  now rewrite IH, orb_assoc.
Qed.

Lemma length_split_from (sep : ascii) (cur s : string) :
  List.length (split_from sep cur s) = S (count_char sep s).
Proof.
  revert cur. induction s as [|x s IH]; intros cur; cbn [split_from count_char];
    [reflexivity|].
  destruct (Ascii.eqb x sep); cbn [List.length]; now rewrite IH.
Qed.

Lemma split_from_nonempty (sep : ascii) (cur s : string) :
  split_from sep cur s <> [].
Proof.
  intros H. apply (f_equal (@List.length string)) in H.
  rewrite length_split_from in H. discriminate.
Qed.

(** Joining the pieces with the separator gives the string back. *)
Lemma concat_split_from (sep : ascii) (cur s : string) :
  String.concat (String sep EmptyString) (split_from sep cur s) = cur ++ s.
Proof.
  revert cur. induction s as [|x s IH]; intros cur; cbn [split_from].
  - cbn. now rewrite append_empty_r.
  - destruct (Ascii.eqb_spec x sep) as [->|Hne].
    + specialize (IH EmptyString).
      destruct (split_from sep EmptyString s) as [|p ps] eqn:Hsp;
        [now apply split_from_nonempty in Hsp|].
      change (String.concat (String sep EmptyString) (cur :: p :: ps))
        with (cur ++ String sep EmptyString
              ++ String.concat (String sep EmptyString) (p :: ps)).
      rewrite IH. reflexivity.
    + rewrite IH, append_assoc. reflexivity.
Qed.

Lemma split_from_pieces (sep : ascii) (cur s : string) :
  char_in sep cur = false ->
  Forall (fun piece => char_in sep piece = false) (split_from sep cur s).
Proof.
  revert cur. induction s as [|x s IH]; intros cur Hcur; cbn [split_from].
  - now repeat constructor.
  - destruct (Ascii.eqb x sep) eqn:Hx.
    + constructor; [exact Hcur | now apply IH].
    + apply IH. rewrite char_in_app, Hcur. cbn. now rewrite Hx.
Qed.

Lemma string_of_list_ascii_app (a b : list ascii) :
  string_of_list_ascii (a ++ b)
  = string_of_list_ascii a ++ string_of_list_ascii b.
Proof.
  induction a as [|x a IH]; [reflexivity|]. cbn. now rewrite IH.
Qed.

(** ** What the expression of [strptime] matches *)

Lemma match_seq_inv (p : list cls) (l m r : list ascii) :
  match_seq p l = Some (m, r) ->
  l = (m ++ r)%list /\ Forall2 (fun k c => cls_match k c = true) p m.
Proof.
  revert l m r. induction p as [|k p IH]; intros l m r; cbn [match_seq].
  - intros [= <- <-]. split; [reflexivity | constructor].
  - destruct l as [|c l]; [discriminate|].
    destruct (cls_match k c) eqn:Hk; [|discriminate].
    destruct (match_seq p l) as [[m' r']|] eqn:Hm; [|discriminate].
    intros [= <- <-]. destruct (IH l m' r' Hm) as [-> Hall].
    split; [reflexivity | now constructor].
Qed.

Lemma match_alts_inv {A : Type} (alts : list (list cls)) (l : list ascii)
  (k : list ascii -> list ascii -> option A) (a : A) :
  match_alts alts l k = Some a ->
  exists p m r, In p alts /\ match_seq p l = Some (m, r) /\ k m r = Some a.
Proof.
  induction alts as [|p alts IH]; cbn [match_alts]; [discriminate|].
  intros H.
  assert (Hrest : match_alts alts l k = Some a ->
                  exists p0 m r,
                    In p0 (p :: alts) /\ match_seq p0 l = Some (m, r)
                    /\ k m r = Some a).
  { intros H'. destruct (IH H') as (p0 & m & r & Hin & Hm & Hk).
    exists p0, m, r. repeat split; auto. now right. }
  destruct (match_seq p l) as [[m r]|] eqn:Hm; [|now apply Hrest].
  destruct (k m r) as [a'|] eqn:Hk; [|now apply Hrest].
  injection H as <-. exists p, m, r. repeat split; auto. now left.
Qed.

Lemma matched_without_dash (p : list cls) (m : list ascii) :
  Forall no_dash_cls p ->
  Forall2 (fun k c => cls_match k c = true) p m ->
  Forall (fun c => Ascii.eqb c "-" = false) m.
Proof.
  intros Hp Hm. induction Hm as [|k c p m Hkc _ IH]; [constructor|].
  apply Forall_cons_iff in Hp as [Hk Hp]. constructor; [|now apply IH].
  destruct (Ascii.eqb_spec c "-") as [->|]; [|reflexivity].
  unfold no_dash_cls in Hk. congruence.
Qed.

Lemma alternatives_without_dash :
  Forall (Forall no_dash_cls) re_Y /\ Forall (Forall no_dash_cls) re_m
  /\ Forall (Forall no_dash_cls) re_d.
Proof. repeat split; repeat constructor. Qed.

Lemma alt_matched_without_dash (alts : list (list cls)) (p : list cls)
  (l m r : list ascii) :
  Forall (Forall no_dash_cls) alts -> In p alts ->
  match_seq p l = Some (m, r) ->
  l = (m ++ r)%list /\ Forall (fun c => Ascii.eqb c "-" = false) m.
Proof.
  intros Halts Hin Hm. apply match_seq_inv in Hm as [-> Hall].
  split; [reflexivity|]. rewrite Forall_forall in Halts.
  eapply matched_without_dash; [apply Halts, Hin | exact Hall].
Qed.

Lemma dash_matched (l m r : list ascii) :
  match_seq [Lit "-"] l = Some (m, r) -> l = "-"%char :: r.
Proof.
  cbn [match_seq]. destruct l as [|c l]; [discriminate|].
  cbn [cls_match]. destruct (Ascii.eqb_spec c "-") as [->|]; [|discriminate].
  now intros [= <- <-].
Qed.

Lemma count_char_list (c : ascii) (s : string) :
  count_char c s
  = List.length (filter (fun x => Ascii.eqb x c) (list_ascii_of_string s)).
Proof.
  induction s as [|x s IH]; [reflexivity|].
  cbn [count_char list_ascii_of_string filter]. rewrite IH.
  now destruct (Ascii.eqb x c).
Qed.

Lemma filter_none {A : Type} (f : A -> bool) (l : list A) :
  Forall (fun x => f x = false) l -> filter f l = [].
Proof.
  induction 1 as [|x l Hx _ IH]; [reflexivity|].
  cbn [filter]. now rewrite Hx.
Qed.

(** A date [strptime] accepts has exactly two dashes. *)
Lemma strptime_two_dashes (d : string) (dt : date) :
  strptime d = Ok dt -> count_char "-" d = 2.
Proof.
  unfold strptime.
  destruct (re_match_Ymd (list_ascii_of_string d)) as [[dt' rest]|] eqn:Hre;
    [|discriminate].
  destruct rest as [|c rest]; [|discriminate]. intros _.
  destruct alternatives_without_dash as (HY & Hm & Hd).
  unfold re_match_Ymd in Hre.
  apply match_alts_inv in Hre as (pY & tY & r1 & HinY & HmY & Hre).
  destruct (match_seq [Lit "-"] r1) as [[x1 r2]|] eqn:Hd1; [|discriminate].
  apply match_alts_inv in Hre as (pm & tm & r3 & Hinm & Hmm & Hre).
  destruct (match_seq [Lit "-"] r3) as [[x2 r4]|] eqn:Hd2; [|discriminate].
  apply match_alts_inv in Hre as (pd & td & r5 & Hind & Hmd & Hre).
  injection Hre as _ ->.
  apply (alt_matched_without_dash re_Y) in HmY as [HlY HfY]; [|assumption..].
  apply (alt_matched_without_dash re_m) in Hmm as [Hlm Hfm]; [|assumption..].
  apply (alt_matched_without_dash re_d) in Hmd as [Hld Hfd]; [|assumption..].
  apply dash_matched in Hd1, Hd2.
  rewrite count_char_list, HlY, Hd1, Hlm, Hd2, Hld, app_nil_r.
  rewrite filter_app. cbn [filter Ascii.eqb Bool.eqb].
  rewrite filter_app. cbn [filter Ascii.eqb Bool.eqb].
  rewrite (filter_none _ _ HfY), (filter_none _ _ Hfm), (filter_none _ _ Hfd).
  reflexivity.
Qed.

(** ** The dates [strptime] accepts are the calendar dates *)

Lemma digit_cases (c : ascii) : is_digit c = true -> In c digit_chars.
Proof.
  destruct c as [[] [] [] [] [] [] [] []]; intros H;
    first [discriminate H | cbn; repeat (first [left; reflexivity | right])].
Qed.

Lemma digit_val_bounds (c : ascii) :
  is_digit c = true -> (0 <= digit_val c <= 9)%Z.
Proof.
  unfold is_digit, digit_val. intros [H1 H2]%andb_true_iff.
  apply Nat.leb_le in H1, H2. lia.
Qed.

Lemma rng_digit (lo hi c : ascii) :
  is_digit lo = true -> is_digit hi = true ->
  cls_match (Rng lo hi) c = true -> is_digit c = true.
Proof.
  unfold is_digit, cls_match.
  intros [L1 L2]%andb_true_iff [H1 H2]%andb_true_iff [C1 C2]%andb_true_iff.
  apply Nat.leb_le in L1, L2, H1, H2, C1, C2.
  apply andb_true_iff. split; apply Nat.leb_le; lia.
Qed.

Lemma cls_plain_char (k : cls) (c : ascii) :
  cls_plain k = true -> cls_match k c = true -> In c blank_digits.
Proof.
  destruct k as [x|lo hi]; cbn [cls_plain cls_match].
  - intros Hx Hc. apply Ascii.eqb_eq in Hc as ->.
    apply existsb_exists in Hx as (x' & Hin & Heq).
    now apply Ascii.eqb_eq in Heq as ->.
  - intros [Hlo Hhi]%andb_true_iff Hc. right.
    apply digit_cases. now apply (rng_digit lo hi).
Qed.

Lemma matched_plain (p : list cls) (m : list ascii) :
  forallb cls_plain p = true ->
  Forall2 (fun k c => cls_match k c = true) p m ->
  Forall (fun c => In c blank_digits) m /\ List.length m = List.length p.
Proof.
  intros Hp Hm. induction Hm as [|k c p m Hkc _ IH]; [now split|].
  cbn [forallb] in Hp. apply andb_true_iff in Hp as [Hk Hp].
  destruct (IH Hp) as [Hall Hlen]. split.
  - constructor; [now apply (cls_plain_char k) | exact Hall].
  - cbn [List.length]. now rewrite Hlen.
Qed.

Lemma in_texts_over (cs : list ascii) (l : list ascii) :
  Forall (fun c => In c cs) l ->
  List.length l = 1 \/ List.length l = 2 ->
  In (string_of_list_ascii l) (texts_over cs).
Proof.
  intros Hall Hlen. unfold texts_over. apply in_or_app.
  destruct l as [|a [|b [|c l]]]; cbn [List.length] in Hlen;
    try (destruct Hlen; discriminate).
  - left. apply Forall_cons_iff in Hall as [Ha _].
    apply in_map_iff. now exists a.
  - right. apply Forall_cons_iff in Hall as [Ha Hall].
    apply Forall_cons_iff in Hall as [Hb _].
    apply in_flat_map. exists a. split; [exact Ha|].
    apply in_map_iff. now exists b.
Qed.

Lemma match_seq_exact (p : list cls) (m : list ascii) :
  Forall2 (fun k c => cls_match k c = true) p m ->
  match_seq p m = Some (m, []).
Proof.
  induction 1 as [|k c p m Hkc _ IH]; [reflexivity|].
  cbn [match_seq]. now rewrite Hkc, IH.
Qed.

(** The text an alternative has matched is one of the texts the
    alternatives fit. *)
Lemma alt_matched_within (alts : list (list cls)) (texts : list string)
  (p : list cls) (l m r : list ascii) :
  forallb (forallb cls_plain) alts = true ->
  forallb (fun p => (List.length p =? 1)%nat || (List.length p =? 2)%nat) alts
  = true ->
  alts_within alts texts = true ->
  In p alts -> match_seq p l = Some (m, r) ->
  l = (m ++ r)%list /\ In (string_of_list_ascii m) texts.
Proof.
  intros Hplain Hlens Hwithin Hin Hm.
  apply match_seq_inv in Hm as [-> Hall]. split; [reflexivity|].
  unfold alts_within in Hwithin.
  rewrite forallb_forall in Hplain, Hlens, Hwithin.
  destruct (matched_plain p m (Hplain p Hin) Hall) as [Hchars Hlen].
  assert (Hl : List.length m = 1 \/ List.length m = 2).
  { rewrite Hlen. specialize (Hlens p Hin).
    apply orb_true_iff in Hlens as [H|H]; apply Nat.eqb_eq in H; auto. }
  assert (Htext := in_texts_over blank_digits m Hchars Hl).
  specialize (Hwithin p Hin). rewrite forallb_forall in Hwithin.
  specialize (Hwithin _ Htext).
  rewrite list_ascii_of_string_of_list_ascii in Hwithin.
  unfold fits in Hwithin. rewrite (match_seq_exact p m Hall) in Hwithin.
  cbn [implb] in Hwithin.
  apply existsb_exists in Hwithin as (x & Hx & Heq).
  now apply String.eqb_eq in Heq as ->.
Qed.

Lemma month_matched (p : list cls) (l m r : list ascii) :
  In p re_m -> match_seq p l = Some (m, r) ->
  l = (m ++ r)%list /\ In (string_of_list_ascii m) month_texts.
Proof. apply alt_matched_within; vm_compute; reflexivity. Qed.

Lemma day_matched (p : list cls) (l m r : list ascii) :
  In p re_d -> match_seq p l = Some (m, r) ->
  l = (m ++ r)%list /\ In (string_of_list_ascii m) day_texts.
Proof. apply alt_matched_within; vm_compute; reflexivity. Qed.

Lemma year_matched (p : list cls) (l m r : list ascii) :
  In p re_Y -> match_seq p l = Some (m, r) ->
  l = (m ++ r)%list /\
  exists a b c e,
    m = [a; b; c; e] /\ is_digit a = true /\ is_digit b = true
    /\ is_digit c = true /\ is_digit e = true.
Proof.
  intros [<-|[]] Hm. apply match_seq_inv in Hm as [-> Hall].
  split; [reflexivity|].
  inversion Hall as [|k1 a p1 m1 Ha H1]; subst.
  inversion H1 as [|k2 b p2 m2 Hb H2]; subst.
  inversion H2 as [|k3 c p3 m3 Hc H3]; subst.
  inversion H3 as [|k4 e p4 m4 He H4]; subst.
  inversion H4; subst. now exists a, b, c, e.
Qed.

Lemma year_value (a b c e : ascii) :
  is_digit a = true -> is_digit b = true -> is_digit c = true ->
  is_digit e = true ->
  int_of [a; b; c; e]
  = numeral_value (String a (String b (String c (String e EmptyString)))) /\
  (0 <= int_of [a; b; c; e] <= 9999)%Z.
Proof.
  intros Ha Hb Hc He. unfold int_of. cbn [fold_left].
  rewrite Ha, Hb, Hc, He.
  apply digit_val_bounds in Ha, Hb, Hc, He.
  cbn [numeral_value String.length].
  change (10 ^ Z.of_nat 3)%Z with 1000%Z. change (10 ^ Z.of_nat 2)%Z with 100%Z.
  change (10 ^ Z.of_nat 1)%Z with 10%Z. change (10 ^ Z.of_nat 0)%Z with 1%Z.
  lia.
Qed.

(** The fields of the two lists, read as [strptime] reads them *)
Lemma month_texts_spec (m : string) :
  In m month_texts ->
  numeral 1 2 m = true /\ no_dash m /\
  int_of (list_ascii_of_string m) = numeral_value m /\
  (1 <= numeral_value m <= 12)%Z.
Proof.
  assert (H : forallb (fun m => numeral 1 2 m && negb (char_in "-" m)
                                && (int_of (list_ascii_of_string m)
                                    =? numeral_value m)%Z
                                && (1 <=? numeral_value m)%Z
                                && (numeral_value m <=? 12)%Z)
                      month_texts = true) by (vm_compute; reflexivity).
  rewrite forallb_forall in H. intros Hin. specialize (H m Hin).
  apply andb_true_iff in H as [H H5]. apply andb_true_iff in H as [H H4].
  apply andb_true_iff in H as [H H3]. apply andb_true_iff in H as [H1 H2].
  apply negb_true_iff in H2. apply Z.eqb_eq in H3.
  apply Z.leb_le in H4, H5. now repeat split.
Qed.

Lemma day_texts_spec (dd : string) :
  In dd day_texts ->
  day_field dd = true /\ no_dash dd /\
  int_of (list_ascii_of_string dd) = numeral_value (day_digits dd) /\
  (1 <= numeral_value (day_digits dd) <= 31)%Z.
Proof.
  assert (H : forallb (fun dd => day_field dd && negb (char_in "-" dd)
                                 && (int_of (list_ascii_of_string dd)
                                     =? numeral_value (day_digits dd))%Z
                                 && (1 <=? numeral_value (day_digits dd))%Z
                                 && (numeral_value (day_digits dd) <=? 31)%Z)
                      day_texts = true) by (vm_compute; reflexivity).
  rewrite forallb_forall in H. intros Hin. specialize (H dd Hin).
  apply andb_true_iff in H as [H H5]. apply andb_true_iff in H as [H H4].
  apply andb_true_iff in H as [H H3]. apply andb_true_iff in H as [H1 H2].
  apply negb_true_iff in H2. apply Z.eqb_eq in H3.
  apply Z.leb_le in H4, H5. now repeat split.
Qed.

Lemma all_digits_chars (s : string) :
  all_digits s = true ->
  Forall (fun c => In c digit_chars) (list_ascii_of_string s).
Proof.
  induction s as [|c s IH]; [constructor|]. cbn.
  intros [Hc Hs]%andb_true_iff. constructor; [now apply digit_cases | auto].
Qed.

Lemma length_list_ascii (s : string) :
  List.length (list_ascii_of_string s) = String.length s.
Proof. induction s as [|c s IH]; [reflexivity|]. cbn. now rewrite IH. Qed.

Lemma numeral_in_texts (s : string) :
  numeral 1 2 s = true -> In s (texts_over digit_chars).
Proof.
  unfold numeral. intros [[Hd H1]%andb_true_iff H2]%andb_true_iff.
  apply Nat.leb_le in H1, H2.
  rewrite <- (string_of_list_ascii_of_string s). apply in_texts_over.
  - now apply all_digits_chars.
  - rewrite length_list_ascii. lia.
Qed.

Lemma day_field_in_texts (s : string) :
  day_field s = true -> In s (texts_over blank_digits).
Proof.
  unfold day_field. intros [H|H]%orb_true_iff.
  - apply numeral_in_texts in H. unfold texts_over in *.
    apply in_app_or in H as [H|H]; apply in_or_app.
    + left. apply in_map_iff in H as (a & <- & Ha).
      apply in_map_iff. exists a. split; [reflexivity | now right].
    + right. apply in_flat_map in H as (a & Ha & H).
      apply in_map_iff in H as (b & <- & Hb).
      apply in_flat_map. exists a. split; [now right|].
      apply in_map_iff. exists b. split; [reflexivity | now right].
  - destruct s as [|b [|c [|x s]]]; try discriminate.
    apply andb_true_iff in H as [Hb Hc]. apply Ascii.eqb_eq in Hb as ->.
    apply (in_texts_over blank_digits [" "%char; c]); [|now right].
    constructor; [now left|]. constructor; [|constructor].
    right. now apply digit_cases.
Qed.

Lemma month_length_bound (y m : Z) : (month_length y m <= 31)%Z.
Proof.
  unfold month_length.
  destruct (Z.to_nat (m - 1)) as [|[|[|[|[|[|[|[|[|[|[|[|n]]]]]]]]]]]];
    cbn [nth]; try lia; [destruct (leap_year y); lia | destruct n; lia].
Qed.

Lemma leap_year_spec (y : Z) : is_leap y = leap_year y.
Proof.
  unfold is_leap, leap_year.
  destruct (y mod 400 =? 0)%Z eqn:H400; destruct (y mod 4 =? 0)%Z eqn:H4;
    destruct (y mod 100 =? 0)%Z eqn:H100; try reflexivity; exfalso;
    rewrite ?Z.eqb_eq, ?Z.eqb_neq in *; Z.div_mod_to_equations; lia.
Qed.

Lemma days_in_month_spec (y m : Z) :
  (1 <= m <= 12)%Z -> days_in_month y m = month_length y m.
Proof.
  intros Hm. unfold days_in_month, month_length. rewrite leap_year_spec.
  assert (H : (m = 1 \/ m = 2 \/ m = 3 \/ m = 4 \/ m = 5 \/ m = 6 \/ m = 7
               \/ m = 8 \/ m = 9 \/ m = 10 \/ m = 11 \/ m = 12)%Z) by lia.
  repeat (destruct H as [->|H]; [reflexivity|]). now subst m.
Qed.

(** What the expression does on a year of four digits, on a month field
    followed by a dash, and on a day field at the end of the text *)
Lemma year_match {A : Type} (a b c e : ascii) (rest : list ascii)
  (k : list ascii -> list ascii -> option A) :
  is_digit a = true -> is_digit b = true -> is_digit c = true ->
  is_digit e = true ->
  match_alts re_Y (a :: b :: c :: e :: rest) k = k [a; b; c; e] rest.
Proof.
  intros Ha Hb Hc He. unfold re_Y. cbn [match_alts match_seq].
  change (cls_match (Rng "0" "9") a) with (is_digit a).
  change (cls_match (Rng "0" "9") b) with (is_digit b).
  change (cls_match (Rng "0" "9") c) with (is_digit c).
  change (cls_match (Rng "0" "9") e) with (is_digit e).
  rewrite Ha, Hb, Hc, He. now destruct (k [a; b; c; e] rest).
Qed.

Lemma dash_match (r : list ascii) :
  match_seq [Lit "-"] ("-"%char :: r) = Some (["-"%char], r).
Proof. reflexivity. Qed.

Lemma month_match {A : Type} (m : string) (rest : list ascii)
  (K k' : list ascii -> list ascii -> option A) :
  (forall mm r3,
      K mm r3 = match match_seq [Lit "-"] r3 with
                | Some (_, r4) => k' mm r4
                | None => None
                end) ->
  In m month_texts ->
  match_alts re_m (list_ascii_of_string m ++ "-"%char :: rest) K
  = k' (list_ascii_of_string m) rest.
Proof.
  intros HK Hin. vm_compute in Hin.
  repeat (destruct Hin as [<-|Hin];
          [cbv; rewrite ?HK; cbv; now destruct (k' _ rest)|]).
  contradiction.
Qed.

Lemma day_match {A : Type} (dd : string) (g : list ascii -> A) :
  In dd day_texts ->
  match_alts re_d (list_ascii_of_string dd) (fun d r5 => Some (g d, r5))
  = Some (g (list_ascii_of_string dd), []).
Proof.
  intros Hin. vm_compute in Hin.
  repeat (destruct Hin as [<-|Hin]; [reflexivity|]).
  contradiction.
Qed.

Lemma list_ascii_of_string_app (a b : string) :
  list_ascii_of_string (a ++ b)
  = (list_ascii_of_string a ++ list_ascii_of_string b)%list.
Proof. induction a as [|x a IH]; [reflexivity|]. cbn. now rewrite IH. Qed.

Lemma split_three (d y m dd : string) :
  split "-" d = [y; m; dd] ->
  d = date_str y m dd /\ no_dash y /\ no_dash m /\ no_dash dd.
Proof.
  unfold split. intros Hs.
  assert (Hcat := concat_split_from "-" EmptyString d).
  assert (Hpieces := split_from_pieces "-" EmptyString d eq_refl).
  rewrite Hs in Hcat, Hpieces.
  apply Forall_cons_iff in Hpieces as [Hy Hpieces].
  apply Forall_cons_iff in Hpieces as [Hm Hpieces].
  apply Forall_cons_iff in Hpieces as [Hd _].
  cbn in Hcat. now rewrite <- Hcat.
Qed.

Lemma numeral_four (y : string) :
  numeral 4 4 y = true ->
  exists a b c e,
    y = String a (String b (String c (String e EmptyString)))
    /\ is_digit a = true /\ is_digit b = true /\ is_digit c = true
    /\ is_digit e = true.
Proof.
  unfold numeral. intros [[Hd H1]%andb_true_iff H2]%andb_true_iff.
  destruct y as [|a [|b [|c [|e [|f y]]]]]; try discriminate.
  cbn in Hd. apply andb_true_iff in Hd as [Ha Hd].
  apply andb_true_iff in Hd as [Hb Hd]. apply andb_true_iff in Hd as [Hc Hd].
  apply andb_true_iff in Hd as [He _]. now exists a, b, c, e.
Qed.

(** A calendar date is accepted, and read as the date it denotes. *)
Lemma strptime_complete (d : string) (dt : date) :
  calendar_date_of d = Some dt -> strptime d = Ok dt.
Proof.
  unfold calendar_date_of.
  destruct (split "-" d) as [|y [|m [|dd [|x l]]]] eqn:Hs; try discriminate.
  destruct (split_three d y m dd Hs) as (-> & Dy & Dm & Dd).
  cbv zeta.
  destruct (numeral 4 4 y) eqn:Hy; [|discriminate].
  destruct (numeral 1 2 m) eqn:Hm; [|discriminate].
  destruct (day_field dd) eqn:Hdd; [|discriminate].
  destruct (1 <=? numeral_value y)%Z eqn:HY; [|discriminate].
  destruct (1 <=? numeral_value m)%Z eqn:HM1; [|discriminate].
  destruct (numeral_value m <=? 12)%Z eqn:HM2; [|discriminate].
  destruct (1 <=? numeral_value (day_digits dd))%Z eqn:HD1; [|discriminate].
  destruct (numeral_value (day_digits dd)
            <=? month_length (numeral_value y) (numeral_value m))%Z eqn:HD2;
    [|discriminate].
  cbn [andb]. intros [= <-].
  apply Z.leb_le in HY, HM1, HM2, HD1, HD2.
  assert (Hmt : In m month_texts).
  { apply filter_In. split; [now apply numeral_in_texts|].
    unfold month_field. rewrite Hm. cbn [andb].
    apply andb_true_iff. split; now apply Z.leb_le. }
  assert (Hdt : In dd day_texts).
  { apply filter_In. split; [now apply day_field_in_texts|].
    unfold day_of_month_field. rewrite Hdd. cbn [andb].
    apply andb_true_iff. split; apply Z.leb_le; [exact HD1|].
    assert (Hb := month_length_bound (numeral_value y) (numeral_value m)).
    lia. }
  destruct (numeral_four y Hy) as (a & b & c & e & -> & Ha & Hb & Hc & He).
  destruct (year_value a b c e Ha Hb Hc He) as [HvY HbY].
  destruct (month_texts_spec m Hmt) as (_ & _ & Hvm & _).
  destruct (day_texts_spec dd Hdt) as (_ & _ & Hvd & _).
  unfold strptime, date_str.
  change (list_ascii_of_string
            (String a (String b (String c (String e EmptyString)))
             ++ "-" ++ m ++ "-" ++ dd))
    with (a :: b :: c :: e :: "-"%char
            :: list_ascii_of_string (m ++ String "-" dd)).
  rewrite list_ascii_of_string_app.
  change (list_ascii_of_string (String "-" dd))
    with ("-"%char :: list_ascii_of_string dd).
  unfold re_match_Ymd.
  rewrite year_match by assumption. cbv beta.
  rewrite dash_match. cbv beta iota.
  rewrite (month_match m (list_ascii_of_string dd) _
             (fun mm r4 =>
                match_alts re_d r4
                  (fun d r5 =>
                     Some ({| year := int_of [a; b; c; e];
                              month := int_of mm; day := int_of d |}, r5))));
    [|intros mm r3; reflexivity | exact Hmt].
  rewrite (day_match dd (fun d => {| year := int_of [a; b; c; e];
                                     month := int_of (list_ascii_of_string m);
                                     day := int_of d |}) Hdt).
  rewrite HvY, Hvm, Hvd in *.
  unfold valid_date. cbn [year month day].
  rewrite days_in_month_spec by lia.
  replace (1 <=? _)%Z with true by (symmetry; apply Z.leb_le; lia).
  replace (_ <=? 9999)%Z with true by (symmetry; apply Z.leb_le; lia).
  replace (1 <=? numeral_value m)%Z with true by (symmetry; now apply Z.leb_le).
  replace (numeral_value m <=? 12)%Z with true
    by (symmetry; now apply Z.leb_le).
  replace (1 <=? numeral_value (day_digits dd))%Z with true
    by (symmetry; now apply Z.leb_le).
  replace (_ <=? month_length _ _)%Z with true
    by (symmetry; now apply Z.leb_le).
  reflexivity.
Qed.

(** A date [strptime] accepts is a calendar date, read as it denotes. *)
Lemma strptime_sound (d : string) (dt : date) :
  strptime d = Ok dt -> calendar_date_of d = Some dt.
Proof.
  unfold strptime.
  destruct (re_match_Ymd (list_ascii_of_string d)) as [[dt' rest]|] eqn:Hre;
    [|discriminate].
  destruct rest as [|x rest]; [|discriminate].
  destruct (valid_date dt') eqn:Hv; [|discriminate]. intros [= <-].
  unfold re_match_Ymd in Hre.
  apply match_alts_inv in Hre as (pY & tY & r1 & HinY & HmY & Hre).
  destruct (match_seq [Lit "-"] r1) as [[x1 r2]|] eqn:Hd1; [|discriminate].
  apply match_alts_inv in Hre as (pm & tm & r3 & Hinm & Hmm & Hre).
  destruct (match_seq [Lit "-"] r3) as [[x2 r4]|] eqn:Hd2; [|discriminate].
  apply match_alts_inv in Hre as (pd & td & r5 & Hind & Hmd & Hre).
  injection Hre as <- ->.
  apply (year_matched pY) in HmY
    as (HlY & a & b & c & e & -> & Ha & Hb & Hc & He);
    [|exact HinY].
  apply (month_matched pm) in Hmm as (Hlm & Hmt); [|exact Hinm].
  apply (day_matched pd) in Hmd as (Hld & Hdt); [|exact Hind].
  apply dash_matched in Hd1, Hd2.
  destruct (year_value a b c e Ha Hb Hc He) as [HvY HbY].
  destruct (month_texts_spec _ Hmt) as (Nm & Dm & Hvm & HM).
  destruct (day_texts_spec _ Hdt) as (Nd & Dd & Hvd & HD).
  rewrite list_ascii_of_string_of_list_ascii in Hvm, Hvd.
  set (y := String a (String b (String c (String e EmptyString)))) in *.
  set (m := string_of_list_ascii tm) in *.
  set (dd := string_of_list_ascii td) in *.
  assert (Hd : d = date_str y m dd).
  { rewrite <- (string_of_list_ascii_of_string d).
    rewrite HlY, Hd1, Hlm, Hd2, Hld, app_nil_r. unfold date_str, y, m, dd.
    cbn [app string_of_list_ascii]. rewrite string_of_list_ascii_app.
    reflexivity. }
  assert (Dy : no_dash y).
  { unfold no_dash, y. cbn [char_in].
    assert (Hdash : forall q, is_digit q = true -> Ascii.eqb q "-" = false).
    { intros q Hq. destruct (Ascii.eqb_spec q "-") as [->|]; [|reflexivity].
      discriminate Hq. }
    now rewrite !Hdash. }
  unfold calendar_date_of. rewrite Hd, (split_date_str y m dd Dy Dm Dd).
  cbv zeta.
  assert (Ny : numeral 4 4 y = true).
  { unfold numeral, y. cbn [all_digits String.length].
    now rewrite Ha, Hb, Hc, He. }
  unfold valid_date in Hv. cbn [year month day] in Hv.
  rewrite HvY, Hvm, Hvd in *.
  apply andb_true_iff in Hv as [Hv H6]. apply andb_true_iff in Hv as [Hv H5].
  apply andb_true_iff in Hv as [Hv H4]. apply andb_true_iff in Hv as [Hv H3].
  apply andb_true_iff in Hv as [H1 H2].
  rewrite days_in_month_spec in H6 by lia.
  now rewrite Ny, Nm, Nd, H1, H3, H4, H5, H6.
Qed.

(** [strptime] accepts exactly the calendar dates in the form
    [%Y-%m-%d] and reads each as the date it denotes; it refuses every
    other text with a [ValueError]. *)
Lemma strptime_spec (d : string) :
  strptime d = match calendar_date_of d with
               | Some dt => Ok dt
               | None => Raise ValueError
               end.
Proof.
  destruct (calendar_date_of d) as [dt|] eqn:Hc.
  - now apply strptime_complete.
  - destruct (strptime d) as [dt|ex] eqn:Hs.
    + apply strptime_sound in Hs. congruence.
    + f_equal. now apply (strptime_raises d).
Qed.

Lemma strptime_refuses (d : string) :
  calendar_date d = false <-> strptime d = Raise ValueError.
Proof.
  rewrite strptime_spec. unfold calendar_date.
  destruct (calendar_date_of d); split; congruence.
Qed.

Lemma strptime_accepts (d : string) :
  calendar_date d = true <-> exists dt, strptime d = Ok dt.
Proof.
  rewrite strptime_spec. unfold calendar_date.
  destruct (calendar_date_of d) as [dt|]; split; try congruence.
  - intros _. now exists dt.
  - intros [dt H]. discriminate.
Qed.

(** Padding the month and the day with a zero changes nothing for
    [strptime]. *)
Lemma zfill_field (m : string) :
  numeral 1 2 m = true ->
  numeral 1 2 (zfill 2 m) = true /\ day_field (zfill 2 m) = true /\
  day_field m = true /\
  numeral_value (zfill 2 m) = numeral_value m /\
  day_digits (zfill 2 m) = zfill 2 m /\ day_digits m = m /\
  no_dash m /\ no_dash (zfill 2 m).
Proof.
  assert (H : forallb (fun m => numeral 1 2 (zfill 2 m) && day_field (zfill 2 m)
                                && day_field m
                                && (numeral_value (zfill 2 m)
                                    =? numeral_value m)%Z
                                && (day_digits (zfill 2 m) =? zfill 2 m)%string
                                && (day_digits m =? m)%string
                                && negb (char_in "-" m)
                                && negb (char_in "-" (zfill 2 m)))
                      (filter (numeral 1 2) (texts_over digit_chars)) = true)
    by (vm_compute; reflexivity).
  rewrite forallb_forall in H. intros Hm.
  specialize (H m (proj2 (filter_In _ _ _) (conj (numeral_in_texts m Hm) Hm))).
  apply andb_true_iff in H as [H D2]. apply andb_true_iff in H as [H D1].
  apply andb_true_iff in H as [H G2]. apply andb_true_iff in H as [H G1].
  apply andb_true_iff in H as [H V]. apply andb_true_iff in H as [H F1].
  apply andb_true_iff in H as [H F2].
  repeat match goal with
         | E : negb _ = true |- _ => apply negb_true_iff in E
         | E : (_ =? _)%Z = true |- _ => apply Z.eqb_eq in E
         | E : (_ =? _)%string = true |- _ => apply String.eqb_eq in E
         end.
  now repeat split.
Qed.

Lemma strptime_padding (y m dd : string) :
  no_dash y -> numeral 1 2 m = true -> numeral 1 2 dd = true ->
  strptime (date_str y m dd) = strptime (date_str y (zfill 2 m) (zfill 2 dd)).
Proof.
  intros Dy Hm Hdd.
  destruct (zfill_field m Hm) as (Nm & _ & _ & Vm & _ & _ & Dm & Dm').
  destruct (zfill_field dd Hdd) as (_ & Fd' & Fd & Vd & Gd' & Gd & Dd & Dd').
  rewrite !strptime_spec. unfold calendar_date_of.
  rewrite !split_date_str by assumption. cbv zeta.
  now rewrite Nm, Hm, Fd, Fd', Gd, Gd', Vm, Vd.
Qed.

Lemma strptime_numerals (d : string) (dt : date) :
  strptime d = Ok dt ->
  exists y m dd,
    d = date_str y m dd /\ no_dash y /\ no_dash m /\ no_dash dd /\
    numeral 4 4 y = true /\ numeral 1 2 m = true /\ day_field dd = true.
Proof.
  intros H. apply strptime_sound in H. unfold calendar_date_of in H.
  destruct (split "-" d) as [|y [|m [|dd [|x l]]]] eqn:Hs; try discriminate.
  destruct (split_three d y m dd Hs) as (-> & Dy & Dm & Dd).
  cbv zeta in H.
  destruct (numeral 4 4 y) eqn:Ny; [|discriminate].
  destruct (numeral 1 2 m) eqn:Nm; [|discriminate].
  destruct (day_field dd) eqn:Nd; [|discriminate].
  now exists y, m, dd.
Qed.

Lemma all_digits_avoid (q : ascii) (s : string) :
  is_digit q = false -> all_digits s = true -> char_in q s = false.
Proof.
  intros Hq. induction s as [|c s IH]; [reflexivity|]. cbn.
  intros [Hc Hs]%andb_true_iff. rewrite (IH Hs), orb_false_r.
  destruct (Ascii.eqb_spec c q) as [->|]; [congruence | reflexivity].
Qed.

(** A numeral is a path component that leads nowhere else. *)
Lemma numeral_component (lo hi : nat) (s : string) :
  0 < lo -> numeral lo hi s = true -> component s /\ descending s.
Proof.
  unfold numeral. intros Hlo [[Hd H1]%andb_true_iff _]%andb_true_iff.
  apply Nat.leb_le in H1.
  assert (Hs : no_slash s) by now apply all_digits_avoid.
  repeat split; try exact Hs.
  - destruct s; [cbn in H1; lia | reflexivity].
  - intros ->. discriminate Hd.
Qed.

Lemma day_field_component (s : string) :
  day_field s = true -> component s /\ descending s.
Proof.
  unfold day_field. intros [H|H]%orb_true_iff.
  - apply (numeral_component 1 2); [lia | exact H].
  - destruct s as [|b [|c [|x s]]]; try discriminate.
    apply andb_true_iff in H as [Hb Hc]. apply Ascii.eqb_eq in Hb as ->.
    assert (Hs : no_slash (String " " (String c EmptyString))).
    { unfold no_slash. cbn.
      destruct (Ascii.eqb_spec c "/") as [->|];
        [discriminate Hc | reflexivity]. }
    repeat split; try exact Hs. discriminate.
Qed.

(** ** When the construction raises *)

Lemma build_ok_of_two_dashes (path row date base out : string) :
  count_char "-" date = 2 ->
  exists t, build_s3_cmd path row date base out = ret t.
Proof.
  intros Hc. assert (Hlen := length_split_from "-" EmptyString date).
  rewrite Hc in Hlen. unfold build_s3_cmd, split.
  destruct (split_from "-" EmptyString date) as [|y [|m [|d [|x l]]]];
    try discriminate Hlen.
  now eexists.
Qed.

Lemma for_dates_ok (p r base out : string) (dates : list string)
  (tasks : list task) :
  (forall d, In d dates -> count_char "-" d = 2) ->
  exists res, outcome (for_dates p r base out dates tasks) = Ok res.
Proof.
  revert tasks. induction dates as [|d dates IH]; intros tasks Hall;
    cbn [for_dates]; [now eexists|].
  destruct (build_ok_of_two_dashes p r d base out (Hall d (in_eq _ _)))
    as [t ->].
  rewrite bind_ret. apply IH. intros d' Hd'. apply Hall. now right.
Qed.

Lemma short_dates_of_ok_inv (dates shorts : list string) :
  outcome (short_dates_of dates) = Ok shorts ->
  forall d, In d dates -> exists dt, strptime d = Ok dt.
Proof.
  revert shorts. induction dates as [|d0 dates IH]; intros shorts;
    cbn [short_dates_of]; [easy|].
  rewrite outcome_bind. unfold lift at 1. cbn [outcome snd].
  destruct (strptime d0) as [dt|ex] eqn:Hd0; [|discriminate].
  rewrite outcome_bind.
  destruct (outcome (short_dates_of dates)) as [sh|ex] eqn:Hs; [|discriminate].
  intros _ d [<-|Hd]; [now exists dt | now apply (IH sh)].
Qed.

Lemma short_dates_of_raise_inv (dates : list string) (ex : exn) :
  outcome (short_dates_of dates) = Raise ex ->
  exists d, In d dates /\ strptime d = Raise ValueError.
Proof.
  revert ex. induction dates as [|d0 dates IH]; intros ex;
    cbn [short_dates_of]; [discriminate|].
  rewrite outcome_bind. unfold lift at 1. cbn [outcome snd].
  destruct (strptime d0) as [dt|ex0] eqn:Hd0.
  - rewrite outcome_bind.
    destruct (outcome (short_dates_of dates)) as [sh|ex1] eqn:Hs;
      [discriminate|].
    intros _. destruct (IH ex1 eq_refl) as (d & Hd & Hbad).
    exists d. split; [now right | exact Hbad].
  - intros _. exists d0. split; [now left|].
    now rewrite (strptime_raises d0 ex0 Hd0) in Hd0.
Qed.

Lemma tile_body_raise_inv (run : list string -> CompletedProcess)
  (p r s e base out : string) (tasks : list task) (ex : exn) :
  outcome (tile_body run p r s e base out tasks) = Raise ex ->
  exists dates d,
    outcome (list_available_dates run p r base s e) = Ok dates /\
    In d dates /\ strptime d = Raise ValueError.
Proof.
  destruct (tile_body_form run p r s e base out tasks)
    as (t & dates & Heq & _ & ->).
  rewrite Heq. cbn [outcome snd].
  destruct dates as [|d0 ds]; [discriminate|].
  destruct (outcome (short_dates_of (d0 :: ds))) as [sh|ex0] eqn:Hs;
    cbn [snd]; intros H; exists (d0 :: ds).
  - destruct (for_dates_ok p r base out (d0 :: ds) tasks) as [res Hres].
    + intros d Hd.
      destruct (short_dates_of_ok_inv _ _ Hs d Hd) as [dt Hdt].
      exact (strptime_two_dashes d dt Hdt).
    + unfold outcome at 1 in H. cbn [snd] in H. congruence.
  - destruct (short_dates_of_raise_inv _ _ Hs) as (d & Hd & Hbad).
    now exists d.
Qed.

Lemma for_tiles_raise_inv (run : list string -> CompletedProcess)
  (s e base out : string) (l : list (string * string)) (tasks : list task)
  (ex : exn) :
  outcome (for_tiles run l s e base out tasks) = Raise ex ->
  exists p r dates d,
    In (p, r) l /\
    outcome (list_available_dates run p r base s e) = Ok dates /\
    In d dates /\ strptime d = Raise ValueError.
Proof.
  revert tasks. induction l as [|[p r] l IH]; intros tasks; cbn [for_tiles];
    [discriminate|].
  rewrite outcome_bind. cbn [fst snd].
  destruct (outcome (tile_body run p r s e base out tasks)) as [tasks'|ex0]
    eqn:Hb.
  - intros H. destruct (IH _ H) as (p' & r' & dates & d & Hin & Hrest).
    exists p', r', dates, d. split; [now right | exact Hrest].
  - intros _. destruct (tile_body_raise_inv run p r s e base out tasks ex0 Hb)
      as (dates & d & Hrest).
    exists p, r, dates, d. split; [now left | exact Hrest].
Qed.

Lemma in_tiles_inv (paths rows : list string) (p r : string) :
  In (p, r) (tiles paths rows) -> In p paths /\ In r rows.
Proof.
  unfold tiles. intros (p' & Hp & Hin)%in_flat_map.
  apply in_map_iff in Hin as (r' & [= -> ->] & Hr). now split.
Qed.

(** ** The tile at which the construction stops *)

Lemma tile_body_events_extend (run : list string -> CompletedProcess)
  (p r s e base out : string) (tasks : list task) :
  events (tile_body run p r s e base out tasks)
  = tile_trace run s e base out (p, r).
Proof. now rewrite tile_body_extend. Qed.

Lemma tile_body_accepted (run : list string -> CompletedProcess)
  (p r s e base out : string) (tasks res : list task) :
  outcome (tile_body run p r s e base out tasks) = Ok res ->
  forall d, In d (discovered run s e base (p, r)) ->
            exists dt, strptime d = Ok dt.
Proof.
  intros Hb d Hd. unfold discovered in Hd. cbn [fst snd] in Hd.
  destruct (tile_body_form run p r s e base out tasks)
    as (t & dates & Heq & _ & Hform).
  rewrite Heq in Hd. cbn [outcome snd] in Hd. rewrite Hform in Hb.
  destruct dates as [|d0 ds]; [easy|].
  destruct (outcome (short_dates_of (d0 :: ds))) as [sh|ex] eqn:Hs;
    [|discriminate].
  exact (short_dates_of_ok_inv _ _ Hs d Hd).
Qed.

(** The turn of a tile with a date that [strptime] refuses: the scan is
    announced, the tile is listed, and the exception is raised before
    the notice of the dates found is printed. *)
Lemma tile_body_stops (run : list string -> CompletedProcess)
  (p r s e base out : string) (tasks : list task) (ex : exn) :
  outcome (tile_body run p r s e base out tasks) = Raise ex ->
  ex = ValueError /\
  (exists d, In d (discovered run s e base (p, r))
             /\ strptime d = Raise ValueError) /\
  events (tile_body run p r s e base out tasks)
  = Print (Scanning p r)
    :: events (list_available_dates run p r base s e).
Proof.
  intros Hb.
  split; [exact (tile_body_raises run p r s e base out tasks ex Hb)|].
  destruct (tile_body_raise_inv run p r s e base out tasks ex Hb)
    as (dates & d & Hdates & Hd & Hbad).
  split.
  - exists d. unfold discovered. cbn [fst snd]. now rewrite Hdates.
  - destruct (tile_body_form run p r s e base out tasks)
      as (t & dates' & Heq & _ & Hform).
    rewrite Heq in Hdates |- *. cbn [outcome snd] in Hdates.
    injection Hdates as ->. rewrite Hform.
    destruct dates as [|d0 ds]; [easy|].
    now rewrite (short_dates_of_refused (d0 :: ds) d Hd Hbad).
Qed.

Lemma for_tiles_stops (run : list string -> CompletedProcess)
  (s e base out : string) (l : list (string * string)) (tasks : list task)
  (ex : exn) :
  outcome (for_tiles run l s e base out tasks) = Raise ex ->
  exists before p r after d,
    l = (before ++ (p, r) :: after)%list /\
    Forall (fun tile => forall x, In x (discovered run s e base tile) ->
                                  exists dt, strptime x = Ok dt) before /\
    In d (discovered run s e base (p, r)) /\ strptime d = Raise ValueError /\
    events (for_tiles run l s e base out tasks)
    = (flat_map (tile_trace run s e base out) before
       ++ Print (Scanning p r)
          :: events (list_available_dates run p r base s e))%list.
Proof.
  revert tasks. induction l as [|[p r] l IH]; intros tasks; cbn [for_tiles];
    [discriminate|].
  rewrite outcome_bind, events_bind. cbn [fst snd].
  destruct (outcome (tile_body run p r s e base out tasks)) as [tasks'|ex0]
    eqn:Hb.
  - intros H.
    destruct (IH _ H)
      as (before & p' & r' & after & d & -> & Hacc & Hd & Hbad & Hev).
    exists ((p, r) :: before), p', r', after, d.
    split; [reflexivity|]. split.
    + constructor; [|exact Hacc].
      exact (tile_body_accepted run p r s e base out tasks tasks' Hb).
    + split; [exact Hd|]. split; [exact Hbad|].
      rewrite Hev, tile_body_events_extend. cbn [flat_map].
      now rewrite <- app_assoc.
  - intros _.
    destruct (tile_body_stops run p r s e base out tasks ex0 Hb)
      as (_ & (d & Hd & Hbad) & Hev).
    exists [], p, r, l, d. split; [reflexivity|]. split; [constructor|].
    split; [exact Hd|]. split; [exact Hbad|].
    rewrite Hev. cbn [flat_map app]. now rewrite app_nil_r.
Qed.

(** ** A date that [strptime] refuses *)

Lemma in_tiles (paths rows : list string) (p r : string) :
  In p paths -> In r rows -> In (p, r) (tiles paths rows).
Proof.
  intros Hp Hr. unfold tiles. apply in_flat_map. exists p.
  split; [exact Hp|]. now apply in_map.
Qed.

(** C9, as amended.  [strptime] accepts exactly the calendar dates in
    the form [%Y-%m-%d], a year of four digits and a month and a day of
    one or two digits (the day also of a blank and a digit) that name a
    day of the calendar; it reads each as the date it denotes and
    refuses every other text with a [ValueError].  A month or a day
    without its zero is read like the padded one.  If discovery returns,
    for a tile of the request, a date that is no calendar date in this
    form, the construction of the task list raises [ValueError]: a run
    exists, and every run ends with that [ValueError] on the trace of
    the construction alone, which holds no copy and ends with the scan
    and the listings of the first tile that has such a date, before the
    notice of that tile's dates is printed. *)
Theorem C9_refused_date_aborts_construction :
  (forall d,
      strptime d = match calendar_date_of d with
                   | Some dt => Ok dt
                   | None => Raise ValueError
                   end) /\
  (forall y m dd,
      no_dash y -> numeral 1 2 m = true -> numeral 1 2 dd = true ->
      strptime (date_str y m dd)
      = strptime (date_str y (zfill 2 m) (zfill 2 dd))) /\
  forall (run : list string -> CompletedProcess) (paths rows : list string)
         (s e base out : string) (multithread : bool) (max_workers : Z)
         (path row : string) (dates : list string) (d : string),
    In path paths -> In row rows ->
    outcome (list_available_dates run path row base s e) = Ok dates ->
    In d dates -> calendar_date d = false ->
    strptime d = Raise ValueError /\
    outcome (build_tasks run paths rows s e base out) = Raise ValueError /\
    download_dea_data run paths rows s e base out multithread max_workers
      (events (build_tasks run paths rows s e base out)) (Raise ValueError) /\
    (forall tr r,
        download_dea_data run paths rows s e base out multithread max_workers
          tr r ->
        r = Raise ValueError /\
        tr = events (build_tasks run paths rows s e base out) /\
        Forall (fun ev => is_copy ev = false) tr) /\
    exists before p' r' after d',
      tiles paths rows = (before ++ (p', r') :: after)%list /\
      Forall (fun tile => forall x, In x (discovered run s e base tile) ->
                                    calendar_date x = true) before /\
      In d' (discovered run s e base (p', r')) /\ calendar_date d' = false /\
      events (build_tasks run paths rows s e base out)
      = (flat_map (tile_trace run s e base out) before
         ++ Print (Scanning p' r')
            :: events (list_available_dates run p' r' base s e))%list.
Proof.
  split; [exact strptime_spec|]. split; [exact strptime_padding|].
  intros run paths rows s e base out multithread max_workers path row dates d
    Hp Hr Hdates Hd Hcal.
  assert (Hbad : strptime d = Raise ValueError) by now apply strptime_refuses.
  assert (Hloop : outcome (for_tiles run (tiles paths rows) s e base out [])
                  = Raise ValueError).
  { exact (for_tiles_refused run s e base out (tiles paths rows) []
             path row dates d (in_tiles paths rows path row Hp Hr)
             Hdates Hd Hbad). }
  assert (Hout : outcome (build_tasks run paths rows s e base out)
                 = Raise ValueError).
  { rewrite build_tasks_form. now rewrite Hloop. }
  assert (Hb : build_tasks run paths rows s e base out
               = (events (build_tasks run paths rows s e base out),
                  Raise ValueError)).
  { rewrite <- Hout. apply io_eta. }
  split; [exact Hbad|]. split; [exact Hout|].
  split; [now apply run_build_raises|]. split.
  - intros tr r Hrun.
    destruct Hrun as [t ex Hb'|t tasks Hm Hb'|t tasks Hm Hle Hb'
                      |t tasks st Hm Hlt Hb' Hsteps Hdone];
      rewrite Hb in Hb'; try discriminate.
    injection Hb' as <- <-. repeat split.
    apply build_tasks_no_copy.
  - destruct (for_tiles_stops run s e base out _ _ _ Hloop)
      as (before & p' & r' & after & d' & Htiles & Hacc & Hd' & Hbad' & Hev).
    exists before, p', r', after, d'. split; [exact Htiles|]. split.
    + revert Hacc. apply Forall_impl. intros tile Hall x Hx.
      now apply strptime_accepts, Hall.
    + split; [exact Hd'|]. split; [now apply strptime_refuses|].
      rewrite build_tasks_form, Hloop. exact Hev.
Qed.

Lemma C9_refused_date_witness :
  (In "7" ["7"] /\ In "80" ["80"] /\
   outcome (list_available_dates month13_run "7" "80" bucket
              "2025-01-01" "2026-01-01") = Ok ["2025-13-01"] /\
   In "2025-13-01" ["2025-13-01"] /\ calendar_date "2025-13-01" = false) /\
  (no_dash "2025" /\ numeral 1 2 "1" = true /\ numeral 1 2 "3" = true) /\
  strptime (date_str "2025" "1" "3")
  = strptime (date_str "2025" (zfill 2 "1") (zfill 2 "3")) /\
  strptime "2025-13-01" = Raise ValueError /\
  outcome (build_tasks month13_run ["7"] ["80"] "2025-01-01" "2026-01-01"
             bucket "./dea_data") = Raise ValueError /\
  download_dea_data month13_run ["7"] ["80"] "2025-01-01" "2026-01-01"
    bucket "./dea_data" true 4
    (events (build_tasks month13_run ["7"] ["80"] "2025-01-01" "2026-01-01"
               bucket "./dea_data")) (Raise ValueError) /\
  (forall tr r,
      download_dea_data month13_run ["7"] ["80"] "2025-01-01" "2026-01-01"
        bucket "./dea_data" true 4 tr r ->
      r = Raise ValueError /\
      tr = events (build_tasks month13_run ["7"] ["80"] "2025-01-01"
                     "2026-01-01" bucket "./dea_data") /\
      Forall (fun ev => is_copy ev = false) tr) /\
  exists before p' r' after d',
    tiles ["7"] ["80"] = (before ++ (p', r') :: after)%list /\
    Forall (fun tile =>
              forall x, In x (discovered month13_run "2025-01-01" "2026-01-01"
                                bucket tile) ->
                        calendar_date x = true) before /\
    In d' (discovered month13_run "2025-01-01" "2026-01-01" bucket (p', r')) /\
    calendar_date d' = false /\
    events (build_tasks month13_run ["7"] ["80"] "2025-01-01" "2026-01-01"
              bucket "./dea_data")
    = (flat_map (tile_trace month13_run "2025-01-01" "2026-01-01" bucket
                   "./dea_data") before
       ++ Print (Scanning p' r')
          :: events (list_available_dates month13_run p' r' bucket
                       "2025-01-01" "2026-01-01"))%list.
Proof.
  assert (H1 : In "7" ["7"]) by (now left).
  assert (H2 : In "80" ["80"]) by (now left).
  assert (H3 : outcome (list_available_dates month13_run "7" "80" bucket
                          "2025-01-01" "2026-01-01") = Ok ["2025-13-01"])
    by reflexivity.
  assert (H4 : In "2025-13-01" ["2025-13-01"]) by (now left).
  assert (H5 : calendar_date "2025-13-01" = false) by reflexivity.
  assert (H6 : no_dash "2025") by reflexivity.
  assert (H7 : numeral 1 2 "1" = true) by reflexivity.
  assert (H8 : numeral 1 2 "3" = true) by reflexivity.
  split; [repeat split; assumption|]. split; [repeat split; assumption|].
  split.
  - exact (proj1 (proj2 C9_refused_date_aborts_construction)
             "2025" "1" "3" H6 H7 H8).
  - exact (proj2 (proj2 C9_refused_date_aborts_construction)
             month13_run ["7"] ["80"] "2025-01-01" "2026-01-01" bucket
             "./dea_data" true 4%Z "7" "80" ["2025-13-01"] "2025-13-01"
             H1 H2 H3 H4 H5).
Defined.

(** C9 as stated fails on its second example: with a day prefix [1/],
    discovery returns [2025-01-1], whose day is not padded with a zero,
    yet [strptime] accepts it, the task list is built and the copy is
    run. *)
Lemma C9_counterexample_unpadded_day_accepted :
  outcome (list_available_dates loose_day_run "7" "80" bucket
             "2025-01-01" "2025-01-31") = Ok ["2025-01-1"] /\
  padded_calendar_date "2025-01-1" = false /\
  calendar_date "2025-01-1" = true /\
  strptime "2025-01-1" = Ok {| year := 2025; month := 1; day := 1 |} /\
  outcome (build_tasks loose_day_run ["7"] ["80"] "2025-01-01" "2025-01-31"
             bucket "./dea_data")
  = Ok [(["aws"; "s3"; "cp"; "s3://bucket/007/080/2025/01/1/";
          "./dea_data/7/80/2025/01/1"; "--recursive"; "--no-sign-request"],
         "s3://bucket/007/080/2025/01/1/")] /\
  exists tr,
    download_dea_data loose_day_run ["7"] ["80"] "2025-01-01" "2025-01-31"
      bucket "./dea_data" false 4 tr (Ok tt) /\
    Exists (fun ev => is_copy ev = true) tr.
Proof.
  split; [reflexivity|]. split; [reflexivity|]. split; [reflexivity|].
  split; [reflexivity|]. split; [reflexivity|].
  pose (c := build_tasks loose_day_run ["7"] ["80"] "2025-01-01" "2025-01-31"
               bucket "./dea_data").
  exists (events c ++ events (for_tasks loose_day_run 1 1 (built c)))%list.
  split.
  - exact (run_sequential loose_day_run ["7"] ["80"] "2025-01-01" "2025-01-31"
             bucket "./dea_data" false 4 (events c) (built c) eq_refl eq_refl).
  - vm_compute. do 8 apply Exists_cons_tl. now apply Exists_cons_hd.
Qed.

(** ** One visit per occurrence of a tile *)

Lemma count_row_tiles (p p' r : string) (rows : list string) :
  count_occ tile_eq_dec (map (fun r' => (p', r')) rows) (p, r)
  = if string_dec p' p then count_occ string_dec rows r else 0.
Proof.
  induction rows as [|r' rows IH]; cbn [map]; [now destruct (string_dec p' p)|].
  cbn [count_occ]. rewrite IH.
  destruct (tile_eq_dec (p', r') (p, r)) as [[= -> ->]|Hne].
  - destruct (string_dec p p); [|congruence].
    now destruct (string_dec r r).
  - destruct (string_dec p' p) as [->|]; [|reflexivity].
    destruct (string_dec r' r) as [->|]; [congruence | reflexivity].
Qed.

(** A tile is visited once for every pair of an occurrence of its path
    and an occurrence of its row. *)
Lemma count_tiles (paths rows : list string) (p r : string) :
  count_occ tile_eq_dec (tiles paths rows) (p, r)
  = count_occ string_dec paths p * count_occ string_dec rows r.
Proof.
  induction paths as [|p' paths IH]; [reflexivity|].
  unfold tiles in *. cbn [flat_map]. rewrite count_occ_app, IH, count_row_tiles.
  cbn [count_occ]. destruct (string_dec p' p); lia.
Qed.

Lemma count_flat_map {A B : Type}
  (decA : forall a a' : A, {a = a'} + {a <> a'})
  (decB : forall b b' : B, {b = b'} + {b <> b'})
  (f : A -> list B) (l : list A) (a : A) (b : B) :
  In b (f a) -> count_occ decA l a <= count_occ decB (flat_map f l) b.
Proof.
  intros Hin. induction l as [|x l IH]; [reflexivity|].
  cbn [flat_map count_occ]. rewrite count_occ_app.
  destruct (decA x a) as [->|]; [|lia].
  apply (count_occ_In decB) in Hin. lia.
Qed.

(** C10.  When the task list is built, the construction has visited the
    tiles of [paths] by [rows] in the order of the two loops, a tile as
    many times as the occurrences of its path times the occurrences of
    its row; the task list is the visits' tasks, one after the other, so
    that a task of a tile is in the list at least as many times as the
    tile is visited; and every entry of the list is executed: the
    sequential loop spawns the commands of the list in order, and in
    either mode (the pool having a worker) a complete run exists, and
    every complete run ends without an exception after spawning the
    commands of the list, each entry once, up to order. *)
Theorem C10_tasks_for_every_tile_occurrence
  (run : list string -> CompletedProcess) (paths rows : list string)
  (s e base out : string) (t : trace) (tasks : list task) :
  build_tasks run paths rows s e base out = (t, Ok tasks) ->
  scans t = tiles paths rows /\
  (forall p r,
      count_occ tile_eq_dec (tiles paths rows) (p, r)
      = count_occ string_dec paths p * count_occ string_dec rows r) /\
  tasks = flat_map (tile_tasks run s e base out) (tiles paths rows) /\
  (forall tile task,
      In task (tile_tasks run s e base out tile) ->
      count_occ tile_eq_dec (tiles paths rows) tile
      <= count_occ task_eq_dec tasks task) /\
  runs (events (for_tasks run 1 (List.length tasks) tasks)) = map fst tasks /\
  forall multithread max_workers,
    (multithread = true -> (0 < max_workers)%Z) ->
    (exists tr,
        download_dea_data run paths rows s e base out multithread max_workers
          tr (Ok tt)) /\
    forall tr r,
      download_dea_data run paths rows s e base out multithread max_workers
        tr r ->
      exists exec,
        tr = (t ++ exec)%list /\ r = Ok tt /\
        Permutation (runs exec) (map fst tasks).
Proof.
  intros Hbuild.
  destruct (build_tasks_ok run paths rows s e base out t tasks Hbuild)
    as (Htasks & Ht & _).
  split; [|split; [|split; [|split; [|split]]]].
  - rewrite Ht, scans_app, scans_tile_traces. apply app_nil_r.
  - intros p r. apply count_tiles.
  - exact Htasks.
  - intros tile task Hin. rewrite Htasks. now apply count_flat_map.
  - apply for_tasks_form.
  - intros multithread max_workers Hpool. split.
    + now apply download_exists with t tasks.
    + intros tr r Hrun.
      destruct (download_exec run paths rows s e base out multithread
                  max_workers t tasks tr r Hbuild Hpool Hrun)
        as (exec & -> & -> & Hr & _).
      now exists exec.
Qed.

Lemma C10_repeated_path_witness :
  twice_build = (events twice_build, Ok (built twice_build)) /\
  map local_destination (built twice_build)
  = ["./dea_data/7/80/2025/01/01"; "./dea_data/7/80/2025/01/03";
     "./dea_data/7/80/2025/01/01"; "./dea_data/7/80/2025/01/03"] /\
  scans (events twice_build) = tiles ["7"; "7"] ["80"] /\
  (forall p r,
      count_occ tile_eq_dec (tiles ["7"; "7"] ["80"]) (p, r)
      = count_occ string_dec ["7"; "7"] p * count_occ string_dec ["80"] r) /\
  built twice_build
  = flat_map (tile_tasks january_run "2025-01-01" "2025-01-03" bucket "./dea_data")
             (tiles ["7"; "7"] ["80"]) /\
  (forall tile task,
      In task (tile_tasks january_run "2025-01-01" "2025-01-03" bucket
                 "./dea_data" tile) ->
      count_occ tile_eq_dec (tiles ["7"; "7"] ["80"]) tile
      <= count_occ task_eq_dec (built twice_build) task) /\
  runs (events (for_tasks january_run 1 (List.length (built twice_build))
                  (built twice_build)))
  = map fst (built twice_build) /\
  forall multithread max_workers,
    (multithread = true -> (0 < max_workers)%Z) ->
    (exists tr,
        download_dea_data january_run ["7"; "7"] ["80"] "2025-01-01"
          "2025-01-03" bucket "./dea_data" multithread max_workers tr
          (Ok tt)) /\
    forall tr r,
      download_dea_data january_run ["7"; "7"] ["80"] "2025-01-01" "2025-01-03"
        bucket "./dea_data" multithread max_workers tr r ->
      exists exec,
        tr = (events twice_build ++ exec)%list /\ r = Ok tt /\
        Permutation (runs exec) (map fst (built twice_build)).
Proof.
  assert (Hb : twice_build = (events twice_build, Ok (built twice_build)))
    by reflexivity.
  split; [exact Hb|]. split; [reflexivity|].
  exact (C10_tasks_for_every_tile_occurrence january_run ["7"; "7"] ["80"]
           "2025-01-01" "2025-01-03" bucket "./dea_data"
           (events twice_build) (built twice_build) Hb).
Defined.

(** * Further properties of the program *)

(** ** Discovery on any store *)


(** X3.  A range whose end is before its start matches nothing:
    discovery returns the empty list, not an error. *)
Theorem X3_inverted_range_is_empty
  (run : list string -> CompletedProcess) (path row base s e : string) :
  (s <=? e) = false ->
  outcome (list_available_dates run path row base s e) = Ok [].
Proof.
  intros Hse.
  destruct (list_available_dates_spec run path row base s e) as (t & -> & _).
  cbn [outcome snd].
  destruct (years_found run (tile_prefix path row base) s e) as [|d l] eqn:Hl;
    [reflexivity|].
  assert (Hd : In d (years_found run (tile_prefix path row base) s e))
    by (rewrite Hl; apply in_eq).
  apply years_found_sound in Hd as [_ Hr].
  unfold in_range in Hr. apply andb_true_iff in Hr as [Hs He].
  rewrite (leb_trans s d e Hs He) in Hse. discriminate.
Qed.

Lemma X3_inverted_range_witness :
  ("2025-01-03" <=? "2025-01-01") = false /\
  outcome (list_available_dates january_run "7" "80" bucket
             "2025-01-03" "2025-01-01") = Ok [].
Proof.
  split; [reflexivity|].
  apply (X3_inverted_range_is_empty january_run "7" "80" bucket
           "2025-01-03" "2025-01-01").
  reflexivity.
Defined.

Lemma year_kept_wider (s e s' e' y : string) :
  (s' <=? s) = true -> (e <=? e') = true ->
  year_kept s e y = true -> year_kept s' e' y = true.
Proof.
  unfold year_kept. intros Hs He [H1 H2]%andb_true_iff.
  apply (take_leb 4) in Hs, He.
  now rewrite (leb_trans _ _ _ Hs H1), (leb_trans _ _ _ H2 He).
Qed.

Lemma month_kept_wider (s e s' e' y m : string) :
  (s' <=? s) = true -> (e <=? e') = true ->
  month_kept s e y m = true -> month_kept s' e' y m = true.
Proof.
  unfold month_kept. intros Hs He [H1 H2]%andb_true_iff.
  apply (take_leb 7) in Hs, He.
  now rewrite (leb_trans _ _ _ Hs H1), (leb_trans _ _ _ H2 He).
Qed.

Lemma in_range_wider (s e s' e' d : string) :
  (s' <=? s) = true -> (e <=? e') = true ->
  in_range s e d = true -> in_range s' e' d = true.
Proof.
  unfold in_range. intros Hs He [H1 H2]%andb_true_iff.
  now rewrite (leb_trans _ _ _ Hs H1), (leb_trans _ _ _ H2 He).
Qed.

(** X4.  On the same store, a wider range finds every date a narrower
    one finds: the filters on years and months never hide a date that
    the wider range admits. *)
Theorem X4_wider_range_finds_more
  (run : list string -> CompletedProcess) (path row base s e s' e' : string) :
  (s' <=? s) = true -> (e <=? e') = true ->
  exists dates dates',
    outcome (list_available_dates run path row base s e) = Ok dates /\
    outcome (list_available_dates run path row base s' e') = Ok dates' /\
    incl dates dates'.
Proof.
  intros Hs He.
  destruct (list_available_dates_spec run path row base s e) as (t & -> & _).
  destruct (list_available_dates_spec run path row base s' e') as (t' & -> & _).
  eexists. eexists. split; [reflexivity|]. split; [reflexivity|].
  intros d Hd. apply (proj1 (sorted_in _ _)) in Hd.
  apply (proj2 (sorted_in _ _)).
  apply in_years_found in Hd as (y & m & day & Hy & Hky & Hm & Hkm & Hday & -> & Hr).
  apply in_years_found. exists y, m, day.
  repeat split; eauto using year_kept_wider, month_kept_wider, in_range_wider.
Qed.

Lemma X4_wider_range_witness :
  ("2025-01-01" <=? "2025-01-02") = true /\
  ("2025-01-03" <=? "2025-01-31") = true /\
  outcome (list_available_dates january_run "7" "80" bucket
             "2025-01-02" "2025-01-03") = Ok ["2025-01-03"] /\
  exists dates dates',
    outcome (list_available_dates january_run "7" "80" bucket
               "2025-01-02" "2025-01-03") = Ok dates /\
    outcome (list_available_dates january_run "7" "80" bucket
               "2025-01-01" "2025-01-31") = Ok dates' /\
    incl dates dates'.
Proof.
  split; [reflexivity|]. split; [reflexivity|]. split; [reflexivity|].
  apply (X4_wider_range_finds_more january_run "7" "80" bucket
           "2025-01-02" "2025-01-03" "2025-01-01" "2025-01-31");
    reflexivity.
Defined.

(** ** The prefixes discovery lists *)

Section Listed.

Variable run : list string -> CompletedProcess.
Variables s e : string.

Lemma for_months_events (yp y : string) (months dates : list string) :
  events (for_months run yp y s e months dates)
  = flat_map (fun m => if month_kept s e y m
                       then [Run (ls_cmd (yp ++ m ++ "/"))] else [])
             months.
Proof.
  revert dates. induction months as [|m months IH]; intros dates;
    cbn [for_months flat_map]; [reflexivity|].
  fold (month_kept s e y m). destruct (month_kept s e y m); cbn [negb app].
  - rewrite list_s3_spec, bind_ok, entry_keys_spec, bind_ret.
    cbn [events fst app]. now rewrite IH.
  - apply IH.
Qed.

Lemma for_years_events (prefix : string) (years dates : list string) :
  events (for_years run prefix s e years dates)
  = flat_map
      (fun y =>
         if year_kept s e y
         then Run (ls_cmd (prefix ++ y ++ "/"))
              :: flat_map (fun m => if month_kept s e y m
                                    then [Run (ls_cmd ((prefix ++ y ++ "/")
                                                       ++ m ++ "/"))]
                                    else [])
                          (children run (prefix ++ y ++ "/"))
         else [])
      years.
Proof.
  revert dates. induction years as [|y years IH]; intros dates;
    cbn [for_years flat_map]; [reflexivity|].
  fold (year_kept s e y). destruct (year_kept s e y); cbn [negb app].
  - rewrite list_s3_spec, bind_ok, entry_keys_spec, bind_ret.
    cbn [events fst app]. rewrite events_bind, for_months_events.
    destruct (for_months_spec run (prefix ++ y ++ "/") y s e
                (keys_of (listing run (prefix ++ y ++ "/"))) dates)
      as (tm & -> & _).
    cbn [outcome snd]. rewrite IH. reflexivity.
  - apply IH.
Qed.

End Listed.

(** X2.  Discovery lists the tile's root first, and apart from it
    exactly the year prefixes whose key passes the filter on years and,
    under those, the month prefixes whose key passes the filter on
    months: a year or month out of range is never listed, nor anything
    outside the tile's root. *)
Theorem X2_only_kept_prefixes_are_listed
  (run : list string -> CompletedProcess) (path row base s e : string) :
  exists rest,
    events (list_available_dates run path row base s e)
    = Run (ls_cmd (tile_prefix path row base)) :: rest /\
    forall ev, In ev rest <->
      (exists y,
          In y (children run (tile_prefix path row base)) /\
          year_kept s e y = true /\
          ev = Run (ls_cmd (tile_prefix path row base ++ y ++ "/"))) \/
      (exists y m,
          In y (children run (tile_prefix path row base)) /\
          year_kept s e y = true /\
          In m (children run (tile_prefix path row base ++ y ++ "/")) /\
          month_kept s e y m = true /\
          ev = Run (ls_cmd (tile_prefix path row base ++ y ++ "/" ++ m ++ "/"))).
Proof.
  set (root := tile_prefix path row base).
  unfold list_available_dates. fold root.
  rewrite list_s3_spec, bind_ok, entry_keys_spec, bind_ret.
  cbn [events fst app]. eexists. split; [reflexivity|].
  intros ev. rewrite events_bind, for_years_events.
  destruct (for_years_spec run root s e (keys_of (listing run root)) [])
    as (t & -> & _).
  cbn [outcome snd events fst]. rewrite app_nil_r, in_flat_map.
  fold (children run root). split.
  - intros (y & Hy & Hev). destruct (year_kept s e y) eqn:Hk; [|easy].
    destruct Hev as [<-|Hev]; [left; now exists y|].
    apply in_flat_map in Hev as (m & Hm & Hev).
    destruct (month_kept s e y m) eqn:Hkm; [|easy].
    destruct Hev as [<-|[]]. right. exists y, m.
    now rewrite <- month_prefix_assoc.
  - intros [(y & Hy & Hk & ->)|(y & m & Hy & Hk & Hm & Hkm & ->)];
      exists y; (split; [exact Hy|]); rewrite Hk; [now left|].
    right. apply in_flat_map. exists m. split; [exact Hm|].
    rewrite Hkm, month_prefix_assoc. now left.
Qed.

(** ** The date a task is built from *)

(** X7.  [build_s3_cmd] accepts exactly the dates with two dashes: such
    a date is its three dash-free fields joined by dashes, and the task
    copies from [base_url/path/row/] (path and row padded) followed by
    the three fields as directories; any other date raises
    [ValueError] from the unpacking of [date.split("-")]. *)
Theorem X7_build_needs_two_dashes (path row date base out : string) :
  if (count_char "-" date =? 2)%nat then
    exists y m d,
      no_dash y /\ no_dash m /\ no_dash d /\ date = date_str y m d /\
      build_s3_cmd path row date base out
      = ret (["aws"; "s3"; "cp";
              tile_prefix path row base ++ y ++ "/" ++ m ++ "/" ++ d ++ "/";
              path_join out [path; row; y; m; d];
              "--recursive"; "--no-sign-request"],
             tile_prefix path row base ++ y ++ "/" ++ m ++ "/" ++ d ++ "/")
  else build_s3_cmd path row date base out = raise ValueError.
Proof.
  assert (Hlen := length_split_from "-" EmptyString date).
  assert (Hcat := concat_split_from "-" EmptyString date).
  assert (Hpieces := split_from_pieces "-" EmptyString date eq_refl).
  unfold build_s3_cmd, split.
  destruct (split_from "-" EmptyString date) as [|y [|m [|d [|x l]]]];
    cbn [List.length] in Hlen; try discriminate Hlen;
    injection Hlen as Hlen; rewrite <- Hlen; cbn [Nat.eqb]; try reflexivity.
  exists y, m, d.
  apply Forall_cons_iff in Hpieces as [Hy Hpieces].
  apply Forall_cons_iff in Hpieces as [Hm Hpieces].
  apply Forall_cons_iff in Hpieces as [Hd _].
  repeat split; try assumption.
  - cbn in Hcat. now rewrite <- Hcat.
  - unfold tile_prefix. now rewrite !append_assoc.
Qed.

(** ** Where a task writes *)

Lemma path_join_under (out : string) (comps : list string) :
  Forall (fun b => starts_with_sep b = false) comps ->
  exists rest, path_join out comps = out ++ rest.
Proof.
  revert out. induction comps as [|b comps IH]; intros out Hall;
    cbn [path_join].
  - exists EmptyString. now rewrite append_empty_r.
  - apply Forall_cons_iff in Hall as [-> Hall].
    destruct (is_empty out || ends_with_sep out).
    + destruct (IH (out ++ b) Hall) as [rest ->].
      exists (b ++ rest). now rewrite append_assoc.
    + destruct (IH (out ++ "/" ++ b) Hall) as [rest ->].
      exists ("/" ++ b ++ rest). now rewrite !append_assoc.
Qed.

Lemma path_join_restart (out b : string) (pre post : list string) :
  starts_with_sep b = true ->
  Forall (fun c => starts_with_sep c = false) post ->
  exists rest, path_join out (pre ++ b :: post) = b ++ rest.
Proof.
  intros Hb Hpost. revert out. induction pre as [|c pre IH]; intros out;
    cbn [app path_join].
  - rewrite Hb. now apply path_join_under.
  - destruct (starts_with_sep c); [apply IH|].
    destruct (is_empty out || ends_with_sep out); apply IH.
Qed.

(** X14.  The destination of a task lies under [output_dir] as long as
    neither [path], [row] nor a field of the date begins with a slash;
    if one of them does, [os.path.join] starts again from the last such
    component, and the destination lies under that component instead,
    whatever [output_dir] is. *)
Theorem X14_destination_under_output_dir
  (path row y m d base out : string) :
  no_dash y -> no_dash m -> no_dash d ->
  exists t,
    build_s3_cmd path row (date_str y m d) base out = ret t /\
    (Forall (fun b => starts_with_sep b = false) [path; row; y; m; d] ->
     exists rest, local_destination t = out ++ rest) /\
    (forall pre b post,
        [path; row; y; m; d] = (pre ++ b :: post)%list ->
        starts_with_sep b = true ->
        Forall (fun c => starts_with_sep c = false) post ->
        exists rest, local_destination t = b ++ rest).
Proof.
  intros Dy Dm Dd. eexists. split; [now apply build_s3_cmd_spec|].
  unfold local_destination. cbn [fst nth]. split.
  - apply path_join_under.
  - intros pre b post -> Hb Hpost. now apply path_join_restart.
Qed.

Lemma X14_destination_witness :
  (no_dash "2025" /\ no_dash "01" /\ no_dash "03") /\
  exists t,
    build_s3_cmd "7" "/80" (date_str "2025" "01" "03") bucket "./dea_data"
    = ret t /\
    (Forall (fun b => starts_with_sep b = false) ["7"; "/80"; "2025"; "01"; "03"] ->
     exists rest, local_destination t = "./dea_data" ++ rest) /\
    (forall pre b post,
        ["7"; "/80"; "2025"; "01"; "03"] = (pre ++ b :: post)%list ->
        starts_with_sep b = true ->
        Forall (fun c => starts_with_sep c = false) post ->
        exists rest, local_destination t = b ++ rest).
Proof.
  split; [repeat split|].
  apply (X14_destination_under_output_dir "7" "/80" "2025" "01" "03" bucket
           "./dea_data"); reflexivity.
Defined.

(** ** The construction and the dates discovery returns *)

Lemma for_dates_forall2 (p r base out : string) (dates : list string)
  (tasks res : list task) :
  outcome (for_dates p r base out dates tasks) = Ok res ->
  exists new,
    res = (tasks ++ new)%list /\
    Forall2 (fun d t => outcome (build_s3_cmd p r d base out) = Ok t) dates new.
Proof.
  revert tasks. induction dates as [|d dates IH]; intros tasks;
    cbn [for_dates].
  - intros [= <-]. exists []. rewrite app_nil_r. split; constructor.
  - rewrite outcome_bind.
    destruct (outcome (build_s3_cmd p r d base out)) as [t|ex] eqn:Hb;
      [|discriminate].
    intros H. destruct (IH _ H) as (new & -> & Hall).
    exists (t :: new). rewrite <- app_assoc. split; [reflexivity|].
    now constructor.
Qed.

(** X8.  When discovery returns for every tile of the request, the
    construction of the task list raises exactly when discovery returns,
    for some tile of the request, a date that is no calendar date in the
    form [%Y-%m-%d]: the unpacking in [build_s3_cmd] cannot fail inside
    [download_dea_data], since a date [strptime] has accepted has
    exactly two dashes. *)
Theorem X8_construction_raises_iff_date_refused
  (run : list string -> CompletedProcess) (paths rows : list string)
  (s e base out : string) :
  (forall p r, In p paths -> In r rows ->
               exists dates,
                 outcome (list_available_dates run p r base s e) = Ok dates) ->
  (exists ex, outcome (build_tasks run paths rows s e base out) = Raise ex) <->
  (exists p r dates d,
      In p paths /\ In r rows /\
      outcome (list_available_dates run p r base s e) = Ok dates /\
      In d dates /\ calendar_date d = false).
Proof.
  intros _. rewrite build_tasks_form. split.
  - intros [ex Hex].
    destruct (outcome (for_tiles run (tiles paths rows) s e base out []))
      as [tasks|ex0] eqn:Ho; [discriminate|].
    destruct (for_tiles_raise_inv run s e base out _ _ _ Ho)
      as (p & r & dates & d & Hin & Hdates & Hd & Hbad).
    apply in_tiles_inv in Hin as [Hp Hr]. exists p, r, dates, d.
    repeat split; try assumption. now apply strptime_refuses.
  - intros (p & r & dates & d & Hp & Hr & Hdates & Hd & Hbad).
    exists ValueError. apply strptime_refuses in Hbad.
    now rewrite (for_tiles_refused run s e base out (tiles paths rows) []
                   p r dates d (in_tiles paths rows p r Hp Hr) Hdates Hd Hbad).
Qed.

Lemma X8_construction_witness :
  (forall p r, In p ["7"] -> In r ["80"] ->
               exists dates,
                 outcome (list_available_dates month13_run p r bucket
                            "2025-01-01" "2026-01-01") = Ok dates) /\
  outcome (build_tasks month13_run ["7"] ["80"] "2025-01-01" "2026-01-01"
             bucket "./dea_data") = Raise ValueError /\
  ((exists ex,
       outcome (build_tasks month13_run ["7"] ["80"] "2025-01-01"
                  "2026-01-01" bucket "./dea_data") = Raise ex) <->
   (exists p r dates d,
       In p ["7"] /\ In r ["80"] /\
       outcome (list_available_dates month13_run p r bucket
                  "2025-01-01" "2026-01-01") = Ok dates /\
       In d dates /\ calendar_date d = false)).
Proof.
  assert (H : forall p r, In p ["7"] -> In r ["80"] ->
              exists dates,
                outcome (list_available_dates month13_run p r bucket
                           "2025-01-01" "2026-01-01") = Ok dates).
  { intros p r [<-|[]] [<-|[]]. eexists. reflexivity. }
  split; [exact H|]. split; [reflexivity|].
  exact (X8_construction_raises_iff_date_refused month13_run ["7"] ["80"]
           "2025-01-01" "2026-01-01" bucket "./dea_data" H).
Defined.

(** ** One task for every discovered date *)

Lemma tile_tasks_dates (run : list string -> CompletedProcess)
  (s e base out : string) (tile : string * string) (new : list task) :
  outcome (tile_body run (fst tile) (snd tile) s e base out []) = Ok new ->
  Forall2 (fun d t => outcome (build_s3_cmd (fst tile) (snd tile) d base out)
                      = Ok t)
          (discovered run s e base tile) new.
Proof.
  unfold discovered.
  destruct (tile_body_form run (fst tile) (snd tile) s e base out [])
    as (t & dates & -> & _ & ->).
  cbn [outcome snd]. destruct dates as [|d0 ds].
  - intros [= <-]. constructor.
  - destruct (outcome (short_dates_of (d0 :: ds))); [|discriminate].
    cbn [snd]. intros H.
    now destruct (for_dates_forall2 _ _ _ _ _ _ _ H) as (new' & -> & Hall).
Qed.

Lemma for_tiles_dates (run : list string -> CompletedProcess)
  (s e base out : string) (l : list (string * string))
  (tasks res : list task) :
  outcome (for_tiles run l s e base out tasks) = Ok res ->
  exists new,
    res = (tasks ++ new)%list /\
    Forall2 (fun td t => outcome (build_s3_cmd (fst (fst td)) (snd (fst td))
                                    (snd td) base out) = Ok t)
            (flat_map (fun tile => map (pair tile) (discovered run s e base tile))
                      l)
            new.
Proof.
  revert tasks. induction l as [|tile l IH]; intros tasks;
    cbn [for_tiles flat_map].
  - intros [= <-]. exists []. rewrite app_nil_r. split; constructor.
  - rewrite tile_body_extend, outcome_bind. unfold extend at 1.
    cbn [outcome snd].
    destruct (outcome (tile_body run (fst tile) (snd tile) s e base out []))
      as [new|ex] eqn:Hb; [|discriminate].
    intros H. destruct (IH _ H) as (new' & -> & Hall).
    exists (new ++ new')%list. rewrite app_assoc. split; [reflexivity|].
    apply Forall2_app; [|exact Hall].
    apply tile_tasks_dates in Hb.
    clear -Hb. induction Hb as [|d t ds ts Hd _ IHb]; cbn [map];
      constructor; auto.
Qed.

(** X12.  When the task list is built, it holds one task for every
    discovered date of every visit of a tile, and no other: tile after
    tile in the order of the loops, and within a tile date after date in
    the ascending order discovery returned; the total announced before
    the downloads is that number of dates. *)
Theorem X12_one_task_per_discovered_date
  (run : list string -> CompletedProcess) (paths rows : list string)
  (s e base out : string) (t : trace) (tasks : list task) :
  build_tasks run paths rows s e base out = (t, Ok tasks) ->
  Forall2 (fun td task =>
             outcome (build_s3_cmd (fst (fst td)) (snd (fst td)) (snd td)
                        base out) = Ok task)
          (flat_map (fun tile => map (pair tile) (discovered run s e base tile))
                    (tiles paths rows))
          tasks /\
  List.length tasks
  = list_sum (map (fun tile => List.length (discovered run s e base tile))
                  (tiles paths rows)) /\
  last t (Print (StartingDownloads 0))
  = Print (StartingDownloads (List.length tasks)).
Proof.
  intros Hbuild. rewrite build_tasks_form in Hbuild.
  destruct (outcome (for_tiles run (tiles paths rows) s e base out []))
    as [tasks'|ex] eqn:Ho; [|discriminate].
  injection Hbuild as <- <-.
  destruct (for_tiles_dates run s e base out _ _ _ Ho) as (new & -> & Hall).
  cbn [app]. split; [exact Hall|]. split.
  - rewrite <- (Forall2_length Hall). clear.
    induction (tiles paths rows) as [|tile l IH]; [reflexivity|].
    cbn [flat_map map list_sum fold_right].
    rewrite length_app, length_map, IH. reflexivity.
  - apply last_last.
Qed.

Lemma X12_one_task_witness :
  january_build = (events january_build, Ok (built january_build)) /\
  Forall2 (fun td task =>
             outcome (build_s3_cmd (fst (fst td)) (snd (fst td)) (snd td)
                        bucket "./dea_data") = Ok task)
          (flat_map (fun tile =>
                       map (pair tile)
                           (discovered january_failing_run "2025-01-01"
                              "2025-01-03" bucket tile))
                    (tiles ["7"] ["80"]))
          (built january_build) /\
  List.length (built january_build)
  = list_sum (map (fun tile =>
                     List.length (discovered january_failing_run "2025-01-01"
                                    "2025-01-03" bucket tile))
                  (tiles ["7"] ["80"])) /\
  last (events january_build) (Print (StartingDownloads 0))
  = Print (StartingDownloads (List.length (built january_build))).
Proof.
  assert (Hb : january_build = (events january_build, Ok (built january_build)))
    by reflexivity.
  split; [exact Hb|].
  exact (X12_one_task_per_discovered_date january_failing_run ["7"] ["80"]
           "2025-01-01" "2025-01-03" bucket "./dea_data"
           (events january_build) (built january_build) Hb).
Defined.

(** ** How a run can fail *)

(** X5.  Whatever the processes answer, a copy that returns a code
    other than 0 raises nothing out of [run_download], which catches
    the [CalledProcessError]: a complete run either ends normally or
    raises [ValueError], and a run that raises has spawned no copy,
    because the exception comes from the construction of the task list
    or from the creation of the pool.  An exception of [subprocess.run]
    itself, raised when a process cannot be spawned, is outside the
    embedding. *)
Theorem X5_only_value_error_before_any_copy
  (run : list string -> CompletedProcess) (paths rows : list string)
  (s e base out : string) (multithread : bool) (max_workers : Z)
  (tr : trace) (r : result unit) :
  download_dea_data run paths rows s e base out multithread max_workers tr r ->
  r = Ok tt \/
  (r = Raise ValueError /\ Forall (fun ev => is_copy ev = false) tr).
Proof.
  intros Hrun.
  assert (Hnc := build_tasks_no_copy run paths rows s e base out).
  destruct Hrun as [t ex Hb|t tasks Hm Hb|t tasks Hm Hle Hb
                    |t tasks st Hm Hlt Hb Hsteps Hdone].
  - right. rewrite Hb in Hnc. split; [|exact Hnc].
    assert (Hex : ex = ValueError).
    { apply (build_tasks_raises run paths rows s e base out). now rewrite Hb. }
    now rewrite Hex.
  - left. apply for_tasks_form.
  - right. rewrite Hb in Hnc. now split.
  - now left.
Qed.

Lemma X5_pool_refused_witness :
  download_dea_data january_failing_run ["7"] ["80"] "2025-01-01" "2025-01-03"
    bucket "./dea_data" true 0 (events january_build) (Raise ValueError) /\
  (@Raise unit ValueError = Ok tt \/
   (@Raise unit ValueError = Raise ValueError
    /\ Forall (fun ev => is_copy ev = false) (events january_build))).
Proof.
  assert (H : download_dea_data january_failing_run ["7"] ["80"] "2025-01-01"
                "2025-01-03" bucket "./dea_data" true 0
                (events january_build) (Raise ValueError)).
  { apply (run_pool_refused january_failing_run ["7"] ["80"] "2025-01-01"
             "2025-01-03" bucket "./dea_data" true 0
             (events january_build) (built january_build));
      [reflexivity | discriminate | reflexivity]. }
  split; [exact H|].
  exact (X5_only_value_error_before_any_copy january_failing_run ["7"] ["80"]
           "2025-01-01" "2025-01-03" bucket "./dea_data" true 0 _ _ H).
Defined.

(** ** The sequential loop *)

Lemma progress_of_app (t t' : trace) :
  progress_of (t ++ t')%list = (progress_of t ++ progress_of t')%list.
Proof.
  induction t as [|[[]|] t IH]; cbn [app progress_of]; try exact IH;
    [reflexivity | now rewrite IH].
Qed.

Lemma filter_progress_task (run : list string -> CompletedProcess) (t : task) :
  progress_of (task_events run t) = []
  /\ filter (fun ev => negb (is_progress ev)) (task_events run t)
     = task_events run t.
Proof.
  unfold task_events, task_report, report.
  now destruct (returncode (run (fst t)) =? 0)%Z.
Qed.

(** X11.  The sequential loop prints, before each task, its position
    and the total: the progress notices count upwards one by one from
    the first index, one per task, and what remains of the trace without
    them is each task's start notice, copy and report, task after task
    in the order of the list. *)
Theorem X11_sequential_progress_counts_up
  (run : list string -> CompletedProcess) (i total : nat) (tasks : list task) :
  progress_of (events (for_tasks run i total tasks))
  = map (fun k => (k, total)) (seq i (List.length tasks)) /\
  filter (fun ev => negb (is_progress ev)) (events (for_tasks run i total tasks))
  = flat_map (task_events run) tasks.
Proof.
  revert i. induction tasks as [|[cmd s3] tasks IH]; intros i;
    cbn [for_tasks]; [now split|].
  destruct (IH (S i)) as [Hp Hf].
  unfold emit. rewrite bind_ok, run_download_form, bind_ok.
  cbn [events outcome fst snd app List.length seq map flat_map filter
       progress_of is_progress negb].
  destruct (filter_progress_task run (cmd, s3)) as [Hp1 Hf1].
  rewrite progress_of_app, filter_app, Hp1, Hf1, Hp, Hf.
  now split.
Qed.

(** ** The order of a listing does not matter *)

Lemma ascending_perm_eq (a b : list string) :
  ascending a -> ascending b -> Permutation a b -> a = b.
Proof.
  unfold ascending. revert b.
  induction a as [|x a IH]; intros b Ha Hb Hperm.
  - now apply Permutation_nil in Hperm.
  - destruct b as [|y b];
      [now apply Permutation_sym, Permutation_nil in Hperm|].
    apply StronglySorted_inv in Ha as [Ha Hxa].
    apply StronglySorted_inv in Hb as [Hb Hyb].
    rewrite Forall_forall in Hxa, Hyb.
    assert (Hxy : x = y).
    { assert (Hy : In y (x :: a))
        by (eapply Permutation_in; [apply Permutation_sym, Hperm | apply in_eq]).
      assert (Hx : In x (y :: b))
        by (eapply Permutation_in; [exact Hperm | apply in_eq]).
      destruct Hy as [Hy|Hy]; [exact Hy|].
      destruct Hx as [Hx|Hx]; [now symmetry|].
      apply String.leb_antisym; [now apply Hxa | now apply Hyb]. }
    subst y. f_equal. apply IH; try assumption.
    now apply Permutation_cons_inv with x.
Qed.

Lemma sorted_of_perm (l l' : list string) :
  Permutation l l' -> sorted l = sorted l'.
Proof.
  intros H. apply ascending_perm_eq; try apply sorted_ascending.
  transitivity l; [apply Permutation_sym, sorted_perm|].
  transitivity l'; [exact H | apply sorted_perm].
Qed.

Lemma perm_filter {A : Type} (f : A -> bool) (l l' : list A) :
  Permutation l l' -> Permutation (filter f l) (filter f l').
Proof.
  induction 1 as [|x l l' _ IH|x y l|l l' l'' _ IH _ IH']; cbn [filter].
  - constructor.
  - destruct (f x); [now constructor | exact IH].
  - destruct (f x), (f y); try reflexivity. apply perm_swap.
  - now transitivity (filter f l').
Qed.

Lemma perm_flat_map_pointwise {A B : Type} (f g : A -> list B) (l : list A) :
  (forall x, Permutation (f x) (g x)) ->
  Permutation (flat_map f l) (flat_map g l).
Proof.
  intros H. induction l as [|x l IH]; cbn [flat_map]; [constructor|].
  now apply Permutation_app.
Qed.

Lemma perm_flat_map {A B : Type} (f g : A -> list B) (l l' : list A) :
  Permutation l l' -> (forall x, Permutation (f x) (g x)) ->
  Permutation (flat_map f l) (flat_map g l').
Proof.
  intros Hl Hfg. transitivity (flat_map g l).
  - now apply perm_flat_map_pointwise.
  - now apply Permutation_flat_map.
Qed.

(** X13.  The dates discovery returns do not depend on the order in
    which the store lists its entries: two stores whose listings give,
    for every prefix, the same keys up to order are answered with the
    same dates. *)
Theorem X13_listing_order_is_irrelevant
  (run run' : list string -> CompletedProcess) (path row base s e : string) :
  (forall prefix, Permutation (children run prefix) (children run' prefix)) ->
  outcome (list_available_dates run path row base s e)
  = outcome (list_available_dates run' path row base s e).
Proof.
  intros Hsame.
  destruct (list_available_dates_spec run path row base s e) as (t & -> & _).
  destruct (list_available_dates_spec run' path row base s e) as (t' & -> & _).
  cbn [outcome snd]. f_equal. apply sorted_of_perm.
  unfold years_found. apply perm_flat_map; [apply Hsame|].
  intros y. destruct (year_kept s e y); [|constructor].
  unfold months_found. apply perm_flat_map; [apply Hsame|].
  intros m. destruct (month_kept s e y m); [|constructor].
  unfold days_found. apply perm_filter, Permutation_map, Hsame.
Qed.

Lemma X13_listing_order_witness :
  (forall prefix,
      Permutation (children january_run prefix)
                  (children january_reversed_run prefix)) /\
  outcome (list_available_dates january_run "7" "80" bucket
             "2025-01-01" "2025-01-03")
  = outcome (list_available_dates january_reversed_run "7" "80" bucket
               "2025-01-01" "2025-01-03").
Proof.
  assert (H : forall prefix,
             Permutation (children january_run prefix)
                         (children january_reversed_run prefix)).
  { intros prefix.
    unfold children, listing, january_run, january_reversed_run, store_run,
      january_dirs, ls_cmd. cbn [nth lookup].
    change ("ls" =? "ls")%string with true. cbn iota.
    destruct ("s3://bucket/007/080/" =? prefix)%string; [reflexivity|].
    destruct ("s3://bucket/007/080/2025/" =? prefix)%string; [reflexivity|].
    destruct ("s3://bucket/007/080/2025/01/" =? prefix)%string;
      [|reflexivity].
    vm_compute. apply perm_swap. }
  split; [exact H|].
  exact (X13_listing_order_is_irrelevant january_run january_reversed_run
           "7" "80" bucket "2025-01-01" "2025-01-03" H).
Defined.

(** ** Built tasks write under the output directory *)

Lemma forall2_in_right {A B : Type} (R : A -> B -> Prop) (l : list A)
  (l' : list B) (b : B) :
  Forall2 R l l' -> In b l' -> exists a, In a l /\ R a b.
Proof.
  induction 1 as [|a b' l l' Hab _ IH]; [easy|].
  intros [<-|Hb].
  - exists a. split; [apply in_eq | exact Hab].
  - destruct (IH Hb) as (a' & Ha' & Hr). exists a'. split; [now right|exact Hr].
Qed.

Lemma for_tiles_accepted (run : list string -> CompletedProcess)
  (s e base out : string) (l : list (string * string))
  (tasks res : list task) :
  outcome (for_tiles run l s e base out tasks) = Ok res ->
  forall tile d, In tile l -> In d (discovered run s e base tile) ->
                 exists dt, strptime d = Ok dt.
Proof.
  revert tasks. induction l as [|tile0 l IH]; intros tasks; [easy|].
  cbn [for_tiles]. rewrite outcome_bind.
  destruct (outcome (tile_body run (fst tile0) (snd tile0) s e base out tasks))
    as [tasks'|ex] eqn:Hb; [|discriminate].
  intros H tile d [<-|Hin] Hd; [|now apply (IH _ H tile d)].
  unfold discovered in Hd.
  destruct (tile_body_form run (fst tile0) (snd tile0) s e base out tasks)
    as (t & dates & Heq & _ & Hform).
  rewrite Heq in Hd. cbn [outcome snd] in Hd. rewrite Hform in Hb.
  destruct dates as [|d0 ds]; [easy|].
  destruct (outcome (short_dates_of (d0 :: ds))) as [sh|ex] eqn:Hs;
    [|discriminate].
  exact (short_dates_of_ok_inv _ _ Hs d Hd).
Qed.

(** X15.  When the task list is built, every task in it was built for a
    tile of the request and a date that [strptime] has accepted, whose
    fields are therefore numerals (the day possibly a blank and a
    digit), whatever the store has listed.  If no path and no row of the
    request holds a slash or is [..], the destination of every task is
    [output_dir] joined with five names, none of which holds a slash or
    is [..]: no task writes outside [output_dir].  With an
    [output_dir] that is not empty and does not end with a slash, and a
    path and a row that are not empty, the destination is
    [output_dir/path/row/year/month/day]. *)
Theorem X15_built_tasks_write_under_output_dir
  (run : list string -> CompletedProcess) (paths rows : list string)
  (s e base out : string) (t : trace) (tasks : list task) :
  build_tasks run paths rows s e base out = (t, Ok tasks) ->
  Forall descending paths -> Forall descending rows ->
  forall task, In task tasks ->
    exists p r y m d,
      In p paths /\ In r rows /\
      In (date_str y m d) (discovered run s e base (p, r)) /\
      numeral 4 4 y = true /\ numeral 1 2 m = true /\ day_field d = true /\
      build_s3_cmd p r (date_str y m d) base out = ret task /\
      local_destination task = path_join out [p; r; y; m; d] /\
      Forall descending [p; r; y; m; d] /\
      (exists rest, local_destination task = out ++ rest) /\
      (is_empty out = false -> ends_with_sep out = false ->
       is_empty p = false -> is_empty r = false ->
       local_destination task
       = out ++ "/" ++ p ++ "/" ++ r ++ "/" ++ y ++ "/" ++ m ++ "/" ++ d).
Proof.
  intros Hbuild Hpaths Hrows task Htask. rewrite build_tasks_form in Hbuild.
  destruct (outcome (for_tiles run (tiles paths rows) s e base out []))
    as [tasks'|ex] eqn:Ho; [|discriminate].
  injection Hbuild as _ <-.
  destruct (for_tiles_dates run s e base out _ _ _ Ho) as (new & -> & Hall).
  cbn [app] in Htask.
  destruct (forall2_in_right _ _ _ _ Hall Htask) as ([[p r] date] & Hin & Hb).
  cbn [fst snd] in Hb.
  apply in_flat_map in Hin as (tile & Htile & Hin).
  apply in_map_iff in Hin as (date' & [= -> ->] & Hdate).
  destruct (for_tiles_accepted run s e base out _ _ _ Ho _ _ Htile Hdate)
    as [dt Hdt].
  destruct (strptime_numerals date dt Hdt)
    as (y & m & d & -> & Dy & Dm & Dd & Ny & Nm & Nd).
  apply in_tiles_inv in Htile as [Hp Hr].
  destruct (numeral_component 4 4 y ltac:(lia) Ny) as [Cy Sy].
  destruct (numeral_component 1 2 m ltac:(lia) Nm) as [Cm Sm].
  destruct (day_field_component d Nd) as [Cd Sd].
  rewrite Forall_forall in Hpaths, Hrows.
  assert (Sp := Hpaths p Hp). assert (Sr := Hrows r Hr).
  assert (Hret : build_s3_cmd p r (date_str y m d) base out = ret task).
  { rewrite (io_eta (build_s3_cmd p r (date_str y m d) base out)).
    now rewrite build_s3_cmd_events, Hb. }
  assert (Hdest : local_destination task = path_join out [p; r; y; m; d]).
  { rewrite build_s3_cmd_spec in Hret by assumption.
    unfold ret in Hret. now injection Hret as <-. }
  exists p, r, y, m, d.
  split; [exact Hp|]. split; [exact Hr|]. split; [exact Hdate|].
  split; [exact Ny|]. split; [exact Nm|]. split; [exact Nd|].
  split; [exact Hret|]. split; [exact Hdest|].
  split; [repeat (apply Forall_cons; [assumption|]); constructor|]. split.
  - rewrite Hdest. apply path_join_under.
    assert (Hlead : forall c, descending c -> starts_with_sep c = false).
    { intros c [Hc _]. destruct c as [|x c]; [reflexivity|].
      unfold no_slash in Hc. cbn in Hc. cbn.
      now apply orb_false_iff in Hc as [Hc _]. }
    repeat (apply Forall_cons; [now apply Hlead|]). constructor.
  - intros He Hs Ep Er. rewrite Hdest.
    apply path_join_components; try assumption; split; try assumption;
      [apply Sp | apply Sr].
Qed.

Lemma X15_built_tasks_witness :
  january_build = (events january_build, Ok (built january_build)) /\
  Forall descending ["7"] /\ Forall descending ["80"] /\
  forall task, In task (built january_build) ->
    exists p r y m d,
      In p ["7"] /\ In r ["80"] /\
      In (date_str y m d)
         (discovered january_failing_run "2025-01-01" "2025-01-03" bucket (p, r))
      /\ numeral 4 4 y = true /\ numeral 1 2 m = true /\ day_field d = true /\
      build_s3_cmd p r (date_str y m d) bucket "./dea_data" = ret task /\
      local_destination task = path_join "./dea_data" [p; r; y; m; d] /\
      Forall descending [p; r; y; m; d] /\
      (exists rest, local_destination task = "./dea_data" ++ rest) /\
      (is_empty "./dea_data" = false -> ends_with_sep "./dea_data" = false ->
       is_empty p = false -> is_empty r = false ->
       local_destination task
       = "./dea_data" ++ "/" ++ p ++ "/" ++ r ++ "/" ++ y ++ "/" ++ m
         ++ "/" ++ d).
Proof.
  assert (Hb : january_build = (events january_build, Ok (built january_build)))
    by reflexivity.
  assert (Hp : Forall descending ["7"])
    by (repeat constructor; discriminate).
  assert (Hr : Forall descending ["80"])
    by (repeat constructor; discriminate).
  split; [exact Hb|]. split; [exact Hp|]. split; [exact Hr|].
  exact (X15_built_tasks_write_under_output_dir january_failing_run ["7"] ["80"]
           "2025-01-01" "2025-01-03" bucket "./dea_data"
           (events january_build) (built january_build) Hb Hp Hr).
Defined.

(** ** Two spellings of a tile *)



(** ** A request without tiles *)





(** ** Reading the lines [aws s3 ls] prints for prefixes *)

Lemma linebreak_is_space (c : ascii) :
  is_linebreak c = true -> isspace c = true.
Proof.
  destruct c as [[] [] [] [] [] [] [] []]; intros H;
    first [reflexivity | discriminate H].
Qed.

Lemma all_chars_append (q : ascii -> bool) (a b : string) :
  all_chars q (a ++ b) = all_chars q a && all_chars q b.
Proof.
  induction a as [|x a IH]; [reflexivity|]. cbn. now rewrite IH, andb_assoc.
Qed.

Lemma all_chars_weaken (q q' : ascii -> bool) (s : string) :
  (forall x, q x = true -> q' x = true) ->
  all_chars q s = true -> all_chars q' s = true.
Proof.
  intros Hq. induction s as [|x s IH]; [reflexivity|]. cbn.
  intros [Hx Hs]%andb_true_iff. now rewrite (Hq x Hx), IH.
Qed.

Lemma splitlines_from_line (cur line rest : string) :
  all_chars (fun x => negb (is_linebreak x)) line = true ->
  splitlines_from false cur (line ++ LF ++ rest)
  = (cur ++ line) :: splitlines_from false EmptyString rest.
Proof.
  revert cur. induction line as [|x line IH]; intros cur Hline.
  - cbn. now rewrite append_empty_r.
  - cbn in Hline. apply andb_true_iff in Hline as [Hx Hline].
    apply negb_true_iff in Hx.
    change (String x line ++ LF ++ rest) with (String x (line ++ LF ++ rest)).
    cbn [splitlines_from]. rewrite Hx, IH by exact Hline.
    now rewrite append_assoc.
Qed.

Lemma rstrip_keeps_end (p : ascii -> bool) (s : string) (c : ascii) :
  p c = false ->
  rstrip_by p (s ++ String c EmptyString) = s ++ String c EmptyString.
Proof.
  intros Hc. induction s as [|x s IH]; cbn [append rstrip_by].
  - now rewrite Hc.
  - rewrite IH. destruct s; cbn; now rewrite andb_false_r.
Qed.

Lemma rstrip_drops_end (p : ascii -> bool) (s : string) (c : ascii) :
  p c = true -> rstrip_by p (s ++ String c EmptyString) = rstrip_by p s.
Proof.
  intros Hc. induction s as [|x s IH]; cbn [append rstrip_by].
  - now rewrite Hc.
  - now rewrite IH.
Qed.

Lemma rstrip_nothing (p : ascii -> bool) (s : string) :
  all_chars (fun x => negb (p x)) s = true -> rstrip_by p s = s.
Proof.
  induction s as [|x s IH]; [reflexivity|]. cbn.
  intros [Hx Hs]%andb_true_iff. apply negb_true_iff in Hx.
  now rewrite IH, Hx.
Qed.

Lemma split_ws_from_word_only (cur w : string) :
  all_chars (fun x => negb (isspace x)) w = true ->
  is_empty (cur ++ w) = false ->
  split_ws_from cur w = [cur ++ w].
Proof.
  revert cur. induction w as [|x w IH]; intros cur Hw Hne.
  - cbn. rewrite append_empty_r in *. now rewrite Hne.
  - cbn in Hw. apply andb_true_iff in Hw as [Hx Hw].
    apply negb_true_iff in Hx. cbn [split_ws_from]. rewrite Hx.
    rewrite IH; [now rewrite append_assoc | exact Hw |].
    rewrite append_assoc. exact Hne.
Qed.

Lemma strip_slashes_of_name (name : string) :
  plain_name name -> strip_chars "/" (name ++ "/") = name.
Proof.
  unfold plain_name, strip_chars. intros Hname.
  assert (Hns : all_chars (fun x => negb (char_in x "/")) name = true).
  { revert Hname. apply all_chars_weaken. intros x [_ Hx]%andb_true_iff.
    change (char_in x "/") with (Ascii.eqb "/" x || false).
    now rewrite orb_false_r, Ascii.eqb_sym. }
  destruct name as [|x name]; [reflexivity|].
  assert (Hx : char_in x "/" = false).
  { cbn in Hns. apply andb_true_iff in Hns as [Hx _].
    now apply negb_true_iff in Hx. }
  change (String x name ++ "/") with (String x (name ++ "/")).
  cbn [lstrip_by]. rewrite Hx.
  change (String x (name ++ "/")) with (String x name ++ String "/" EmptyString).
  rewrite rstrip_drops_end by reflexivity. now apply rstrip_nothing.
Qed.

(** The key of the line that lists the prefix [name/] *)
Lemma key_of_pre_line (name : string) :
  plain_name name ->
  char_in "/" ("                           PRE " ++ name ++ "/") = true /\
  key_of ("                           PRE " ++ name ++ "/") = name.
Proof.
  intros Hname.
  assert (Hsp : all_chars (fun x => negb (isspace x)) (name ++ "/") = true).
  { rewrite all_chars_append. apply andb_true_iff. split; [|reflexivity].
    revert Hname. apply all_chars_weaken. now intros x [Hx _]%andb_true_iff. }
  split.
  - rewrite char_in_app, char_in_app. cbn. now rewrite !orb_true_r.
  - unfold key_of, strip.
    change (lstrip_by isspace
              ("                           PRE " ++ name ++ "/"))
      with ("PRE " ++ name ++ "/").
    replace ("PRE " ++ name ++ "/")
      with (("PRE " ++ name) ++ String "/" EmptyString)
      by now rewrite append_assoc.
    rewrite rstrip_keeps_end by reflexivity.
    rewrite append_assoc. unfold split_ws.
    change (split_ws_from EmptyString ("PRE " ++ name ++ "/"))
      with ("PRE" :: split_ws_from EmptyString (name ++ "/")).
    rewrite split_ws_from_word_only; [|exact Hsp | now destruct name].
    cbn [append last_item]. now apply strip_slashes_of_name.
Qed.

(** X17.  The comprehension reads the output of [aws s3 ls] correctly
    for ordinary names: when the output is one [PRE name/] line for each
    of a list of names without whitespace or slash, the keys it reads
    are exactly those names, in order. *)
Theorem X17_keys_of_pre_lines (names : list string) :
  Forall plain_name names ->
  keys_of (splitlines (stdout (ls_output names))) = names.
Proof.
  unfold ls_output, splitlines. cbn [stdout].
  induction 1 as [|name names Hname _ IH]; [reflexivity|].
  cbn [map].
  assert (Hcat : String.concat "" (pre_line name :: map pre_line names)
                 = pre_line name ++ String.concat "" (map pre_line names)).
  { destruct (map pre_line names); [now rewrite append_empty_r | reflexivity]. }
  rewrite Hcat. unfold pre_line at 1.
  replace (("                           PRE " ++ name ++ "/" ++ LF)
           ++ String.concat "" (map pre_line names))
    with (("                           PRE " ++ name ++ "/") ++ LF
          ++ String.concat "" (map pre_line names))
    by now rewrite !append_assoc.
  rewrite splitlines_from_line.
  - unfold keys_of in *. cbn [filter append].
    destruct (key_of_pre_line name Hname) as [Hslash Hkey].
    cbn [append] in Hslash, Hkey. rewrite Hslash. cbn [map].
    now rewrite Hkey, IH.
  - rewrite all_chars_append. apply andb_true_iff. split; [reflexivity|].
    rewrite all_chars_append. apply andb_true_iff. split; [|reflexivity].
    revert Hname. apply all_chars_weaken. intros x [Hx _]%andb_true_iff.
    apply negb_true_iff in Hx. apply negb_true_iff.
    destruct (is_linebreak x) eqn:Hl; [|reflexivity].
    now rewrite (linebreak_is_space x Hl) in Hx.
Qed.

Lemma X17_keys_witness :
  Forall plain_name ["01"; "03"] /\
  keys_of (splitlines (stdout (ls_output ["01"; "03"]))) = ["01"; "03"].
Proof.
  assert (H : Forall plain_name ["01"; "03"]) by (repeat constructor).
  split; [exact H|].
  exact (X17_keys_of_pre_lines ["01"; "03"] H).
Defined.
